(** * Logfire configuration core: credentials, project names, processor chain

    A shallow embedding of [logfire/_internal/config.py]: the project-name
    pattern and sanitizer, the credentials file, token validation, the
    interactive project creation loop and the part of
    [LogfireConfig._initialize] that builds the span-processor chain and
    registers the global providers.

    Conventions.  A Python [str] is the [string] of its UTF-8 bytes.  A
    Python [dict] with string keys is a [gmap string _].  Code that can raise
    returns a [result]; code that talks to the terminal, the network or the
    file system threads a [world] through an exception-and-state monad. *)

From Stdlib Require Import Ascii DecimalString.
From stdpp Require Import gmap strings list fin_maps pretty.
From Corelib Require Import SpecFloat.

Set Warnings "-register-all,-clear-no-such-hyp".

(* ===================================================================== *)
(** * Part I: definitions                                                 *)
(* ===================================================================== *)

(** ** Strings *)

Definition code (c : ascii) : N := N_of_ascii c.

(** [str.lower] on one character.  Only ASCII letters have a lower-case form
    among single bytes; bytes of multi-byte characters never reach this
    function in the program (see [sanitize_project_name]). *)
Definition chr_lower (c : ascii) : ascii :=
  if ((code "A" <=? code c) && (code c <=? code "Z"))%N
  then ascii_of_N (code c + 32)
  else c.

(** [s.lower()] *)
Fixpoint str_lower (s : string) : string :=
  match s with
  | EmptyString => EmptyString
  | String c s' => String (chr_lower c) (str_lower s')
  end.

(** [s[:n]] *)
Fixpoint str_slice_to (n : nat) (s : string) : string :=
  match n, s with
  | O, _ => EmptyString
  | _, EmptyString => EmptyString
  | S n', String c s' => String c (str_slice_to n' s')
  end.

(** Truthiness of a [str]: the empty string is falsy. *)
Definition str_truthy (s : string) : bool :=
  match s with EmptyString => false | String _ _ => true end.

(** [a or b] on strings. *)
Definition str_or (a b : string) : string := if str_truthy a then a else b.

(** ** Regular expressions

    The fragment of Python's [re] syntax the module uses: literal characters,
    character sets with ranges (possibly negated), concatenation and
    repetition.  [RVoid], [REps] and [RAlt] only arise as derivatives. *)

Inductive regex : Type :=
| RVoid
| REps
| RChar (c : ascii)
| RSet (negated : bool) (ranges : list (ascii * ascii))
| RCat (r1 r2 : regex)
| RAlt (r1 r2 : regex)
| RStar (r : regex).

(** [r+] *)
Definition RPlus (r : regex) : regex := RCat r (RStar r).

Definition in_range (c : ascii) (r : ascii * ascii) : bool :=
  ((code (fst r) <=? code c) && (code c <=? code (snd r)))%N.

Definition in_set (negated : bool) (ranges : list (ascii * ascii)) (c : ascii) : bool :=
  xorb negated (existsb (in_range c) ranges).

Fixpoint nullable (r : regex) : bool :=
  match r with
  | RVoid => false
  | REps => true
  | RChar _ => false
  | RSet _ _ => false
  | RCat r1 r2 => nullable r1 && nullable r2
  | RAlt r1 r2 => nullable r1 || nullable r2
  | RStar _ => true
  end.

(** Brzozowski derivative of [r] by the character [c]. *)
Fixpoint deriv (c : ascii) (r : regex) : regex :=
  match r with
  | RVoid => RVoid
  | REps => RVoid
  | RChar c' => if bool_decide (c = c') then REps else RVoid
  | RSet neg rs => if in_set neg rs c then REps else RVoid
  | RCat r1 r2 =>
      if nullable r1
      then RAlt (RCat (deriv c r1) r2) (deriv c r2)
      else RCat (deriv c r1) r2
  | RAlt r1 r2 => RAlt (deriv c r1) (deriv c r2)
  | RStar r1 => RCat (deriv c r1) (RStar r1)
  end.

(** [re.fullmatch(r, s) is not None] *)
Fixpoint re_fullmatch (r : regex) (s : string) : bool :=
  match s with
  | EmptyString => nullable r
  | String c s' => re_fullmatch (deriv c r) s'
  end.

(** The string without its last character when that character is a newline. *)
Fixpoint chomp_newline (s : string) : option string :=
  match s with
  | EmptyString => None
  | String c EmptyString => if bool_decide (c = "010"%char) then Some EmptyString else None
  | String c s' => String c <$> chomp_newline s'
  end.

(** [re.match('^' r '$', s) is not None].  [re.match] anchors at the start;
    Python's [$] matches at the end of the string and also just before a
    newline that ends the string. *)
Definition re_match_anchored (r : regex) (s : string) : bool :=
  re_fullmatch r s ||
  match chomp_newline s with
  | Some s' => re_fullmatch r s'
  | None => false
  end.

(** [re.sub(cls, repl, s)] for a pattern [cls] that matches single
    characters: every matching character is replaced by [repl]. *)
Fixpoint re_sub_chars (cls : regex) (repl : string) (s : string) : string :=
  match s with
  | EmptyString => EmptyString
  | String c s' =>
      if re_fullmatch cls (String c EmptyString)
      then repl +:+ re_sub_chars cls repl s'
      else String c (re_sub_chars cls repl s')
  end.

(** ** Project names *)

(** [[a-z0-9]] *)
Definition LOWER_ALNUM : regex := RSet false [("a", "z"); ("0", "9")]%char.

(** [PROJECT_NAME_PATTERN = r'^[a-z0-9]+(?:-[a-z0-9]+)*$']; the anchors are
    those of [re_match_anchored]. *)
Definition PROJECT_NAME_PATTERN : regex :=
  RCat (RPlus LOWER_ALNUM) (RStar (RCat (RChar "-") (RPlus LOWER_ALNUM))).

(** [re.match(PROJECT_NAME_PATTERN, name)] as a truth value. *)
Definition matches_project_name_pattern (name : string) : bool :=
  re_match_anchored PROJECT_NAME_PATTERN name.

(** [r'[^a-zA-Z0-9]'] *)
Definition NOT_ALNUM : regex := RSet true [("a", "z"); ("A", "Z"); ("0", "9")]%char.

(** [sanitize_project_name]:
    [re.sub(r'[^a-zA-Z0-9]', '', name).lower()[:41] or 'untitled'] *)
Definition sanitize_project_name (name : string) : string :=
  str_or (str_slice_to 41 (str_lower (re_sub_chars NOT_ALNUM EmptyString name)))
         "untitled".

(** The sanitizer as the specification words it, over the list of
    characters: keep the alphanumeric characters, lower-case them, keep the
    first 41, and fall back to [untitled] when nothing is left. *)
Definition is_alnum (c : ascii) : bool :=
  existsb (in_range c) [("a", "z"); ("A", "Z"); ("0", "9")]%char.

Definition is_lower_alnum (c : ascii) : bool :=
  existsb (in_range c) [("a", "z"); ("0", "9")]%char.

Definition sanitize_spec (name : string) : string :=
  match firstn 41 (map chr_lower (List.filter is_alnum (String.list_ascii_of_string name))) with
  | [] => "untitled"
  | kept => String.string_of_list_ascii kept
  end.

(** The language of a regular expression, as a reference for the matcher. *)
Inductive re_lang : regex -> string -> Prop :=
| lang_eps : re_lang REps EmptyString
| lang_char c : re_lang (RChar c) (String c EmptyString)
| lang_set neg rs c :
    in_set neg rs c = true -> re_lang (RSet neg rs) (String c EmptyString)
| lang_cat r1 r2 s1 s2 :
    re_lang r1 s1 -> re_lang r2 s2 -> re_lang (RCat r1 r2) (s1 +:+ s2)
| lang_alt_l r1 r2 s : re_lang r1 s -> re_lang (RAlt r1 r2) s
| lang_alt_r r1 r2 s : re_lang r2 s -> re_lang (RAlt r1 r2) s
| lang_star_nil r : re_lang (RStar r) EmptyString
| lang_star_cons r s1 s2 :
    re_lang r s1 -> re_lang (RStar r) s2 -> re_lang (RStar r) (s1 +:+ s2).

(** Every character of [s] satisfies [p]. *)
Fixpoint str_forall (p : ascii -> bool) (s : string) : bool :=
  match s with
  | EmptyString => true
  | String c s' => p c && str_forall p s'
  end.

(** ** Python values, exceptions and effects *)

(** The values [json.load] and [response.json()] produce. *)
Inductive pyval : Type :=
| PNone
| PBool (b : bool)
| PInt (z : Z)
| PFloat (f : spec_float)
| PStr (s : string)
| PList (l : list pyval)
| PDict (d : gmap string pyval).

(** [v is None] *)
Definition is_None (v : pyval) : bool :=
  match v with PNone => true | _ => false end.

(** Truthiness, as [if v:], [not v] and [v or w] use it. *)
Definition py_truthy (v : pyval) : bool :=
  match v with
  | PNone => false
  | PBool b => b
  | PInt z => negb (z =? 0)%Z
  | PFloat f => negb (SFeqb f (S754_zero false))
  | PStr s => str_truthy s
  | PList l => match l with [] => false | _ => true end
  | PDict d => negb (bool_decide (d = ∅))
  end.

(** [a or b] *)
Definition py_or (a b : pyval) : pyval := if py_truthy a then a else b.

(** The exception classes the module meets.  [RequestException] stands for
    [requests.RequestException] and its subclasses, among them
    [UnexpectedResponse] and the [JSONDecodeError] of [response.json()].
    [LoopBound] is no Python exception: it marks a [while] loop of the model
    stopped by its iteration bound, which [create_new_project_terminates]
    shows never happens. *)
Inductive exn : Type :=
| LogfireConfigError (msg : string)
| TypeError (msg : string)
| AttributeError (msg : string)
| KeyError (key : string)
| IndexError
| ValueError
| OSError
| RequestException (msg : string)
| EOFError
| AssertionError
| SystemExit (code : Z)
| Exception (msg : string)
| LoopBound.

Definition is_TypeError (e : exn) : bool :=
  match e with TypeError _ => true | _ => false end.

Definition is_ValueError_or_OSError (e : exn) : bool :=
  match e with ValueError | OSError => true | _ => false end.

Definition is_RequestException (e : exn) : bool :=
  match e with RequestException _ => true | _ => false end.

Definition is_LogfireConfigError (e : exn) : bool :=
  match e with LogfireConfigError _ => true | _ => false end.

(** [str(e)] for the exceptions whose text the module formats into messages. *)
Definition exn_text (e : exn) : string :=
  match e with
  | LogfireConfigError msg | TypeError msg | AttributeError msg
  | RequestException msg => msg
  | KeyError key => key
  | IndexError => "list index out of range"
  | ValueError => "ValueError"
  | OSError => "OSError"
  | EOFError => "EOFError"
  | AssertionError => "AssertionError"
  | SystemExit _ => "SystemExit"
  | Exception msg => msg
  | LoopBound => "LoopBound"
  end.

Inductive result (A : Type) : Type :=
| Ok (a : A)
| Raise (e : exn).
Arguments Ok {A} a.
Arguments Raise {A} e.

#[global] Instance result_ret : MRet result := fun A (a : A) => Ok a.

#[global] Instance result_bind : MBind result := fun A B (f : A -> result B) (r : result A) =>
  match r with
  | Ok a => f a
  | Raise e => Raise e
  end.

#[global] Instance result_fmap : FMap result := fun A B (f : A -> B) (r : result A) =>
  match r with
  | Ok a => Ok (f a)
  | Raise e => Raise e
  end.

(** What a path of the file system holds, seen through [open] and
    [json.load]: a file that cannot be opened (a directory, a permission
    problem: [OSError]), a file whose text is not JSON ([ValueError]), or a
    file whose text is the JSON document of a value. *)
Inductive file_entry : Type :=
| Unreadable
| NotJSON
| JSONText (v : pyval).

(** The URL [urljoin(base, path)] builds for an absolute [path].  The paths
    are f-strings: [url_path] is the text with its placeholders, [url_args]
    the values formatted into them, in order. *)
Record url : Type := { url_base : pyval; url_path : string; url_args : list pyval }.

Definition urljoin (base : pyval) (path : string) (args : list pyval) : url :=
  {| url_base := base; url_path := path; url_args := args |}.

(** An HTTP reply: a status code and a body, [None] when the body is not
    JSON. *)
Record response : Type := { status_code : Z; body : option pyval }.

(** What [session.get] or [session.post] does: raise a
    [requests.RequestException] (connection refused, time-out, ...) or return
    a response. *)
Inductive http_outcome : Type :=
| HttpFails (msg : string)
| HttpResponds (r : response).

(** What the user does at a prompt: press Enter on an empty line, or type a
    line, given here as rich returns it, stripped. *)
Inductive answer : Type :=
| Enter
| Typed (line : string).

(** ** Exporters and span processors

    The objects [_initialize] composes.  Their classes live in the
    [exporters] package, in [tracer.py], [scrubbing.py] and in the
    OpenTelemetry SDK; here each object is the record of how it was
    built. *)

(** The dataclass [ConsoleOptions]. *)
Record ConsoleOptions : Type := {
  colors : string;
  span_style : string;
  include_timestamps : bool;
  verbose : bool;
  min_log_level : string;
}.

(** [TailSamplingOptions], as the keyword arguments it was built from. *)
Inductive TailSamplingOptions : Type :=
| TailSamplingOptionsOf (settings : gmap string pyval).

(** [ScrubbingOptions]: the extra patterns and the callback (named). *)
Record ScrubbingOptions : Type := {
  extra_patterns : option (list string);
  callback : option string;
}.

(** The scrubber: [Scrubber(extra_patterns, callback)] or [NOOP_SCRUBBER]. *)
Inductive BaseScrubber : Type :=
| NOOP_SCRUBBER
| Scrubber (extra_patterns : option (list string)) (callback : option string).

Inductive IdGenerator : Type :=
| RandomIdGenerator
| UserIdGenerator (name : string).

(** The three console exporter classes. *)
Inductive ConsoleExporterClass : Type :=
| SimpleConsoleSpanExporter
| IndentedConsoleSpanExporter
| ShowParentsConsoleSpanExporter.

Inductive SpanExporter : Type :=
| UserExporter (name : string)
| TestExporter
| ConsoleSpanExporter (cls : ConsoleExporterClass) (options : ConsoleOptions)
| OTLPSpanExporter (endpoint : option url) (authorization : option pyval)
| RetryFewerSpansSpanExporter (exporter : SpanExporter)
| FileSpanExporter (path : string) (warn : bool)
| FallbackSpanExporter (exporter fallback : SpanExporter)
| RemovePendingSpansExporter (exporter : SpanExporter).

(** A span processor.  [UserProcessor] is one the user passed in
    [additional_span_processors], with its [span_exporter] attribute if it
    has one. *)
Inductive SpanProcessor : Type :=
| UserProcessor (name : string) (span_exporter : option SpanExporter)
| SimpleSpanProcessor (span_exporter : SpanExporter)
| BatchSpanProcessor (span_exporter : SpanExporter) (schedule_delay_millis : option Z)
| TailSamplingProcessor (processor : SpanProcessor) (options : TailSamplingOptions)
    (random_rate : spec_float)
| MainSpanProcessorWrapper (processor : SpanProcessor) (scrubber : BaseScrubber)
| PendingSpanProcessor (id_generator : IdGenerator) (other_processors : list SpanProcessor).

Inductive Sampler : Type :=
| ParentBasedTraceIdRatio (rate : spec_float).

(** [SDKTracerProvider(sampler=..., resource=..., id_generator=...)] with the
    processors added to it so far, in order.  The resource plays no role in
    what follows and is left out. *)
Record SDKTracerProvider : Type := {
  sampler : option Sampler;
  provider_id_generator : IdGenerator;
  span_processors : list SpanProcessor;
}.

Inductive MetricExporter : Type :=
| OTLPMetricExporter (endpoint : option url) (authorization : option pyval)
| QuietMetricExporter (exporter : MetricExporter).

Inductive MetricReader : Type :=
| UserMetricReader (name : string)
| PeriodicExportingMetricReader (exporter : MetricExporter).

(** [MeterProvider(metric_readers=..., resource=..., views=...)] *)
Record MeterProvider : Type := {
  metric_readers : list MetricReader;
}.

(** The questions the module asks on the terminal.  Each constructor is one
    prompt text of the source; its arguments are the values the f-string
    formats into the text. *)
Inductive prompt_msg : Type :=
| PromptSelectOrganization
    (* To create and use a new project, please provide the following
       information: Select the organization to create the project in *)
| PromptConfirmOrganization (organization : pyval)
    (* The project will be created in the organization {organization}.
       Continue? *)
| PromptProjectName
    (* Enter the project name *)
| PromptNameInvalid
    (* The project name you've entered is invalid. Valid project names: may
       contain lowercase alphanumeric characters, may contain single hyphens,
       may not start or end with a hyphen. Enter the project name you want
       to use: *)
| PromptNameTaken (project_name : pyval)
    (* A project with the name '{project_name}' already exists. Please enter
       a different project name *)
| PromptNameRejected (msg : pyval)
    (* The project name you entered is invalid: {error[msg]} Please enter a
       different project name *)
| PromptUseExisting
    (* Do you want to use one of your existing projects? *)
| PromptChooseFromAll (project_message org_message : string)
    (* No {project_message} found for the current user{org_message}. Choose
       from all projects? *)
| PromptSelectProject (choices : list (string * (pyval * pyval)))
    (* Please select one of the following projects by number:
       {index}. {organization}/{project} ... *)
| PromptInitialized (project_url : pyval)
    (* Project initialized successfully. You will be able to view it at:
       {result.project_url} Press Enter to continue *).

(** The [default] argument of [Prompt.ask]: the Ellipsis (no default), or a
    value. *)
Inductive ask_default : Type :=
| NoDefault
| Default (v : pyval).

(** What the program does that the outside can see. *)
Inductive event : Type :=
| EWarn (msg : string)
| EPrint (msg : string)
| EPrintSummary (project_url : pyval)
| EPrompt (prompt : prompt_msg) (choices : option (list pyval)) (default : ask_default)
| EConfirm (prompt : prompt_msg) (default : bool)
| ERequest (method : string) (target : url) (authorization : pyval) (json : option pyval)
| EWriteFile (path : string)
| EThreadStart (name : string)
| EAddSpanProcessor (span_processor : SpanProcessor)
| EShutdownTracerProvider
| EShutdownMeterProvider
| ESetTracerProvider
| ESetMeterProvider.

(** The environment: the file system, the environment variables, the
    current working directory, the lines the user will type, the replies the server will give (in order),
    the user token of the login file when the user is logged in, the
    events seen so far, oldest first, the id of the process, and for each
    shutdown of the meter provider to come whether it will time out (in
    order). *)
Record world : Type := {
  files : gmap string file_entry;
  environ : gmap string string;
  cwd : string;
  answers : list answer;
  responses : list http_outcome;
  user_token : option string;
  events : list event;
  pid : Z;
  meter_shutdown_timeouts : list bool;
}.

Definition set_files (fs : gmap string file_entry) (w : world) : world :=
  {| files := fs; environ := environ w; cwd := cwd w; answers := answers w;
     responses := responses w;
     user_token := user_token w; events := events w;
     pid := pid w; meter_shutdown_timeouts := meter_shutdown_timeouts w |}.

Definition set_answers (ans : list answer) (w : world) : world :=
  {| files := files w; environ := environ w; cwd := cwd w; answers := ans;
     responses := responses w;
     user_token := user_token w; events := events w;
     pid := pid w; meter_shutdown_timeouts := meter_shutdown_timeouts w |}.

Definition set_responses (rs : list http_outcome) (w : world) : world :=
  {| files := files w; environ := environ w; cwd := cwd w; answers := answers w;
     responses := rs;
     user_token := user_token w; events := events w;
     pid := pid w; meter_shutdown_timeouts := meter_shutdown_timeouts w |}.

Definition add_event (e : event) (w : world) : world :=
  {| files := files w; environ := environ w; cwd := cwd w; answers := answers w;
     responses := responses w; user_token := user_token w; events := events w ++ [e];
     pid := pid w; meter_shutdown_timeouts := meter_shutdown_timeouts w |}.

(** Computations that read and change the world and may raise. *)
Definition M (A : Type) : Type := world -> result A * world.

#[global] Instance M_ret : MRet M := fun A (a : A) w => (Ok a, w).

#[global] Instance M_bind : MBind M := fun A B (f : A -> M B) (m : M A) w =>
  match m w with
  | (Ok a, w') => f a w'
  | (Raise e, w') => (Raise e, w')
  end.

#[global] Instance M_fmap : FMap M := fun A B (f : A -> B) (m : M A) w =>
  match m w with
  | (Ok a, w') => (Ok (f a), w')
  | (Raise e, w') => (Raise e, w')
  end.

Definition raise {A : Type} (e : exn) : M A := fun w => (Raise e, w).

(** A pure computation that may raise, run inside [M]. *)
Definition lift {A : Type} (r : result A) : M A := fun w => (r, w).

(** [try: body except <handled> as e: handler(e)] *)
Definition try_except {A : Type} (body : M A) (handled : exn -> bool)
    (handler : exn -> M A) : M A := fun w =>
  match body w with
  | (Ok a, w') => (Ok a, w')
  | (Raise e, w') => if handled e then handler e w' else (Raise e, w')
  end.

Definition emit (e : event) : M unit := fun w => (Ok tt, add_event e w).

(** [warnings.warn(msg)] *)
Definition warnings_warn (msg : string) : M unit := emit (EWarn msg).

(** [print(msg)] and [console.print(msg)] *)
Definition print (msg : string) : M unit := emit (EPrint msg).

(** [session.get(url, headers={**COMMON_REQUEST_HEADERS, 'Authorization':
    authorization})] and [session.post(...)]: the request is recorded and the
    next reply of the server is consumed; a server with no reply left is
    unreachable. *)
Definition session_request (method : string) (target : url)
    (authorization : pyval) (json : option pyval) : M response := fun w =>
  let w' := set_responses (tail (responses w))
              (add_event (ERequest method target authorization json) w) in
  match responses w with
  | [] => (Raise (RequestException "connection refused"), w')
  | HttpFails msg :: _ => (Raise (RequestException msg), w')
  | HttpResponds r :: _ => (Ok r, w')
  end.

(** [response.json()] *)
Definition response_json (r : response) : result pyval :=
  match body r with
  | Some v => Ok v
  | None => Raise (RequestException "response body is not JSON")
  end.

(** [v[key]] for a string [key]. *)
Definition py_getitem (v : pyval) (key : string) : result pyval :=
  match v with
  | PDict d =>
      match d !! key with
      | Some x => Ok x
      | None => Raise (KeyError key)
      end
  | PList _ => Raise (TypeError "list indices must be integers or slices, not str")
  | PStr _ => Raise (TypeError "string indices must be integers")
  | _ => Raise (TypeError "object is not subscriptable")
  end.

(** [v[0]] *)
Definition py_getitem_0 (v : pyval) : result pyval :=
  match v with
  | PList (x :: _) => Ok x
  | PList [] => Raise IndexError
  | PDict _ => Raise (KeyError "0")
  | PStr (String c _) => Ok (PStr (String c EmptyString))
  | PStr EmptyString => Raise IndexError
  | _ => Raise (TypeError "object is not subscriptable")
  end.

(** [v.pop(key, default)]: the value popped and the object afterwards. *)
Definition py_pop (v : pyval) (key : string) (default : pyval)
    : result (pyval * gmap string pyval) :=
  match v with
  | PDict d =>
      match d !! key with
      | Some x => Ok (x, delete key d)
      | None => Ok (default, d)
      end
  | PList _ => Raise (TypeError "pop expected at most 1 argument, got 2")
  | _ => Raise (AttributeError "object has no attribute 'pop'")
  end.

(** [d.setdefault(key, value)], for the dictionary afterwards. *)
Definition dict_setdefault (d : gmap string pyval) (key : string) (value : pyval)
    : gmap string pyval :=
  match d !! key with
  | Some _ => d
  | None => <[key := value]> d
  end.

(** ** Credentials *)

Definition CREDENTIALS_FILENAME : string := "logfire_credentials.json".

(** [dir / name] on paths. *)
Definition path_join (dir name : string) : string := dir +:+ "/" +:+ name.

Definition _get_creds_file (creds_dir : string) : string :=
  path_join creds_dir CREDENTIALS_FILENAME.

(** The dataclass [LogfireCredentials].  Its fields are annotated [str], but
    neither the dataclass nor [json.load] checks that, so a field holds
    whatever value it was given. *)
Record LogfireCredentials : Type := {
  token : pyval;
  project_name : pyval;
  project_url : pyval;
  logfire_api_url : pyval;
}.

Definition CREDENTIALS_FIELDS : gset string :=
  {[ "token"; "project_name"; "project_url"; "logfire_api_url" ]}.

(** The constructor called with the keyword arguments [kwargs], as [cls] is
    on an unpacked dictionary: a [TypeError] unless the keywords are exactly
    the four fields. *)
Definition LogfireCredentials_init (kwargs : gmap string pyval)
    : result LogfireCredentials :=
  if bool_decide (dom kwargs ⊆ CREDENTIALS_FIELDS) then
    match kwargs !! "token", kwargs !! "project_name",
          kwargs !! "project_url", kwargs !! "logfire_api_url" with
    | Some t, Some n, Some u, Some a =>
        Ok {| token := t; project_name := n; project_url := u; logfire_api_url := a |}
    | _, _, _, _ =>
        Raise (TypeError "__init__() missing required positional arguments")
    end
  else Raise (TypeError "__init__() got an unexpected keyword argument").

(** [dataclasses.asdict(self)] *)
Definition asdict (self : LogfireCredentials) : gmap string pyval :=
  <["token" := token self]>
  (<["project_name" := project_name self]>
  (<["project_url" := project_url self]>
  (<["logfire_api_url" := logfire_api_url self]> ∅))).

(** [path.exists()] and the entry behind it. *)
Definition path_lookup (path : string) : M (option file_entry) := fun w =>
  (Ok (files w !! path), w).

(** [with path.open('rb') as f: json.load(f)] on an existing path. *)
Definition json_load (f : file_entry) : result pyval :=
  match f with
  | Unreadable => Raise OSError
  | NotJSON => Raise ValueError
  | JSONText v => Ok v
  end.

(** [path.write_text(json.dumps(data, indent=2) + '\n')] *)
Definition write_json (path : string) (data : pyval) : M unit := fun w =>
  (Ok tt, set_files (<[path := JSONText data]> (files w)) (add_event (EWriteFile path) w)).

(** Modelled from the spec: [ensure_data_dir_exists] lives in [utils.py],
    which is not part of the sources at hand.  The specification places the
    credentials file in the data directory; making sure that directory exists
    changes nothing a path of [files] holds. *)
Definition ensure_data_dir_exists (creds_dir : string) : M unit := mret tt.

(** [LogfireCredentials.load_creds_file] *)
Definition load_creds_file (creds_dir : string) : M (option LogfireCredentials) :=
  let path := _get_creds_file creds_dir in
  entry ← path_lookup path;
  match entry with
  | Some f =>
      data ← try_except (lift (json_load f)) is_ValueError_or_OSError
               (fun e => raise (LogfireConfigError ("Invalid credentials file: " +:+ path)));
      try_except
        ((* Handle legacy key *)
         '(dashboard_url, data) ← lift (py_pop data "dashboard_url" PNone);
         let data :=
           if negb (is_None dashboard_url)
           then dict_setdefault data "project_url" dashboard_url
           else data in
         Some <$> lift (LogfireCredentials_init data))
        is_TypeError
        (fun e => raise (LogfireConfigError
           ("Invalid credentials file: " +:+ path +:+ " - " +:+ exn_text e)))
  | None => mret None
  end.

(** [LogfireCredentials.write_creds_file] *)
Definition write_creds_file (self : LogfireCredentials) (creds_dir : string) : M unit :=
  ensure_data_dir_exists creds_dir;;
  let data := asdict self in
  let path := _get_creds_file creds_dir in
  write_json path (PDict data).

(** [LogfireCredentials.from_token] *)
Definition from_token (token : pyval) (base_url : pyval) : M (option LogfireCredentials) :=
  attempt ← try_except
    (Some <$> session_request "GET" (urljoin base_url "/v1/info" []) token None)
    is_RequestException
    (fun e =>
       warnings_warn ("Logfire API is unreachable, you may have trouble sending data. Error: "
                      +:+ exn_text e);;
       mret None);
  match attempt with
  | None => mret None
  | Some response =>
      if bool_decide (status_code response = 401%Z) then
        warnings_warn "Invalid Logfire token.";;
        mret None
      else if negb (bool_decide (status_code response = 200%Z)) then
        (* any other status code is considered unhealthy *)
        warnings_warn
          ("Logfire API is unhealthy, you may have trouble sending data. Status code: "
           +:+ pretty (status_code response));;
        mret None
      else
        data ← lift (response_json response);
        name ← lift (py_getitem data "project_name");
        link ← lift (py_getitem data "project_url");
        mret (Some {| token := token; project_name := name; project_url := link;
                      logfire_api_url := base_url |})
  end.

(** A world with the given files, answers, server replies and login, no
    environment variable, the working directory [/home/user/my-project],
    no event yet, the process id 4242 and no shutdown that times out. *)
Definition initial_world (fs : gmap string file_entry) (ans : list answer)
    (resp : list http_outcome) (user : option string) : world :=
  {| files := fs; environ := ∅; cwd := "/home/user/my-project"; answers := ans;
     responses := resp;
     user_token := user; events := [];
     pid := 4242; meter_shutdown_timeouts := [] |}.

(** The first reply of the server is a response with status 200. *)
Definition replies_200 (w : world) : bool :=
  match responses w with
  | HttpResponds r :: _ => bool_decide (status_code r = 200%Z)
  | _ => false
  end.

(** The data directory [.logfire] holding [entry] as its credentials file. *)
Definition creds_dir_with (entry : file_entry) : world :=
  initial_world {[ _get_creds_file ".logfire" := entry ]} [] [] None.

Definition is_LogfireConfigError_result {A : Type} (r : result A) : bool :=
  match r with
  | Raise e => is_LogfireConfigError e
  | Ok _ => false
  end.

(** A credentials object as older versions wrote it, with the legacy key. *)
Definition legacy_credentials : gmap string pyval :=
  {[ "token" := PStr "t"; "project_name" := PStr "p";
     "dashboard_url" := PStr "old"; "logfire_api_url" := PStr "api" ]}.

(** ** More of Python's dynamic operations *)

(** [v == s] for a string [s]: among these values only a string equals a
    string. *)
Definition py_eq_str (v : pyval) (s : string) : bool :=
  match v with
  | PStr s' => bool_decide (s' = s)
  | _ => false
  end.

(** [v == [s1, ..., sn]] for a list of strings. *)
Fixpoint py_eq_strs (l : list pyval) (ss : list string) : bool :=
  match l, ss with
  | [], [] => true
  | v :: l', s :: ss' => py_eq_str v s && py_eq_strs l' ss'
  | _, _ => false
  end.

Definition py_eq_str_list (v : pyval) (ss : list string) : bool :=
  match v with
  | PList l => py_eq_strs l ss
  | _ => false
  end.

(** [x in l] for [x] a string or [None]. *)
Definition py_in (x : option string) (l : list pyval) : bool :=
  existsb (fun v => match x with
                    | Some s => py_eq_str v s
                    | None => is_None v
                    end) l.

(** [v.get(key, default)] *)
Definition py_get (v : pyval) (key : string) (default : pyval) : result pyval :=
  match v with
  | PDict d =>
      match d !! key with
      | Some x => Ok x
      | None => Ok default
      end
  | _ => Raise (AttributeError "object has no attribute 'get'")
  end.

(** The items [for item in v] visits.  A dictionary yields its keys; their
    order plays no role in this module. *)
Definition py_iter (v : pyval) : result (list pyval) :=
  match v with
  | PList l => Ok l
  | PDict d => Ok (PStr <$> (map_to_list d).*1)
  | PStr s => Ok ((fun c => PStr (String c EmptyString)) <$> String.list_ascii_of_string s)
  | _ => Raise (TypeError "object is not iterable")
  end.

(** [len(v)]; the length of a string is counted in bytes here, and no string
    reaches [len] in this module. *)
Definition py_len (v : pyval) : result nat :=
  match v with
  | PList l => Ok (length l)
  | PDict d => Ok (size d)
  | PStr s => Ok (String.length s)
  | _ => Raise (TypeError "object has no len()")
  end.

(** [l[0]] on a list. *)
Definition list_getitem_0 (l : list pyval) : result pyval :=
  match l with
  | x :: _ => Ok x
  | [] => Raise IndexError
  end.

(** [re.match(PROJECT_NAME_PATTERN, v)] as a truth value; [re.match] wants a
    string. *)
Definition re_match_project_name (v : pyval) : result bool :=
  match v with
  | PStr s => Ok (matches_project_name_pattern s)
  | _ => Raise (TypeError "expected string or bytes-like object")
  end.

(** [while True: body], for a body that ends with [continue] ([inl], with
    the variables of the next round) or [return] ([inr]).  [fuel] bounds the
    number of rounds. *)
Fixpoint while_true {St A : Type} (fuel : nat) (body : St -> M (St + A)) (st : St) : M A :=
  match fuel with
  | O => raise LoopBound
  | S fuel' =>
      r ← body st;
      match r with
      | inl st' => while_true fuel' body st'
      | inr a => mret a
      end
  end.

(** ** The terminal *)

(** Whether rich accepts [value] for a prompt with these [choices]. *)
Definition choice_ok (choices : option (list pyval)) (value : string) : bool :=
  match choices with
  | None => true
  | Some cs => existsb (fun c => py_eq_str c value) cs
  end.

(** The loop inside [Prompt.ask]: Enter returns the default when there is
    one; otherwise the (stripped) line is returned when the choices allow
    it, and asked again when they do not.  A closed input raises
    [EOFError]. *)
Fixpoint read_answer (choices : option (list pyval)) (default : ask_default)
    (ans : list answer) : result pyval * list answer :=
  match ans with
  | [] => (Raise EOFError, [])
  | Enter :: rest =>
      match default with
      | Default v => (Ok v, rest)
      | NoDefault =>
          if choice_ok choices EmptyString then (Ok (PStr EmptyString), rest)
          else read_answer choices default rest
      end
  | Typed line :: rest =>
      if choice_ok choices line then (Ok (PStr line), rest)
      else read_answer choices default rest
  end.

(** [Prompt.ask(prompt, choices=choices, default=default)] *)
Definition Prompt_ask (prompt : prompt_msg) (choices : option (list pyval))
    (default : ask_default) : M pyval := fun w =>
  let w1 := add_event (EPrompt prompt choices default) w in
  let '(r, rest) := read_answer choices default (answers w1) in
  (r, set_answers rest w1).

(** The loop inside [Confirm.ask]: Enter returns the default, [y] and [n]
    (in either case) answer, anything else is asked again. *)
Fixpoint read_confirm (default : bool) (ans : list answer) : result bool * list answer :=
  match ans with
  | [] => (Raise EOFError, [])
  | Enter :: rest => (Ok default, rest)
  | Typed line :: rest =>
      if bool_decide (str_lower line = "y") then (Ok true, rest)
      else if bool_decide (str_lower line = "n") then (Ok false, rest)
      else read_confirm default rest
  end.

(** [Confirm.ask(prompt, default=default)] *)
Definition Confirm_ask (prompt : prompt_msg) (default : bool) : M bool := fun w =>
  let w1 := add_event (EConfirm prompt default) w in
  let '(r, rest) := read_confirm default (answers w1) in
  (r, set_answers rest w1).

(** [os.path.basename(path)]: what follows the last slash. *)
Fixpoint basename_from (acc : string) (path : string) : string :=
  match path with
  | EmptyString => acc
  | String c rest =>
      if bool_decide (c = "/"%char) then basename_from EmptyString rest
      else basename_from (acc +:+ String c EmptyString) rest
  end.

Definition os_path_basename (path : string) : string := basename_from EmptyString path.

(** [default_project_name()] *)
Definition default_project_name : M string := fun w =>
  (Ok (sanitize_project_name (os_path_basename (cwd w))), w).

(** ** Talking to the Logfire API *)

(** Modelled from the spec: the login file and [is_logged_in] belong to
    [auth.py], which is not part of the sources at hand (the specification
    treats login as an external collaborator).  [user_token] of the world is
    the token that file holds for the API in use, if any.
    [LogfireCredentials._get_user_token] returns it or raises. *)
Definition _get_user_token (logfire_api_url : pyval) : M string := fun w =>
  match user_token w with
  | Some t => (Ok t, w)
  | None =>
      (Raise (LogfireConfigError
         "You are not authenticated. Please run `logfire auth` to authenticate."), w)
  end.

(** Modelled from the spec: [UnexpectedResponse.raise_for_status] belongs to
    [utils.py], which is not part of the sources at hand.  The specification
    lists 409 and 422 as the error replies of project creation; as the name
    says, a status outside 200..299 raises [UnexpectedResponse], a
    [requests.RequestException]. *)
Definition raise_for_status (r : response) : result unit :=
  if ((200 <=? status_code r) && (status_code r <? 300))%Z then Ok tt
  else Raise (RequestException ("Unexpected response: " +:+ pretty (status_code r))).

(** The pattern [try: response = session.<method>(url, headers=headers);
    UnexpectedResponse.raise_for_status(response) except
    requests.RequestException as e: raise LogfireConfigError(msg) from e]. *)
Definition checked_request (method : string) (target : url) (user_token : string)
    (msg : string) : M response :=
  try_except
    (response ← session_request method target (PStr user_token) None;
     lift (raise_for_status response);;
     mret response)
    is_RequestException
    (fun e => raise (LogfireConfigError msg)).

(** [LogfireCredentials._get_user_for_token] *)
Definition _get_user_for_token (user_token : string) (logfire_api_url : pyval) : M pyval :=
  response ← checked_request "GET" (urljoin logfire_api_url "/v1/account/me" [])
                user_token "Error retrieving user information.";
  lift (response_json response).

(** [LogfireCredentials.get_user_projects] *)
Definition get_user_projects (logfire_api_url : pyval) : M pyval :=
  user_token ← _get_user_token logfire_api_url;
  response ← checked_request "GET" (urljoin logfire_api_url "/v1/projects/" [])
                user_token "Error retrieving list of projects.";
  lift (response_json response).

(** [[p for p in items if p[key] == value]] *)
Fixpoint filter_by_key (key value : string) (items : list pyval) : result (list pyval) :=
  match items with
  | [] => Ok []
  | p :: rest =>
      v ← py_getitem p key;
      kept ← filter_by_key key value rest;
      mret (if py_eq_str v value then p :: kept else kept)
  end.

(** [{str(index + 1): (item['organization_name'], item['project_name'])
    for index, item in enumerate(items)}], as the list of its items in
    order; the keys are pairwise distinct. *)
Fixpoint project_choices_from (index : nat) (items : list pyval)
    : result (list (string * (pyval * pyval))) :=
  match items with
  | [] => Ok []
  | item :: rest =>
      organization ← py_getitem item "organization_name";
      name ← py_getitem item "project_name";
      others ← project_choices_from (S index) rest;
      mret ((pretty (index + 1), (organization, name)) :: others)
  end.

(** [project_choices[key]] *)
Definition project_choices_getitem (project_choices : list (string * (pyval * pyval)))
    (key : pyval) : result (pyval * pyval) :=
  match key with
  | PStr k =>
      match list_find (fun kv => kv.1 = k) project_choices with
      | Some (_, kv) => Ok kv.2
      | None => Raise (KeyError k)
      end
  | _ => Raise (KeyError "selected_project_key")
  end.

(** [LogfireCredentials.use_existing_project] *)
Definition use_existing_project (logfire_api_url : pyval) (projects : pyval)
    (organization project_name : option string) : M pyval :=
  user_token ← _get_user_token logfire_api_url;
  let project_message :=
    match project_name with
    | Some n => "projects with name `" +:+ n +:+ "`"
    | None => "projects"
    end in
  filtered_projects ←
    (match organization with
     | Some o =>
         items ← lift (py_iter projects);
         PList <$> lift (filter_by_key "organization_name" o items)
     | None => mret projects
     end : M pyval);
  let org_message :=
    match organization with
    | Some o => " in organization `" +:+ o +:+ "`"
    | None => EmptyString
    end in
  let org_flag :=
    match organization with
    | Some o => " --org " +:+ o
    | None => EmptyString
    end in
  filtered_projects ←
    (match project_name with
     | Some n =>
         items ← lift (py_iter filtered_projects);
         PList <$> lift (filter_by_key "project_name" n items)
     | None => mret filtered_projects
     end : M pyval);
  exact_match ←
    (match project_name with
     | Some _ => n ← lift (py_len filtered_projects); mret (bool_decide (n = 1))
     | None => mret false
     end : M bool);
  selection ←
    (if (exact_match : bool) then
       (* exact match to requested project *)
       p ← lift (py_getitem_0 filtered_projects);
       o ← lift (py_getitem p "organization_name");
       n ← lift (py_getitem p "project_name");
       mret (Some (filtered_projects, o, n))
     else if negb (py_truthy filtered_projects) then
       if negb (py_truthy projects) then
         print "No projects found for the current user. You can create a new project with `logfire projects new`";;
         mret None
       else
         choice ← Prompt_ask (PromptChooseFromAll project_message org_message)
                    (Some [PStr "y"; PStr "n"]) (Default (PStr "y"));
         if py_eq_str choice "n" then
           (* user didn't want to expand search, print a hint and quit *)
           print ("You can create a new project" +:+ org_message
                  +:+ " with `logfire projects new" +:+ org_flag +:+ "`");;
           mret None
         else
           (* try all projects *)
           mret (Some (projects, PNone, PNone))
     else
       (* multiple matches *)
       (if bool_decide (is_Some project_name) && bool_decide (organization = None)
        then print ("Found multiple " +:+ project_message +:+ ".")
        else mret tt);;
       mret (Some (filtered_projects, PNone, PNone))
     : M (option (pyval * pyval * pyval)));
  match selection with
  | None => mret PNone
  | Some (filtered_projects, organization, project_name) =>
      '(organization, project_name) ←
        (if is_None organization || is_None project_name then
           items ← lift (py_iter filtered_projects);
           project_choices ← lift (project_choices_from 0 items);
           selected_project_key ←
             Prompt_ask (PromptSelectProject project_choices)
               (Some (PStr <$> project_choices.*1)) (Default (PStr "1"));
           lift (project_choices_getitem project_choices selected_project_key)
         else mret (organization, project_name) : M (pyval * pyval));
      response ← checked_request "POST"
        (urljoin logfire_api_url
           "/v1/organizations/{organization}/projects/{project_name}/write-tokens/"
           [organization; project_name])
        user_token "Error creating project write token.";
      lift (response_json response)
  end.

(** One round of [while project_name and not re.match(PROJECT_NAME_PATTERN,
    project_name)]: ask again ([inl]) or leave the loop ([inr]). *)
Definition reprompt_invalid_name (project_name_default : ask_default)
    (project_name : pyval) : M (pyval + pyval) :=
  invalid ←
    (if py_truthy project_name
     then negb <$> lift (re_match_project_name project_name)
     else mret false : M bool);
  if (invalid : bool)
  then inl <$> Prompt_ask PromptNameInvalid None project_name_default
  else mret (inr project_name).

(** The inner [while] loop of [create_new_project]; every round reads a line
    of the user, which bounds the rounds. *)
Definition valid_project_name (project_name_default : ask_default)
    (project_name : pyval) : M pyval := fun w =>
  while_true (S (length (answers w))) (reprompt_invalid_name project_name_default)
    project_name w.

(** The [try ... except requests.RequestException ... else ...] statement
    that ends a round of the [while True] loop of [create_new_project]: the
    name is posted; [inl] is [continue] with the new values of
    [project_name], [project_name_default] and [project_name_prompt], [inr]
    is [return response.json()]. *)
Definition submit_project_name (logfire_api_url organization : pyval)
    (user_token : string) (project_name : pyval)
    : M (pyval * ask_default * prompt_msg + pyval) :=
  let target := urljoin logfire_api_url "/v1/projects/{organization}" [organization] in
  outcome ← try_except
    (response ← session_request "POST" target (PStr user_token)
                  (Some (PDict {[ "project_name" := project_name ]}));
     if bool_decide (status_code response = 409%Z) then
       (* project_name_default = ...: this means the value is required *)
       mret (inl (PNone, NoDefault, PromptNameTaken project_name))
     else
       retry ←
         (if bool_decide (status_code response = 422%Z) then
            data ← lift (response_json response);
            detail ← lift (py_getitem data "detail");
            error ← lift (py_getitem_0 detail);
            loc ← lift (py_getitem error "loc");
            if py_eq_str_list loc ["body"; "project_name"] then
              msg ← lift (py_getitem error "msg");
              mret (Some (PNone, NoDefault, PromptNameRejected msg))
            else mret None
          else mret None : M (option (pyval * ask_default * prompt_msg)));
       match retry with
       | Some st' => mret (inl st')
       | None => lift (raise_for_status response);; mret (inr response)
       end)
    is_RequestException
    (fun e => raise (LogfireConfigError "Error creating new project."));
  match outcome with
  | inl st' => mret (inl st')
  | inr response => inr <$> lift (response_json response)
  end.

(** One round of the [while True] loop of [create_new_project], on the
    variables [project_name], [project_name_default] and
    [project_name_prompt]. *)
Definition create_project_round (logfire_api_url organization : pyval)
    (user_token : string) (force_project_name_prompt : bool)
    (st : pyval * ask_default * prompt_msg)
    : M (pyval * ask_default * prompt_msg + pyval) :=
  let '(project_name, project_name_default, project_name_prompt) := st in
  project_name ←
    (if force_project_name_prompt || negb (py_truthy project_name)
     then Prompt_ask project_name_prompt None project_name_default
     else mret project_name : M pyval);
  project_name ← valid_project_name project_name_default project_name;
  submit_project_name logfire_api_url organization user_token project_name.

(** The [while True] loop of [create_new_project]; every round that
    continues has consumed a reply of the server, which bounds the rounds. *)
Definition create_project_loop (logfire_api_url organization : pyval)
    (user_token : string) (force_project_name_prompt : bool)
    (st : pyval * ask_default * prompt_msg) : M pyval := fun w =>
  while_true (S (length (responses w)))
    (create_project_round logfire_api_url organization user_token force_project_name_prompt)
    st w.

(** [LogfireCredentials.create_new_project] *)
Definition create_new_project (logfire_api_url : pyval) (organization : option string)
    (default_organization : bool) (project_name : pyval)
    (force_project_name_prompt : bool) : M pyval :=
  user_token ← _get_user_token logfire_api_url;
  (* Get user organizations *)
  response ← checked_request "GET" (urljoin logfire_api_url "/v1/organizations/" [])
                user_token "Error retrieving list of organizations.";
  data ← lift (response_json response);
  items ← lift (py_iter data);
  organizations ← lift (mapM (fun item => py_getitem item "organization_name") items);
  organization ←
    (if negb (py_in organization organizations) then
       if bool_decide (1 < length organizations) then
         (* Get user default organization *)
         user_details ← _get_user_for_token user_token logfire_api_url;
         (if is_None user_details then raise AssertionError else mret tt);;
         default_info ← lift (py_get user_details "default_organization" (PDict ∅));
         user_default_organization_name ← lift (py_get default_info "organization_name" PNone);
         if default_organization && py_truthy user_default_organization_name then
           mret user_default_organization_name
         else
           first ← lift (list_getitem_0 organizations);
           Prompt_ask PromptSelectOrganization (Some organizations)
             (Default (if py_truthy user_default_organization_name
                       then user_default_organization_name else first))
       else
         organization ← lift (list_getitem_0 organizations);
         if negb default_organization then
           confirm ← Confirm_ask (PromptConfirmOrganization organization) true;
           if (confirm : bool) then mret organization else raise (SystemExit 1)
         else mret organization
     else mret (from_option PStr PNone organization) : M pyval);
  project_name_default ←
    (if py_truthy project_name then mret project_name
     else PStr <$> default_project_name : M pyval);
  create_project_loop logfire_api_url organization user_token force_project_name_prompt
    (project_name, Default project_name_default, PromptProjectName).

(** The constructor called with the unpacked dictionary [credentials] and
    the keyword [logfire_api_url], as [initialize_project] calls [cls]. *)
Definition LogfireCredentials_init_with_url (credentials logfire_api_url : pyval)
    : result LogfireCredentials :=
  match credentials with
  | PDict d =>
      if bool_decide ("logfire_api_url" ∈ dom d)
      then Raise (TypeError "__init__() got multiple values for keyword argument 'logfire_api_url'")
      else LogfireCredentials_init (<["logfire_api_url" := logfire_api_url]> d)
  | _ => Raise (TypeError "argument after ** must be a mapping")
  end.

(** [LogfireCredentials.initialize_project] *)
Definition initialize_project (logfire_api_url : pyval) (project_name : pyval)
    : M LogfireCredentials :=
  print "No Logfire project credentials found. All data sent to Logfire must be associated with a project.";;
  projects ← get_user_projects logfire_api_url;
  credentials ←
    (if py_truthy projects then
       use_existing_projects ← Confirm_ask PromptUseExisting true;
       if (use_existing_projects : bool)
       then use_existing_project logfire_api_url projects None None
       else mret PNone
     else mret PNone : M pyval);
  credentials ←
    (if negb (py_truthy credentials)
     then create_new_project logfire_api_url None false project_name true
     else mret credentials : M pyval);
  try_except
    (result ← lift (LogfireCredentials_init_with_url credentials logfire_api_url);
     Prompt_ask (PromptInitialized (project_url result)) None NoDefault;;
     mret result)
    is_TypeError
    (fun e => raise (LogfireConfigError
       ("Invalid credentials, when initializing project: " +:+ exn_text e))).

(** What the validation loop lets through: a falsy name, or a string that
    matches the pattern. *)
Definition name_passes_gate (project_name : pyval) : bool :=
  negb (py_truthy project_name) ||
  match re_match_project_name project_name with
  | Ok matched => matched
  | Raise _ => false
  end.

(** The request that submits [project_name] for creation. *)
Definition create_project_request (logfire_api_url organization : pyval)
    (user_token : string) (project_name : pyval) : event :=
  ERequest "POST" (urljoin logfire_api_url "/v1/projects/{organization}" [organization])
    (PStr user_token) (Some (PDict {[ "project_name" := project_name ]})).

(** [m] never stops on the iteration bound of a loop. *)
Definition no_bound {A : Type} (m : M A) : Prop :=
  forall w, fst (m w) <> Raise LoopBound.

(** The same for a pure computation. *)
Definition pure_no_bound {A : Type} (r : result A) : Prop := r <> Raise LoopBound.

(** The project name an event submits for creation, if it is such a
    request. *)
Definition submitted_name (e : event) : option pyval :=
  match e with
  | ERequest method target _ (Some (PDict d)) =>
      if bool_decide (method = "POST" /\ url_path target = "/v1/projects/{organization}")
      then d !! "project_name"
      else None
  | _ => None
  end.

(** The project names submitted so far, oldest first. *)
Definition submissions (w : world) : list pyval := omap submitted_name (events w).

(** Every name submitted so far was falsy or matched the pattern. *)
Definition gated (w : world) : Prop :=
  Forall (fun v => name_passes_gate v = true) (submissions w).

(** [m] keeps [gated], and a value it returns satisfies [Q]. *)
Definition keeps_gate {A : Type} (m : M A) (Q : A -> Prop) : Prop :=
  forall w, gated w ->
    gated (snd (m w)) /\ (forall a, fst (m w) = Ok a -> Q a).

(** A reply with a JSON body. *)
Definition reply (status : Z) (data : pyval) : http_outcome :=
  HttpResponds {| status_code := status; body := Some data |}.

(** The reply of the server to a successful project creation. *)
Definition created_project : pyval :=
  PDict {[ "token" := PStr "abc"; "project_name" := PStr "my-project";
           "project_url" := PStr "https://logfire.dev/acme/my-project" ]}.

(** The organizations of a user who belongs to [acme] only. *)
Definition only_acme : pyval := PList [PDict {[ "organization_name" := PStr "acme" ]}].

(** A session in which the requested name is taken, and the user then
    presses Enter at the prompt for a different name. *)
Definition name_taken_then_enter : world :=
  initial_world ∅ [Enter]
    [reply 200 only_acme; reply 409 PNone; reply 201 created_project]
    (Some "user-token").

(** ** The configuration object *)

(** [send_to_logfire]: [True], [False] or ['if-token-present']. *)
Inductive send_option : Type :=
| SendTrue
| SendFalse
| SendIfTokenPresent.

#[global] Instance send_option_eq_dec : EqDecision send_option.
Proof. solve_decision. Defined.

(** The dataclass [_LogfireConfigData], restricted to the attributes
    [_initialize] reads; [cfg_scrubber] is [self.scrubber].  [cfg_console]
    and [cfg_scrubbing] are [None] where the source has [False];
    [cfg_service_version] is [PNone] or a string. *)
Record _LogfireConfigData : Type := {
  cfg_base_url : pyval;
  cfg_send_to_logfire : send_option;
  cfg_token : pyval;
  cfg_project_name : pyval;
  cfg_service_name : pyval;
  cfg_service_version : pyval;
  cfg_trace_sample_rate : spec_float;
  cfg_console : option ConsoleOptions;
  cfg_show_summary : bool;
  cfg_data_dir : string;
  cfg_id_generator : IdGenerator;
  cfg_additional_span_processors : option (list SpanProcessor);
  cfg_additional_metric_readers : option (list MetricReader);
  cfg_scrubbing : option ScrubbingOptions;
  cfg_scrubber : BaseScrubber;
  cfg_tail_sampling : option TailSamplingOptions;
}.

(** [LogfireConfig]: the data, the providers behind the two proxies ([None]
    for the no-op providers), the two flags, and whether the object is
    [GLOBAL_CONFIG]. *)
Record LogfireConfig : Type := {
  cfg : _LogfireConfigData;
  _tracer_provider : option SDKTracerProvider;
  _meter_provider : option MeterProvider;
  _has_set_providers : bool;
  _initialized : bool;
  is_GLOBAL_CONFIG : bool;
}.

Definition set_cfg (d : _LogfireConfigData) (self : LogfireConfig) : LogfireConfig :=
  {| cfg := d; _tracer_provider := _tracer_provider self;
     _meter_provider := _meter_provider self;
     _has_set_providers := _has_set_providers self;
     _initialized := _initialized self; is_GLOBAL_CONFIG := is_GLOBAL_CONFIG self |}.

Definition set_tracer_provider (t : option SDKTracerProvider) (self : LogfireConfig)
    : LogfireConfig :=
  {| cfg := cfg self; _tracer_provider := t; _meter_provider := _meter_provider self;
     _has_set_providers := _has_set_providers self;
     _initialized := _initialized self; is_GLOBAL_CONFIG := is_GLOBAL_CONFIG self |}.

Definition set_meter_provider (m : option MeterProvider) (self : LogfireConfig)
    : LogfireConfig :=
  {| cfg := cfg self; _tracer_provider := _tracer_provider self; _meter_provider := m;
     _has_set_providers := _has_set_providers self;
     _initialized := _initialized self; is_GLOBAL_CONFIG := is_GLOBAL_CONFIG self |}.

Definition set_has_set_providers (b : bool) (self : LogfireConfig) : LogfireConfig :=
  {| cfg := cfg self; _tracer_provider := _tracer_provider self;
     _meter_provider := _meter_provider self; _has_set_providers := b;
     _initialized := _initialized self; is_GLOBAL_CONFIG := is_GLOBAL_CONFIG self |}.

Definition set_initialized (b : bool) (self : LogfireConfig) : LogfireConfig :=
  {| cfg := cfg self; _tracer_provider := _tracer_provider self;
     _meter_provider := _meter_provider self;
     _has_set_providers := _has_set_providers self;
     _initialized := b; is_GLOBAL_CONFIG := is_GLOBAL_CONFIG self |}.

(** [self.token = token; self.base_url = base_url] *)
Definition set_token_and_base_url (token base_url : pyval) (d : _LogfireConfigData)
    : _LogfireConfigData :=
  {| cfg_base_url := base_url; cfg_send_to_logfire := cfg_send_to_logfire d;
     cfg_token := token; cfg_project_name := cfg_project_name d;
     cfg_service_name := cfg_service_name d;
     cfg_service_version := cfg_service_version d;
     cfg_trace_sample_rate := cfg_trace_sample_rate d; cfg_console := cfg_console d;
     cfg_show_summary := cfg_show_summary d; cfg_data_dir := cfg_data_dir d;
     cfg_id_generator := cfg_id_generator d;
     cfg_additional_span_processors := cfg_additional_span_processors d;
     cfg_additional_metric_readers := cfg_additional_metric_readers d;
     cfg_scrubbing := cfg_scrubbing d; cfg_scrubber := cfg_scrubber d;
     cfg_tail_sampling := cfg_tail_sampling d |}.

(** What the methods of [LogfireConfig] own: the configuration object and
    how many times OpenTelemetry's [trace.set_tracer_provider] and
    [metrics.set_meter_provider] have been called. *)
Record core : Type := {
  self_config : LogfireConfig;
  tracer_provider_registrations : nat;
  meter_provider_registrations : nat;
}.

(** The process: what the methods own, and the world outside. *)
Record process : Type := {
  inside : core;
  outside : world;
}.

(** Computations of the methods of [LogfireConfig]. *)
Definition CM (A : Type) : Type := process -> result A * process.

#[global] Instance CM_ret : MRet CM := fun A (a : A) p => (Ok a, p).

#[global] Instance CM_bind : MBind CM := fun A B (f : A -> CM B) (m : CM A) p =>
  match m p with
  | (Ok a, p') => f a p'
  | (Raise e, p') => (Raise e, p')
  end.

(** A computation on the world, run by a method. *)
Definition in_world {A : Type} (m : M A) : CM A := fun p =>
  let (r, w) := m (outside p) in
  (r, {| inside := inside p; outside := w |}).

(** [self] *)
Definition get_self : CM LogfireConfig := fun p => (Ok (self_config (inside p)), p).

(** A change to what the methods own. *)
Definition modify_core (f : core -> core) : CM unit := fun p =>
  (Ok tt, {| inside := f (inside p); outside := outside p |}).

Definition on_self (f : LogfireConfig -> LogfireConfig) (c : core) : core :=
  {| self_config := f (self_config c);
     tracer_provider_registrations := tracer_provider_registrations c;
     meter_provider_registrations := meter_provider_registrations c |}.

(** An assignment to attributes of [self]. *)
Definition modify_self (f : LogfireConfig -> LogfireConfig) : CM unit :=
  modify_core (on_self f).

Definition count_tracer_provider_registration (c : core) : core :=
  {| self_config := self_config c;
     tracer_provider_registrations := S (tracer_provider_registrations c);
     meter_provider_registrations := meter_provider_registrations c |}.

Definition count_meter_provider_registration (c : core) : core :=
  {| self_config := self_config c;
     tracer_provider_registrations := tracer_provider_registrations c;
     meter_provider_registrations := S (meter_provider_registrations c) |}.

(** [trace.set_tracer_provider(self._tracer_provider)] *)
Definition trace_set_tracer_provider : CM unit :=
  modify_core count_tracer_provider_registration;;
  in_world (emit ESetTracerProvider).

(** [metrics.set_meter_provider(self._meter_provider)] *)
Definition metrics_set_meter_provider : CM unit :=
  modify_core count_meter_provider_registration;;
  in_world (emit ESetMeterProvider).

(** ** Building the providers *)

(** The floats [1.0] and [0.0]. *)
Definition float_1 : spec_float := S754_finite false 4503599627370496 (-52).
Definition float_0 : spec_float := S754_zero false.

(** [os.getenv(name)] *)
Definition os_getenv (name : string) : M (option string) := fun w =>
  (Ok (environ w !! name), w).

(** [int(value)] on a decimal numeral with an optional minus sign.  Python
    also accepts a plus sign, surrounding blanks and underscores between
    digits; nothing below depends on them. *)
Definition py_int (value : string) : result Z :=
  match NilZero.int_of_string value with
  | Some n => Ok (Z.of_int n)
  | None => Raise ValueError
  end.

(** [_get_int_from_env] *)
Definition _get_int_from_env (env_var : string) : M (option Z) :=
  value ← os_getenv env_var;
  match value with
  | None => mret None
  | Some v => if str_truthy v then Some <$> lift (py_int v) else mret None
  end.

(** Modelled from the spec: [DEFAULT_FALLBACK_FILE_NAME] is a constant of
    [constants.py], which is not part of the sources at hand; the
    specification calls it the fallback file name of the data directory. *)
Definition DEFAULT_FALLBACK_FILE_NAME : string := "logfire_spans.bin".

(** [getattr(span_processor, 'span_exporter', None)] *)
Definition getattr_span_exporter (span_processor : SpanProcessor) : option SpanExporter :=
  match span_processor with
  | UserProcessor _ e => e
  | SimpleSpanProcessor e => Some e
  | BatchSpanProcessor e _ => Some e
  | _ => None
  end.

(** [isinstance(e, (TestExporter, RemovePendingSpansExporter,
    SimpleConsoleSpanExporter))]; the indented and the show-parents console
    exporters are subclasses of the simple one. *)
Definition isinstance_pending (e : option SpanExporter) : bool :=
  match e with
  | Some TestExporter | Some (RemovePendingSpansExporter _)
  | Some (ConsoleSpanExporter _ _) => true
  | _ => false
  end.

(** [tracer_provider.add_span_processor(span_processor)]: the tracer
    provider is the one [self._tracer_provider] was given. *)
Definition tracer_provider_add_span_processor (span_processor : SpanProcessor) : CM unit :=
  modify_self (fun self =>
    set_tracer_provider
      ((fun t => {| sampler := sampler t; provider_id_generator := provider_id_generator t;
                    span_processors := span_processors t ++ [span_processor] |})
         <$> _tracer_provider self) self);;
  in_world (emit (EAddSpanProcessor span_processor)).

(** What the local function [add_span_processor] of [_initialize] turns
    [span_processor] into before it registers it. *)
Definition wrap_span_processor (d : _LogfireConfigData) (span_processor : SpanProcessor)
    : SpanProcessor :=
  let span_processor :=
    match cfg_tail_sampling d with
    | Some options =>
        TailSamplingProcessor span_processor options
          (* If self.trace_sample_rate < 1 then that ratio of spans should be
             included randomly by this. Otherwise we're not using any random
             sampling, so 0% of spans should be included 'randomly'. *)
          (if SFltb (cfg_trace_sample_rate d) float_1
           then cfg_trace_sample_rate d else float_0)
    | None => span_processor
    end in
  MainSpanProcessorWrapper span_processor (cfg_scrubber d).

(** The local function [add_span_processor] of [_initialize]; the list is
    [processors_with_pending_spans], returned as it is afterwards. *)
Definition add_span_processor (span_processor : SpanProcessor)
    (processors_with_pending_spans : list SpanProcessor) : CM (list SpanProcessor) :=
  self ← get_self;
  let has_pending := isinstance_pending (getattr_span_exporter span_processor) in
  let span_processor := wrap_span_processor (cfg self) span_processor in
  tracer_provider_add_span_processor span_processor;;
  mret (if has_pending
        then processors_with_pending_spans ++ [span_processor]
        else processors_with_pending_spans).

(** [for processor in processors: add_span_processor(processor)] *)
Fixpoint add_span_processors (processors : list SpanProcessor)
    (processors_with_pending_spans : list SpanProcessor) : CM (list SpanProcessor) :=
  match processors with
  | [] => mret processors_with_pending_spans
  | processor :: rest =>
      pending ← add_span_processor processor processors_with_pending_spans;
      add_span_processors rest pending
  end.

(** [credentials.print_token_summary()] *)
Definition print_token_summary (credentials : LogfireCredentials) : M unit :=
  if py_truthy (project_url credentials)
  then emit (EPrintSummary (project_url credentials))
  else mret tt.

(** The span exporter that sends to Logfire. *)
Definition logfire_span_exporter (d : _LogfireConfigData) : SpanExporter :=
  RemovePendingSpansExporter
    (FallbackSpanExporter
       (RetryFewerSpansSpanExporter
          (OTLPSpanExporter (Some (urljoin (cfg_base_url d) "/v1/traces" []))
             (Some (cfg_token d))))
       (FileSpanExporter (path_join (cfg_data_dir d) DEFAULT_FALLBACK_FILE_NAME) true)).

(** [self.console.span_style] to the exporter class; the last case is the
    [assert] of the source. *)
Definition console_exporter_cls (options : ConsoleOptions) : result ConsoleExporterClass :=
  if bool_decide (span_style options = "simple") then Ok SimpleConsoleSpanExporter
  else if bool_decide (span_style options = "indented") then Ok IndentedConsoleSpanExporter
  else if bool_decide (span_style options = "show-parents") then Ok ShowParentsConsoleSpanExporter
  else Raise AssertionError.

(** The statements of [_initialize] under [if self.token is None]: load the
    stored credentials or create them, and take the token from them. *)
Definition use_stored_or_new_credentials : CM unit :=
  self ← get_self;
  credentials ← in_world (load_creds_file (cfg_data_dir (cfg self)));
  credentials ←
    match credentials with
    | None =>
        credentials ← in_world (initialize_project (cfg_base_url (cfg self))
                                  (cfg_project_name (cfg self)));
        in_world (write_creds_file credentials (cfg_data_dir (cfg self)));;
        mret credentials
    | Some credentials => mret credentials
    end;
  modify_self (fun self =>
    set_cfg (set_token_and_base_url (token credentials)
               (py_or (cfg_base_url (cfg self)) (logfire_api_url credentials))
               (cfg self)) self);;
  if cfg_show_summary (cfg self)
  then in_world (print_token_summary credentials)
  else mret tt.

(** The statements of [_initialize] that set up the export to Logfire once
    the token is known: the batch span processor over the OTLP exporter (with
    its retry, fallback-file and pending-span wrappers) and the metric
    reader. *)
Definition export_to_logfire (pending : list SpanProcessor)
    (metric_readers : list MetricReader) : CM (list SpanProcessor * list MetricReader) :=
  self ← get_self;
  let d := cfg self in
  schedule_delay_millis ← in_world (_get_int_from_env "OTEL_BSP_SCHEDULE_DELAY");
  let schedule_delay_millis :=
    match schedule_delay_millis with
    | Some n => if (n =? 0)%Z then 500%Z else n
    | None => 500%Z
    end in
  pending ← add_span_processor
              (BatchSpanProcessor (logfire_span_exporter d) (Some schedule_delay_millis))
              pending;
  mret (pending,
        metric_readers ++
          [PeriodicExportingMetricReader
             (QuietMetricExporter
                (OTLPMetricExporter
                   (Some (urljoin (cfg_base_url d) "/v1/metrics" []))
                   (Some (cfg_token d))))]).

(** ** Resource attributes from the environment

    The statements of [_initialize] that collect the attributes of the
    OpenTelemetry resource.  The keys are the constants
    [ResourceAttributes.SERVICE_NAME], [PROCESS_PID] and [SERVICE_VERSION] of
    the OpenTelemetry semantic conventions. *)

(** [s.split(sep)] for a separator of one character; [field] is the field
    read so far. *)
Fixpoint split_from (sep : ascii) (field : string) (s : string) : list string :=
  match s with
  | EmptyString => [field]
  | String c s' =>
      if bool_decide (c = sep) then field :: split_from sep EmptyString s'
      else split_from sep (field +:+ String c EmptyString) s'
  end.

Definition str_split (sep : ascii) (s : string) : list string :=
  split_from sep EmptyString s.

(** [s.split(sep, maxsplit=1)] when [sep] occurs in [s]: what is before its
    first occurrence, and what is after. *)
Fixpoint str_split_first (sep : ascii) (s : string) : option (string * string) :=
  match s with
  | EmptyString => None
  | String c s' =>
      if bool_decide (c = sep) then Some (EmptyString, s')
      else (fun kv => (String c kv.1, kv.2)) <$> str_split_first sep s'
  end.

(** The string of the bytes [codes]. *)
Definition bytes (codes : list nat) : string :=
  String.string_of_list_ascii (ascii_of_nat <$> codes).

(** The characters [str.strip()] removes, each as its UTF-8 bytes: the
    ASCII blanks and separators, U+0085, U+00A0, U+1680, U+2000 to U+200A,
    U+2028, U+2029, U+202F, U+205F and U+3000. *)
Definition WHITESPACE : list string :=
  bytes <$> [ [9]; [10]; [11]; [12]; [13]; [28]; [29]; [30]; [31]; [32];
              [194; 133]; [194; 160]; [225; 154; 128];
              [226; 128; 128]; [226; 128; 129]; [226; 128; 130]; [226; 128; 131];
              [226; 128; 132]; [226; 128; 133]; [226; 128; 134]; [226; 128; 135];
              [226; 128; 136]; [226; 128; 137]; [226; 128; 138];
              [226; 128; 168]; [226; 128; 169]; [226; 128; 175];
              [226; 129; 159]; [227; 128; 128] ]%nat.

(** [s] without the prefix [p], when it starts with it. *)
Fixpoint drop_prefix (p s : string) : option string :=
  match p, s with
  | EmptyString, _ => Some s
  | String a p', String b s' => if bool_decide (a = b) then drop_prefix p' s' else None
  | String _ _, EmptyString => None
  end.

(** [s] without its first character when [marks] holds that character. *)
Definition drop_one_of (marks : list string) (s : string) : option string :=
  foldr (fun p found => match drop_prefix p s with
                        | Some r => Some r
                        | None => found
                        end) None marks.

Fixpoint drop_leading (marks : list string) (fuel : nat) (s : string) : string :=
  match fuel with
  | O => s
  | S fuel' =>
      match drop_one_of marks s with
      | Some r => drop_leading marks fuel' r
      | None => s
      end
  end.

Definition str_rev (s : string) : string :=
  String.string_of_list_ascii (rev (String.list_ascii_of_string s)).

(** [s.lstrip()], [s.rstrip()] and [s.strip()] *)
Definition str_lstrip (s : string) : string := drop_leading WHITESPACE (String.length s) s.

Definition str_rstrip (s : string) : string :=
  str_rev (drop_leading (str_rev <$> WHITESPACE) (String.length s) (str_rev s)).

Definition str_strip (s : string) : string := str_rstrip (str_lstrip s).

(** [for _field in fields: key, value = _field.split('=', maxsplit=1);
    otel_resource_attributes[key.strip()] = value.strip()]; unpacking a
    field that has no [=] raises [ValueError]. *)
Fixpoint add_resource_attributes (fields : list string) (attrs : gmap string pyval)
    : result (gmap string pyval) :=
  match fields with
  | [] => Ok attrs
  | _field :: rest =>
      match str_split_first "=" _field with
      | Some (key, value) =>
          add_resource_attributes rest (<[str_strip key := PStr (str_strip value)]> attrs)
      | None => Raise ValueError
      end
  end.

(** The dictionary [otel_resource_attributes] that [_initialize] passes to
    [Resource.create]; [service_name] and [service_version] are the settings
    of these names, [pid] is [os.getpid()]. *)
Definition otel_resource_attributes (service_name service_version : pyval) (pid : Z)
    : M (gmap string pyval) :=
  let attrs := {[ "service.name" := service_name; "process.pid" := PInt pid ]} in
  let attrs :=
    if py_truthy service_version
    then <["service.version" := service_version]> attrs
    else attrs in
  otel_resource_attributes_from_env ← os_getenv "OTEL_RESOURCE_ATTRIBUTES";
  match otel_resource_attributes_from_env with
  | Some text =>
      if str_truthy text
      then lift (add_resource_attributes (str_split "," text) attrs)
      else mret attrs
  | None => mret attrs
  end.

(** [os.getpid()] *)
Definition os_getpid : M Z := fun w => (Ok (pid w), w).

(** Modelled from the spec: [ProxyMeterProvider.shutdown] lives in
    [metrics.py], which is not part of the sources at hand.  The
    specification bounds a shutdown by an explicit timeout; the comment at
    the call in [_initialize] says that it may raise an exception if it
    times out, which is what the model follows.  Whether this shutdown times
    out is the next entry of [meter_shutdown_timeouts]; none left means that
    it does not. *)
Definition meter_provider_shutdown (timeout_millis : Z) : M unit := fun w =>
  let w' :=
    {| files := files w; environ := environ w; cwd := cwd w; answers := answers w;
       responses := responses w; user_token := user_token w;
       events := events w ++ [EShutdownMeterProvider];
       pid := pid w; meter_shutdown_timeouts := tail (meter_shutdown_timeouts w) |} in
  match meter_shutdown_timeouts w with
  | true :: _ => (Raise (Exception "Timed out while shutting down the meter provider"), w')
  | _ => (Ok tt, w')
  end.

(** [LogfireConfig._initialize].  The attributes of the resource are
    collected as the source collects them, which raises on a malformed
    [OTEL_RESOURCE_ATTRIBUTES] before anything else is done; the resource
    object that OpenTelemetry builds from them (with a random service
    instance id merged in) is not carried by the providers of the model.
    The [atexit] hook and the two instrumentation calls that end the method
    are left out; the thread that checks a given token runs [from_token] on
    its own and appears as the event of its start. *)
Definition _initialize : CM unit :=
  self ← get_self;
  if _initialized self then mret tt else
  let d := cfg self in
  process_pid ← in_world os_getpid;
  _ ← in_world (otel_resource_attributes (cfg_service_name d) (cfg_service_version d)
                  process_pid);
  (* Avoid using the usual sampler if we're using tail-based sampling. *)
  let sampler :=
    if SFltb (cfg_trace_sample_rate d) float_1 && bool_decide (cfg_tail_sampling d = None)
    then Some (ParentBasedTraceIdRatio (cfg_trace_sample_rate d))
    else None in
  let tracer_provider :=
    {| sampler := sampler; provider_id_generator := cfg_id_generator d;
       span_processors := [] |} in
  in_world (emit EShutdownTracerProvider);;
  modify_self (set_tracer_provider (Some tracer_provider));;
  pending ← add_span_processors (default [] (cfg_additional_span_processors d)) [];
  pending ←
    match cfg_console d with
    | Some options =>
        exporter_cls ← in_world (lift (console_exporter_cls options));
        add_span_processor
          (SimpleSpanProcessor (ConsoleSpanExporter exporter_cls options)) pending
    | None => mret pending
    end;
  let metric_readers := default [] (cfg_additional_metric_readers d) in
  '(pending, metric_readers) ←
    (if (bool_decide (cfg_send_to_logfire d = SendIfTokenPresent) && negb (is_None (cfg_token d)))
        || bool_decide (cfg_send_to_logfire d = SendTrue)
     then
       (if is_None (cfg_token d)
        then use_stored_or_new_credentials
        else in_world (emit (EThreadStart "check_logfire_token")));;
       export_to_logfire pending metric_readers
     else mret (pending, metric_readers)
     : CM (list SpanProcessor * list MetricReader));
  (match pending with
   | [] => mret tt
   | _ => tracer_provider_add_span_processor
            (PendingSpanProcessor (cfg_id_generator d) pending)
   end);;
  otlp_endpoint ← in_world (os_getenv "OTEL_EXPORTER_OTLP_ENDPOINT");
  otlp_traces_endpoint ← in_world (os_getenv "OTEL_EXPORTER_OTLP_TRACES_ENDPOINT");
  otlp_metrics_endpoint ← in_world (os_getenv "OTEL_EXPORTER_OTLP_METRICS_ENDPOINT");
  otlp_traces_exporter ← in_world (os_getenv "OTEL_TRACES_EXPORTER");
  otlp_metrics_exporter ← in_world (os_getenv "OTEL_METRICS_EXPORTER");
  let set_and_true (v : option string) := str_truthy (default EmptyString v) in
  let otlp_or_empty (v : option string) :=
    let v := str_lower (default EmptyString v) in
    bool_decide (v = "otlp") || negb (str_truthy v) in
  (if (set_and_true otlp_endpoint || set_and_true otlp_traces_endpoint)
      && otlp_or_empty otlp_traces_exporter
   then add_span_processor (BatchSpanProcessor (OTLPSpanExporter None None) None) pending
   else mret pending);;
  let metric_readers :=
    if (set_and_true otlp_endpoint || set_and_true otlp_metrics_endpoint)
       && otlp_or_empty otlp_metrics_exporter
    then metric_readers ++ [PeriodicExportingMetricReader (OTLPMetricExporter None None)]
    else metric_readers in
  let meter_provider := {| metric_readers := metric_readers |} in
  (* we need to shut down any existing providers to avoid leaking resources *)
  in_world (meter_provider_shutdown 200);;
  modify_self (set_meter_provider (Some meter_provider));;
  self ← get_self;
  (if is_GLOBAL_CONFIG self && negb (_has_set_providers self) then
     modify_self (set_has_set_providers true);;
     trace_set_tracer_provider;;
     metrics_set_meter_provider
   else mret tt);;
  modify_self (set_initialized true).

(** [LogfireConfig.initialize] *)
Definition initialize : CM unit := _initialize.

(** [LogfireConfig.configure], on the settings [_load_configuration]
    resolves from its arguments, the environment and the configuration
    files. *)
Definition configure (resolved : _LogfireConfigData) : CM unit :=
  modify_self (set_initialized false);;
  modify_self (set_cfg resolved);;
  initialize.

(** [LogfireConfig.__init__]: no provider yet, nothing registered. *)
Definition LogfireConfig_init (resolved : _LogfireConfigData) (is_global : bool)
    : LogfireConfig :=
  {| cfg := resolved; _tracer_provider := None; _meter_provider := None;
     _has_set_providers := false; _initialized := false;
     is_GLOBAL_CONFIG := is_global |}.

(** The process right after the module is imported: [GLOBAL_CONFIG =
    LogfireConfig()], nothing registered with OpenTelemetry. *)
Definition fresh_process (resolved : _LogfireConfigData) (w : world) : process :=
  {| inside := {| self_config := LogfireConfig_init resolved true;
                  tracer_provider_registrations := 0;
                  meter_provider_registrations := 0 |};
     outside := w |}.

(** A sequence of [configure] calls, each on its resolved settings; a call
    that raises leaves the process as it is at that point, and the next call
    goes on from there.  The results are returned in order. *)
Fixpoint configure_all (calls : list _LogfireConfigData) (p : process)
    : list (result unit) * process :=
  match calls with
  | [] => ([], p)
  | resolved :: rest =>
      let (r, p1) := configure resolved p in
      let (rs, p2) := configure_all rest p1 in
      (r :: rs, p2)
  end.

(** A Hoare triple on what the methods own: from a state that satisfies
    [P], [m] returns in a state that satisfies [Q], or raises in a state
    that satisfies [E]. *)
Definition hoare {A : Type} (P : core -> Prop) (m : CM A) (Q : A -> core -> Prop)
    (E : core -> Prop) : Prop :=
  forall p, P (inside p) ->
    match m p with
    | (Ok a, p') => Q a (inside p')
    | (Raise _, p') => E (inside p')
    end.

(** [m] keeps [P], whether it returns or raises. *)
Definition frames {A : Type} (P : core -> Prop) (m : CM A) : Prop :=
  hoare P m (fun _ => P) P.

(** The registration state of the global configuration: whether the flag is
    set, and the two counters. *)
Definition registration_is (flag : bool) (tracer meter : nat) (c : core) : Prop :=
  _has_set_providers (self_config c) = flag /\
  is_GLOBAL_CONFIG (self_config c) = true /\
  tracer_provider_registrations c = tracer /\
  meter_provider_registrations c = meter.

Definition is_Ok {A : Type} (r : result A) : bool :=
  match r with
  | Ok _ => true
  | Raise _ => false
  end.

(** ** The shape of the processor chain *)

(** The sampler [_initialize] gives the tracer provider. *)
Definition expected_sampler (d : _LogfireConfigData) : option Sampler :=
  if SFltb (cfg_trace_sample_rate d) float_1 && bool_decide (cfg_tail_sampling d = None)
  then Some (ParentBasedTraceIdRatio (cfg_trace_sample_rate d))
  else None.

(** [q] is some processor as the local [add_span_processor] wraps it. *)
Definition wrapped_by (d : _LogfireConfigData) (q : SpanProcessor) : Prop :=
  exists span_processor, q = wrap_span_processor d span_processor.

(** What the tracer provider holds: processors registered through the local
    [add_span_processor], and the [PendingSpanProcessor] over some of
    them. *)
Definition registered_shape (d : _LogfireConfigData) (q : SpanProcessor) : Prop :=
  wrapped_by d q \/
  exists g others, q = PendingSpanProcessor g others /\ Forall (wrapped_by d) others.

(** The settings [d'] wrap processors as [d] does. *)
Definition same_wrapping (d d' : _LogfireConfigData) : Prop :=
  cfg_tail_sampling d' = cfg_tail_sampling d /\
  cfg_trace_sample_rate d' = cfg_trace_sample_rate d /\
  cfg_scrubber d' = cfg_scrubber d.

(** The tracer provider behind the proxy was built for the settings [d] and
    holds processors of the registered shape only. *)
Definition provider_ok (d : _LogfireConfigData) (c : core) : Prop :=
  same_wrapping d (cfg (self_config c)) /\
  exists t, _tracer_provider (self_config c) = Some t /\
            sampler t = expected_sampler d /\
            Forall (registered_shape d) (span_processors t).

(** Modelled from the spec: the [on_end] (and, for the pending-span
    processor, [on_start]) methods of the processors live in
    [exporters/processor_wrapper.py], [exporters/tail_sampling.py] and
    [tracer.py], which are not part of the sources at hand.  Following the
    specification (scrub, then tail-sample, then batch and export; the
    pending-span tracker forwards its placeholder to the downstream chain):
    the main wrapper scrubs the span and hands it to the processor it wraps,
    a tail-sampling processor looks at the span it is handed and passes it
    on, and the pending-span processor hands its span to each of its
    processors.  [sampled_spans q span] lists the spans the tail-sampling
    processors in [q] look at when [span] reaches [q]. *)
Fixpoint sampled_spans {Span : Type} (scrub_span : BaseScrubber -> Span -> Span)
    (q : SpanProcessor) (span : Span) : list Span :=
  match q with
  | MainSpanProcessorWrapper processor scrubber =>
      sampled_spans scrub_span processor (scrub_span scrubber span)
  | TailSamplingProcessor processor _ _ =>
      span :: sampled_spans scrub_span processor span
  | PendingSpanProcessor _ others =>
      (fix each (l : list SpanProcessor) : list Span :=
         match l with
         | [] => []
         | o :: l' => sampled_spans scrub_span o span ++ each l'
         end) others
  | _ => []
  end.

(** [span] went through the scrubber [scrubber] (and possibly through
    further scrubbers after it). *)
Inductive scrubbed_by {Span : Type} (scrub_span : BaseScrubber -> Span -> Span)
    (scrubber : BaseScrubber) : Span -> Prop :=
| scrubbed_here span : scrubbed_by scrub_span scrubber (scrub_span scrubber span)
| scrubbed_again other span :
    scrubbed_by scrub_span scrubber span ->
    scrubbed_by scrub_span scrubber (scrub_span other span).

(** The random rate the local [add_span_processor] passes to the
    tail-sampling processor. *)
Definition tail_random_rate (d : _LogfireConfigData) : spec_float :=
  if SFltb (cfg_trace_sample_rate d) float_1 then cfg_trace_sample_rate d else float_0.

(** [q] is a processor under the scrubbing wrapper and, inside it, the
    tail-sampling processor with these options and this random rate. *)
Definition scrub_then_tail_sample (scrubber : BaseScrubber) (options : TailSamplingOptions)
    (random_rate : spec_float) (q : SpanProcessor) : Prop :=
  exists span_processor,
    q = MainSpanProcessorWrapper
          (TailSamplingProcessor span_processor options random_rate) scrubber.

(** [q] is a processor directly under the scrubbing wrapper. *)
Definition scrub_only (scrubber : BaseScrubber) (q : SpanProcessor) : Prop :=
  exists span_processor, q = MainSpanProcessorWrapper span_processor scrubber.

(** [q] satisfies [shape], or is the pending-span processor over processors
    that do. *)
Definition or_pending_over (shape : SpanProcessor -> Prop) (q : SpanProcessor) : Prop :=
  shape q \/ exists g others, q = PendingSpanProcessor g others /\ Forall shape others.

(** The tracer provider behind the proxy after [configure resolved] ran from
    the process [p] (whether it returned or raised). *)
Definition tracer_provider_after (resolved : _LogfireConfigData) (p : process)
    : option SDKTracerProvider :=
  _tracer_provider (self_config (inside (configure resolved p).2)).

(** [configure resolved], run from [p], has put a tracer provider behind the
    proxy: it returned, or it raised with the provider no longer the one
    that was there before. *)
Definition installs_tracer_provider (resolved : _LogfireConfigData) (p : process) : Prop :=
  (configure resolved p).1 = Ok tt \/
  tracer_provider_after resolved p <> _tracer_provider (self_config (inside p)).

(** Modelled from the spec: the decision of [TailSamplingProcessor] lives in
    [exporters/tail_sampling.py], which is not part of the sources at hand.
    Following the specification: when the root span of a trace ends, the
    decision combines the predicate of the options, which inspects the
    finished root span, with a fallback random sample rate for the traces
    that hit no tail-sampling rule; the predicate is applied first, the
    ratio-based inclusion is the fallback, and the two are not merged into a
    single probability.  [hits options root] is the predicate on the root
    span; [draw] is the number drawn for the trace, which the ratio includes
    when it is below the rate.  The result tells whether the trace is
    kept. *)
Definition tail_sampling_keeps {Span : Type} (hits : TailSamplingOptions -> Span -> bool)
    (options : TailSamplingOptions) (random_rate draw : spec_float) (root : Span) : bool :=
  if hits options root then true else SFltb draw random_rate.

(** The decision taken on a root span that ends and reaches the processor
    [q], by the first tail-sampling processor on its way, if there is one:
    as in [sampled_spans], the main wrapper scrubs the span and hands it to
    the processor it wraps. *)
Fixpoint tail_sampling_decision {Span : Type} (scrub_span : BaseScrubber -> Span -> Span)
    (hits : TailSamplingOptions -> Span -> bool) (draw : spec_float)
    (q : SpanProcessor) (root : Span) : option bool :=
  match q with
  | MainSpanProcessorWrapper processor scrubber =>
      tail_sampling_decision scrub_span hits draw processor (scrub_span scrubber root)
  | TailSamplingProcessor _ options random_rate =>
      Some (tail_sampling_keeps hits options random_rate draw root)
  | _ => None
  end.

(** ** Stored credentials across [configure] calls *)

(** Events that neither ask the user, nor talk to the server, nor start the
    token check, nor write a file. *)
Definition quiet_event (e : event) : bool :=
  match e with
  | EPrompt _ _ _ | EConfirm _ _ | ERequest _ _ _ _ | EThreadStart _ | EWriteFile _ => false
  | _ => true
  end.

(** [w'] is [w] after some quiet events: same files, same lines left to
    read, same replies left to receive. *)
Definition undisturbed (w w' : world) : Prop :=
  files w' = files w /\ environ w' = environ w /\ cwd w' = cwd w /\
  answers w' = answers w /\ responses w' = responses w /\
  user_token w' = user_token w /\
  exists new, events w' = events w ++ new /\ Forall (fun e => quiet_event e = true) new.

(** [m] only reads the world and logs quiet events. *)
Definition calm {A : Type} (m : M A) : Prop := forall w, undisturbed w (m w).2.

(** A Hoare triple on the whole process. *)
Definition phoare {A : Type} (P : process -> Prop) (m : CM A)
    (Q : A -> process -> Prop) (E : process -> Prop) : Prop :=
  forall p, P p ->
    match m p with
    | (Ok a, p') => Q a p'
    | (Raise _, p') => E p'
    end.

(** [m] keeps [P], whether it returns or raises. *)
Definition pframes {A : Type} (P : process -> Prop) (m : CM A) : Prop :=
  phoare P m (fun _ => P) P.

Definition with_outside (w : world) (p : process) : process :=
  {| inside := inside p; outside := w |}.

Definition with_inside (c : core) (p : process) : process :=
  {| inside := c; outside := outside p |}.

(** [P] does not depend on quiet events, on the providers, the flags or the
    registration counters: it survives a calm step of the world and any
    change inside that leaves the settings alone. *)
Definition steady (P : process -> Prop) : Prop :=
  (forall p w', P p -> undisturbed (outside p) w' -> P (with_outside w' p)) /\
  (forall p c', P p -> cfg (self_config c') = cfg (self_config (inside p)) ->
                P (with_inside c' p)).

(** The span processor that exports to Logfire with the token [tok], as
    [_initialize] registers it. *)
Definition logfire_processor_with (tok : pyval) (q : SpanProcessor) : Prop :=
  exists d delay,
    cfg_token d = tok /\
    q = wrap_span_processor d (BatchSpanProcessor (logfire_span_exporter d) (Some delay)).

(** Among the events there is the registration of the processor that exports
    to Logfire with the token [tok]. *)
Definition logfire_export_set_up (tok : pyval) (es : list event) : Prop :=
  exists q, logfire_processor_with tok q /\ In (EAddSpanProcessor q) es.

(** A project was bootstrapped since [w0]: [initialize_project] ran in a
    world [w1] that differed from [w0] by quiet events only and returned
    credentials [c] in the world [w2]; they were written to the credentials
    file of [dir] right away, and the file still holds them; the token in
    use is theirs; the events [es] since the write satisfy [after]. *)
Definition bootstrapped (w0 : world) (base project : pyval) (dir : string)
    (after : pyval -> list event -> Prop) (p : process) : Prop :=
  exists c w1 w2 es,
    undisturbed w0 w1 /\
    initialize_project base project w1 = (Ok c, w2) /\
    files (outside p) !! _get_creds_file dir = Some (JSONText (PDict (asdict c))) /\
    events (outside p) = events w2 ++ EWriteFile (_get_creds_file dir) :: es /\
    cfg_token (cfg (self_config (inside p))) = token c /\
    after (token c) es.

(** The state in which [_initialize] looks for credentials: the settings are
    [resolved], and the world is [w0] but for quiet events. *)
Definition before_credentials (w0 : world) (resolved : _LogfireConfigData)
    (p : process) : Prop :=
  undisturbed w0 (outside p) /\ cfg (self_config (inside p)) = resolved.

(** The token of the stored credentials [c] is in use, and the world is [w0]
    but for quiet events. *)
Definition token_reused (w0 : world) (c : LogfireCredentials) (p : process) : Prop :=
  undisturbed w0 (outside p) /\ cfg_token (cfg (self_config (inside p))) = token c.

(** Settings that send to Logfire, with no token given. *)
Definition wants_stored_token (dir : string) (resolved : _LogfireConfigData) : Prop :=
  cfg_send_to_logfire resolved = SendTrue /\ cfg_token resolved = PNone /\
  cfg_data_dir resolved = dir.

(** The float [0.5]. *)
Definition float_half : spec_float := S754_finite false 4503599627370496 (-53).

(** [logfire.configure()] with half of the traces sampled, tail sampling
    and the default console, on the data directory [.logfire]. *)
Definition sample_settings : _LogfireConfigData :=
  {| cfg_base_url := PStr "https://logfire-api.pydantic.dev";
     cfg_send_to_logfire := SendTrue; cfg_token := PNone; cfg_project_name := PNone;
     cfg_service_name := PStr "my-service"; cfg_service_version := PNone;
     cfg_trace_sample_rate := float_half;
     cfg_console := Some {| colors := "auto"; span_style := "show-parents";
                            include_timestamps := true; verbose := false;
                            min_log_level := "info" |};
     cfg_show_summary := true; cfg_data_dir := ".logfire";
     cfg_id_generator := RandomIdGenerator;
     cfg_additional_span_processors := None; cfg_additional_metric_readers := None;
     cfg_scrubbing := Some {| extra_patterns := None; callback := None |};
     cfg_scrubber := Scrubber None None;
     cfg_tail_sampling := Some (TailSamplingOptionsOf ∅) |}.

(** A logged-in user with no project yet and no credentials file, who
    accepts the organization, names the project [my-project] and presses
    Enter at the last prompt; the server creates the project. *)
Definition creates_my_project : world :=
  initial_world ∅ [Enter; Typed "my-project"; Enter]
    [reply 200 (PList []); reply 200 only_acme; reply 201 created_project]
    (Some "user-token").

(** The process after the first [configure] call of that session. *)
Definition after_first_configure : process :=
  (configure sample_settings (fresh_process sample_settings creates_my_project)).2.

(** The credentials that session ends with. *)
Definition my_project_credentials : LogfireCredentials :=
  {| token := PStr "abc"; project_name := PStr "my-project";
     project_url := PStr "https://logfire.dev/acme/my-project";
     logfire_api_url := PStr "https://logfire-api.pydantic.dev" |}.

(** ** Project names, in the words of the prompt

    The prompt [create_new_project] shows for an invalid name says that valid
    project names may contain lowercase alphanumeric characters, may contain
    single hyphens, and may not start or end with a hyphen. *)

Definition is_hyphen (c : ascii) : bool := bool_decide (c = "-"%char).

Definition well_formed_name (s : string) : Prop :=
  s <> EmptyString /\
  str_forall (fun c => is_lower_alnum c || is_hyphen c) s = true /\
  (forall t, s <> "-" +:+ t) /\
  (forall t, s <> t +:+ "-") /\
  (forall t u, s <> t +:+ "--" +:+ u).

(** The same, read from left to right: [after_alnum] tells whether the
    character before was a letter or a digit. *)
Fixpoint name_ok_from (after_alnum : bool) (s : string) : bool :=
  match s with
  | EmptyString => after_alnum
  | String c s' =>
      if is_lower_alnum c then name_ok_from true s'
      else if is_hyphen c then after_alnum && name_ok_from false s'
      else false
  end.

(** ** What the interactive flow does to the world *)

(** [w'] is [w] after a conversation: the same files, environment, working
    directory and login, and the events added all satisfy [ok]. *)
Definition conversation (ok : event -> Prop) (w w' : world) : Prop :=
  files w' = files w /\ environ w' = environ w /\ cwd w' = cwd w /\
  user_token w' = user_token w /\
  exists new, events w' = events w ++ new /\ Forall ok new.

(** When the login file holds [login], [m] only converses, with events that
    satisfy [ok], and what it returns satisfies [Q]. *)
Definition talks (login : option string) (ok : event -> Prop) {A : Type}
    (m : M A) (Q : A -> Prop) : Prop :=
  forall w, user_token w = login ->
    conversation ok w (m w).2 /\ forall a, (m w).1 = Ok a -> Q a.

(** Terminal output and input, and requests sent to [api] with [tok] as
    their authorization. *)
Definition terminal_or_request_to (api : pyval) (tok : string) (e : event) : Prop :=
  match e with
  | ERequest _ target authorization _ => url_base target = api /\ authorization = PStr tok
  | EPrint _ | EPrompt _ _ _ | EConfirm _ _ => True
  | _ => False
  end.

(** Some item of [items] has this organization and this project name. *)
Definition listed_project (items : list pyval) (organization project_name : pyval) : Prop :=
  exists item, In item items /\
    py_getitem item "organization_name" = Ok organization /\
    py_getitem item "project_name" = Ok project_name.

(** The request for a write token of the project [project_name] of
    [organization]. *)
Definition write_token_request (api : pyval) (tok : string)
    (organization project_name : pyval) : event :=
  ERequest "POST"
    (urljoin api "/v1/organizations/{organization}/projects/{project_name}/write-tokens/"
       [organization; project_name])
    (PStr tok) None.

(** Terminal output, a prompt, or the request for a write token of a project
    of [items]. *)
Definition print_prompt_or_listed (api : pyval) (tok : string) (items : list pyval)
    (e : event) : Prop :=
  match e with
  | ERequest _ _ _ _ =>
      exists o n, listed_project items o n /\ e = write_token_request api tok o n
  | EPrint _ | EPrompt _ _ _ => True
  | _ => False
  end.

(** [LogfireCredentials.get_current_user] *)
Definition get_current_user (logfire_api_url : pyval) : M pyval :=
  user_token ← try_except (Some <$> _get_user_token logfire_api_url)
                  is_LogfireConfigError (fun e => mret None);
  match user_token with
  | None => mret PNone
  | Some user_token => _get_user_for_token user_token logfire_api_url
  end.

(** The world after a request was sent and the next reply consumed. *)
Definition after_request (request : event) (w : world) : world :=
  set_responses (tail (responses w)) (add_event request w).

(** The reply a [raise_for_status] lets through, if the next reply is one. *)
Definition accepted_reply (w : world) : option response :=
  match responses w with
  | HttpResponds r :: _ =>
      match raise_for_status r with
      | Ok _ => Some r
      | Raise _ => None
      end
  | _ => None
  end.

(** [filtered_projects] of [use_existing_project], after the two filters. *)
Definition filter_projects (organization project_name : option string)
    (items : list pyval) : result (list pyval) :=
  kept ← match organization with
         | Some o => filter_by_key "organization_name" o items
         | None => Ok items
         end;
  match project_name with
  | Some n => filter_by_key "project_name" n kept
  | None => Ok kept
  end.

(** The projects of a user who has one project, [my-project] of [acme]. *)
Definition one_project : list pyval :=
  [PDict {[ "organization_name" := PStr "acme"; "project_name" := PStr "my-project" ]}].

(** ** More on [configure] *)

(** The condition under which [_initialize] sets up the export to Logfire:
    [(self.send_to_logfire == 'if-token-present' and self.token is not None)
    or self.send_to_logfire is True]. *)
Definition sends_to_logfire (d : _LogfireConfigData) : bool :=
  (bool_decide (cfg_send_to_logfire d = SendIfTokenPresent) && negb (is_None (cfg_token d)))
  || bool_decide (cfg_send_to_logfire d = SendTrue).

(** [w] is [w0] after quiet events, the start of the thread that checks the
    token, and more quiet events [es], which satisfy [after]. *)
Definition checked_in_background (w0 : world) (after : list event -> Prop) (w : world)
    : Prop :=
  exists w1 es,
    undisturbed w0 w1 /\
    undisturbed (add_event (EThreadStart "check_logfire_token") w1) w /\
    events w = events w1 ++ EThreadStart "check_logfire_token" :: es /\
    after es.

(** [LogfireConfig.warn_if_not_initialized].  [ignore_no_config] is the
    setting of that name, which [_load_configuration] stores on [self]
    beside the settings of [_LogfireConfigData]; the warning text is the
    [message] followed by one fixed sentence. *)
Definition warn_if_not_initialized (ignore_no_config : bool) (message : string) : CM unit :=
  self ← get_self;
  if negb (_initialized self) && negb ignore_no_config
  then in_world (warnings_warn
         (message +:+ " until `logfire.configure()` has been called. "
          +:+ "Set the environment variable LOGFIRE_IGNORE_NO_CONFIG=1 or add ignore_no_config=true in pyproject.toml to suppress this warning."))
  else mret tt.

(** [LogfireConfig.get_tracer_provider]; the result is what the proxy holds,
    [None] for the no-op provider. *)
Definition get_tracer_provider (ignore_no_config : bool) : CM (option SDKTracerProvider) :=
  warn_if_not_initialized ignore_no_config "No logs or spans will be created";;
  self ← get_self;
  mret (_tracer_provider self).

(** [LogfireConfig.get_meter_provider] *)
Definition get_meter_provider (ignore_no_config : bool) : CM (option MeterProvider) :=
  warn_if_not_initialized ignore_no_config "No metrics will be created";;
  self ← get_self;
  mret (_meter_provider self).

(** The sample settings with ['if-token-present'] and no token. *)
Definition if_token_present_settings : _LogfireConfigData :=
  {| cfg_base_url := cfg_base_url sample_settings;
     cfg_send_to_logfire := SendIfTokenPresent; cfg_token := PNone;
     cfg_project_name := cfg_project_name sample_settings;
     cfg_service_name := cfg_service_name sample_settings;
     cfg_service_version := cfg_service_version sample_settings;
     cfg_trace_sample_rate := cfg_trace_sample_rate sample_settings;
     cfg_console := cfg_console sample_settings;
     cfg_show_summary := cfg_show_summary sample_settings;
     cfg_data_dir := cfg_data_dir sample_settings;
     cfg_id_generator := cfg_id_generator sample_settings;
     cfg_additional_span_processors := cfg_additional_span_processors sample_settings;
     cfg_additional_metric_readers := cfg_additional_metric_readers sample_settings;
     cfg_scrubbing := cfg_scrubbing sample_settings;
     cfg_scrubber := cfg_scrubber sample_settings;
     cfg_tail_sampling := cfg_tail_sampling sample_settings |}.

(** The sample settings with the token [abc] given. *)
Definition given_token_settings : _LogfireConfigData :=
  set_token_and_base_url (PStr "abc") (cfg_base_url sample_settings) sample_settings.

(** A world with no file, no answer, no reply and no login. *)
Definition silent_world : world := initial_world ∅ [] [] None.

(** The settings are [resolved] and the token check was started since
    [w0]. *)
Definition token_check_started (w0 : world) (resolved : _LogfireConfigData)
    (after : list event -> Prop) (p : process) : Prop :=
  cfg (self_config (inside p)) = resolved /\
  checked_in_background w0 after (outside p).

(** The settings are [resolved] and, since [w0], nothing happened but quiet
    events and perhaps the start of the token check. *)
Definition at_most_check_started (w0 : world) (resolved : _LogfireConfigData)
    (p : process) : Prop :=
  cfg (self_config (inside p)) = resolved /\
  (undisturbed w0 (outside p) \/
   checked_in_background w0 (fun _ => True) (outside p)).

(** The tracer provider holds the processors [first], and perhaps more
    after them. *)
Definition starts_with_processors (first : list SpanProcessor) (c : core) : Prop :=
  exists t more,
    _tracer_provider (self_config c) = Some t /\ span_processors t = first ++ more.

(** The meter provider holds the readers [first], and perhaps more after
    them. *)
Definition starts_with_readers (first : list MetricReader) (c : core) : Prop :=
  exists more,
    _meter_provider (self_config c) = Some {| metric_readers := first ++ more |}.

(** The assignment [tracer_provider.add_span_processor] makes. *)
Definition with_span_processor (q : SpanProcessor) (self : LogfireConfig) : LogfireConfig :=
  set_tracer_provider
    ((fun t => {| sampler := sampler t; provider_id_generator := provider_id_generator t;
                  span_processors := span_processors t ++ [q] |})
       <$> _tracer_provider self) self.

(** Settings that send nothing to Logfire and add one span processor and one
    metric reader of the user's. *)
Definition local_settings : _LogfireConfigData :=
  {| cfg_base_url := cfg_base_url sample_settings;
     cfg_send_to_logfire := SendFalse; cfg_token := PNone;
     cfg_project_name := PNone;
     cfg_service_name := PStr "my-service"; cfg_service_version := PNone;
     cfg_trace_sample_rate := float_1;
     cfg_console := None;
     cfg_show_summary := false;
     cfg_data_dir := ".logfire";
     cfg_id_generator := RandomIdGenerator;
     cfg_additional_span_processors := Some [UserProcessor "mine" None];
     cfg_additional_metric_readers := Some [UserMetricReader "mine"];
     cfg_scrubbing := None;
     cfg_scrubber := NOOP_SCRUBBER;
     cfg_tail_sampling := None |}.

(** The world [w] with the environment variable [name] set to [value]. *)
Definition setenv (name value : string) (w : world) : world :=
  {| files := files w; environ := <[name := value]> (environ w); cwd := cwd w;
     answers := answers w; responses := responses w; user_token := user_token w;
     events := events w;
     pid := pid w; meter_shutdown_timeouts := meter_shutdown_timeouts w |}.

(** The world [w] in which the coming shutdowns of the meter provider time
    out as [timeouts] says. *)
Definition with_meter_shutdown_timeouts (timeouts : list bool) (w : world) : world :=
  {| files := files w; environ := environ w; cwd := cwd w;
     answers := answers w; responses := responses w; user_token := user_token w;
     events := events w;
     pid := pid w; meter_shutdown_timeouts := timeouts |}.

(* ===================================================================== *)
(** * Part II: theorems                                                   *)
(* ===================================================================== *)

Example sanitize_example_1 : sanitize_project_name "logfire-sdk_v2" = "logfiresdkv2".
Proof. reflexivity. Qed.

Example pattern_example_1 : matches_project_name_pattern "my-project" = true.
Proof. reflexivity. Qed.

Example pattern_example_2 : matches_project_name_pattern "my--project" = false.
Proof. reflexivity. Qed.

Example pattern_example_3 : matches_project_name_pattern "-my" = false.
Proof. reflexivity. Qed.

(** ** Strings and regular expressions *)

Lemma str_app_nil_l (s : string) : EmptyString +:+ s = s.
Proof. reflexivity. Qed.

Lemma str_app_cons (c : ascii) (s1 s2 : string) :
  String c s1 +:+ s2 = String c (s1 +:+ s2).
Proof. reflexivity. Qed.

Lemma str_app_nil_r (s : string) : s +:+ EmptyString = s.
Proof.
  induction s as [|c s IH]; [reflexivity |].
  rewrite str_app_cons. f_equal. exact IH.
Qed.

Lemma str_app_eq_nil (s1 s2 : string) :
  s1 +:+ s2 = EmptyString -> s1 = EmptyString /\ s2 = EmptyString.
Proof.
  destruct s1; [rewrite str_app_nil_l; tauto | rewrite str_app_cons; discriminate].
Qed.

Lemma nullable_lang (r : regex) : nullable r = true <-> re_lang r EmptyString.
Proof.
  split.
  - induction r; simpl; intros H; try discriminate.
    + constructor.
    + apply andb_true_iff in H as [H1 H2].
      change EmptyString with (EmptyString +:+ EmptyString). constructor; auto.
    + apply orb_true_iff in H as [H|H]; [apply lang_alt_l | apply lang_alt_r]; auto.
    + constructor.
  - intros H. remember EmptyString as s eqn:Es.
    induction H; simpl; try discriminate; try reflexivity.
    + apply str_app_eq_nil in Es as [-> ->]. rewrite IHre_lang1, IHre_lang2; auto.
    + rewrite IHre_lang; auto.
    + rewrite IHre_lang; auto using orb_true_r.
Qed.

Lemma deriv_lang_complete (r : regex) (c : ascii) (s : string) :
  re_lang r (String c s) -> re_lang (deriv c r) s.
Proof.
  intros H. remember (String c s) as cs eqn:E. revert c s E.
  induction H; intros c0 s0 E; simpl; try discriminate.
  - injection E as -> <-. rewrite bool_decide_eq_true_2 by reflexivity. constructor.
  - injection E as -> <-. rewrite H. constructor.
  - destruct s1 as [|c1 s1]; [rewrite str_app_nil_l in E | rewrite str_app_cons in E].
    + subst s2. apply nullable_lang in H. rewrite H.
      apply lang_alt_r. eauto.
    + injection E as -> <-.
      destruct (nullable r1); [apply lang_alt_l |]; constructor; eauto.
  - apply lang_alt_l. eauto.
  - apply lang_alt_r. eauto.
  - destruct s1 as [|c1 s1]; [rewrite str_app_nil_l in E | rewrite str_app_cons in E].
    + eauto.
    + injection E as -> <-. constructor; eauto.
Qed.

Lemma deriv_lang_sound (r : regex) (c : ascii) (s : string) :
  re_lang (deriv c r) s -> re_lang r (String c s).
Proof.
  revert s. induction r; intros s H; simpl in H.
  - inversion H.
  - inversion H.
  - case_bool_decide; inversion H; subst. constructor.
  - destruct (in_set negated ranges c) eqn:E; inversion H; subst. by constructor.
  - destruct (nullable r1) eqn:N.
    + inversion H; subst.
      * match goal with X : re_lang (RCat _ _) _ |- _ => inversion X; subst end.
        change (String c (?a +:+ ?b)) with (String c a +:+ b). constructor; eauto.
      * change (String c s) with (EmptyString +:+ String c s).
        constructor; [by apply nullable_lang | eauto].
    + inversion H; subst.
      change (String c (?a +:+ ?b)) with (String c a +:+ b). constructor; eauto.
  - inversion H; subst; [apply lang_alt_l | apply lang_alt_r]; eauto.
  - inversion H; subst.
    change (String c (?a +:+ ?b)) with (String c a +:+ b).
    apply lang_star_cons; eauto.
Qed.

(** The matcher decides the language. *)
Lemma re_fullmatch_lang (r : regex) (s : string) :
  re_fullmatch r s = true <-> re_lang r s.
Proof.
  revert r. induction s as [|c s IH]; intros r; simpl.
  - apply nullable_lang.
  - rewrite IH. split; [apply deriv_lang_sound | apply deriv_lang_complete].
Qed.

(** ** The project-name sanitizer *)

Lemma re_fullmatch_set_char (neg : bool) (rs : list (ascii * ascii)) (c : ascii) :
  re_fullmatch (RSet neg rs) (String c EmptyString) = in_set neg rs c.
Proof. simpl. by destruct (in_set neg rs c). Qed.

Lemma not_alnum_is_alnum (c : ascii) :
  re_fullmatch NOT_ALNUM (String c EmptyString) = negb (is_alnum c).
Proof. unfold NOT_ALNUM. rewrite re_fullmatch_set_char. reflexivity. Qed.

Lemma re_sub_chars_not_alnum (s : string) :
  String.list_ascii_of_string (re_sub_chars NOT_ALNUM EmptyString s)
  = List.filter is_alnum (String.list_ascii_of_string s).
Proof.
  induction s as [|c s IH]; [reflexivity |].
  cbn [re_sub_chars]. rewrite not_alnum_is_alnum.
  cbn [String.list_ascii_of_string List.filter].
  destruct (is_alnum c); cbn [negb].
  - cbn [String.list_ascii_of_string]. by rewrite IH.
  - by rewrite str_app_nil_l.
Qed.

Lemma str_lower_list (s : string) :
  String.list_ascii_of_string (str_lower s)
  = map chr_lower (String.list_ascii_of_string s).
Proof. induction s as [|c s IH]; [reflexivity |]. cbn. by rewrite IH. Qed.

Lemma str_slice_to_list (n : nat) (s : string) :
  String.list_ascii_of_string (str_slice_to n s)
  = firstn n (String.list_ascii_of_string s).
Proof.
  revert s. induction n as [|n IH]; intros [|c s]; try reflexivity.
  cbn. by rewrite IH.
Qed.

Lemma str_or_list (a b : string) :
  str_or a b =
  match String.list_ascii_of_string a with
  | [] => b
  | kept => String.string_of_list_ascii kept
  end.
Proof.
  destruct a as [|c a]; [reflexivity |].
  unfold str_or. cbn [str_truthy String.list_ascii_of_string].
  change (String c a = String.string_of_list_ascii
            (String.list_ascii_of_string (String c a))).
  by rewrite String.string_of_list_ascii_of_string.
Qed.

(** The sanitizer computes what the specification describes. *)
Lemma sanitize_project_name_refines (name : string) :
  sanitize_project_name name = sanitize_spec name.
Proof.
  unfold sanitize_project_name, sanitize_spec.
  rewrite str_or_list, str_slice_to_list, str_lower_list, re_sub_chars_not_alnum.
  reflexivity.
Qed.

Lemma str_slice_to_length (n : nat) (s : string) :
  String.length (str_slice_to n s) <= n.
Proof.
  revert s. induction n as [|n IH]; intros [|c s]; cbn; try lia.
  specialize (IH s). lia.
Qed.

Lemma chr_lower_alnum (c : ascii) :
  is_alnum c = true -> is_lower_alnum (chr_lower c) = true.
Proof.
  destruct c as [[] [] [] [] [] [] [] []]; vm_compute; congruence.
Qed.

Lemma str_forall_slice (p : ascii -> bool) (n : nat) (s : string) :
  str_forall p s = true -> str_forall p (str_slice_to n s) = true.
Proof.
  revert s. induction n as [|n IH]; intros [|c s]; cbn; try reflexivity.
  intros [Hc Hs]%andb_true_iff. rewrite Hc. cbn. auto.
Qed.

Lemma str_forall_lower_sub (s : string) :
  str_forall is_lower_alnum
    (str_lower (re_sub_chars NOT_ALNUM EmptyString s)) = true.
Proof.
  induction s as [|c s IH]; [reflexivity |].
  cbn [re_sub_chars]. rewrite not_alnum_is_alnum.
  destruct (is_alnum c) eqn:E; cbn [negb].
  - cbn [str_lower str_forall]. rewrite chr_lower_alnum by exact E. exact IH.
  - rewrite str_app_nil_l. exact IH.
Qed.

(** Every sanitized name is a non-empty string of lower-case letters and
    digits, 41 characters long at most. *)
Lemma sanitize_project_name_shape (name : string) :
  str_truthy (sanitize_project_name name) = true /\
  str_forall is_lower_alnum (sanitize_project_name name) = true /\
  String.length (sanitize_project_name name) <= 41.
Proof.
  unfold sanitize_project_name, str_or.
  set (t := str_slice_to 41 _).
  destruct (str_truthy t) eqn:E.
  - split; [exact E |]. split.
    + apply str_forall_slice, str_forall_lower_sub.
    + apply str_slice_to_length.
  - vm_compute. repeat split; lia.
Qed.

Lemma lower_alnum_star (s : string) :
  str_forall is_lower_alnum s = true -> re_lang (RStar LOWER_ALNUM) s.
Proof.
  induction s as [|c s IH]; cbn [str_forall]; intros H.
  - constructor.
  - apply andb_true_iff in H as [Hc Hs].
    change (String c s) with (String c EmptyString +:+ s).
    apply lang_star_cons; [by apply lang_set | auto].
Qed.

(** A non-empty string of lower-case letters and digits matches the
    project-name pattern. *)
Lemma lower_alnum_matches_pattern (s : string) :
  str_truthy s = true ->
  str_forall is_lower_alnum s = true ->
  matches_project_name_pattern s = true.
Proof.
  intros Hne Hall. unfold matches_project_name_pattern, re_match_anchored.
  apply orb_true_iff. left. apply re_fullmatch_lang.
  destruct s as [|c s]; [discriminate |].
  cbn [str_forall] in Hall. apply andb_true_iff in Hall as [Hc Hs].
  rewrite <- (str_app_nil_r (String c s)).
  apply lang_cat; [| constructor].
  change (String c s) with (String c EmptyString +:+ s).
  apply lang_cat; [by apply lang_set | by apply lower_alnum_star].
Qed.

(** C5: the input [My Project!!] is sanitized to [myproject]; in general the
    sanitizer removes every character that is not alphanumeric, lower-cases
    what is left, keeps the first 41 characters, and returns [untitled] when
    nothing is left. *)
Theorem sanitize_project_name_correct :
  sanitize_project_name "My Project!!" = "myproject" /\
  (forall name, sanitize_project_name name = sanitize_spec name) /\
  (forall name, String.length (sanitize_project_name name) <= 41) /\
  sanitize_project_name EmptyString = "untitled" /\
  sanitize_project_name "!!! ???" = "untitled".
Proof.
  split; [reflexivity |]. split; [apply sanitize_project_name_refines |].
  split; [apply sanitize_project_name_shape |]. split; reflexivity.
Qed.

(** ** Credentials: the file and the token *)

Lemma app_snoc2 {A : Type} (l : list A) (a b : A) : (l ++ [a]) ++ [b] = l ++ [a; b].
Proof. by rewrite <- app_assoc. Qed.

Ltac run_M :=
  unfold mbind, M_bind, mret, M_ret, fmap, M_fmap, try_except, lift, raise,
    warnings_warn, print, emit, path_lookup, session_request, write_json.

Example from_token_401 :
  fst (from_token (PStr "tok") (PStr "https://api")
         (initial_world ∅ [] [HttpResponds {| status_code := 401; body := None |}] None))
  = Ok None.
Proof. reflexivity. Qed.

Example from_token_200 :
  fst (from_token (PStr "tok") (PStr "https://api")
         (initial_world ∅ [] [HttpResponds {| status_code := 200;
             body := Some (PDict {[ "project_name" := PStr "p"; "project_url" := PStr "u" ]}) |}] None))
  = Ok (Some {| token := PStr "tok"; project_name := PStr "p"; project_url := PStr "u";
                logfire_api_url := PStr "https://api" |}).
Proof. vm_compute. reflexivity. Qed.

(** A 200 response whose body lacks the project fields makes [from_token]
    raise: the lookup is outside the [try]. *)
Example from_token_200_without_fields :
  fst (from_token (PStr "tok") (PStr "https://api")
         (initial_world ∅ [] [HttpResponds {| status_code := 200; body := Some (PDict ∅) |}] None))
  = Raise (KeyError "project_name").
Proof. vm_compute. reflexivity. Qed.

(** C2: whatever happens other than a 200 response (a 401, an unreachable
    server, any other status), [from_token] sends the request, issues one
    warning and returns [None] without raising; and it returns credentials
    only for a 200 response, built from the token, the base URL and the
    [project_name] and [project_url] of the response body. *)
Theorem from_token_degrades (tok base_url : pyval) (w : world) :
  (replies_200 w = false ->
   exists msg w',
     from_token tok base_url w = (Ok None, w') /\
     files w' = files w /\
     events w' = events w ++
       [ERequest "GET" (urljoin base_url "/v1/info" []) tok None; EWarn msg]) /\
  (forall c w',
     from_token tok base_url w = (Ok (Some c), w') ->
     exists r data,
       head (responses w) = Some (HttpResponds r) /\
       status_code r = 200%Z /\
       body r = Some data /\
       py_getitem data "project_name" = Ok (project_name c) /\
       py_getitem data "project_url" = Ok (project_url c) /\
       token c = tok /\ logfire_api_url c = base_url).
Proof.
  unfold replies_200, from_token. run_M. split.
  - intros H. destruct (responses w) as [|[msg|r] rest]; cbn.
    + eexists _, _. repeat split. apply app_snoc2.
    + eexists _, _. repeat split. apply app_snoc2.
    + destruct (bool_decide (status_code r = 401%Z)) eqn:E401; cbn.
      * eexists _, _. repeat split. apply app_snoc2.
      * rewrite H. cbn. eexists _, _. repeat split. apply app_snoc2.
  - intros c w'. destruct (responses w) as [|[msg|r] rest]; cbn; try discriminate.
    destruct (bool_decide (status_code r = 401%Z)) eqn:E401; cbn; [discriminate |].
    destruct (bool_decide (status_code r = 200%Z)) eqn:E200; cbn; [| discriminate].
    apply bool_decide_eq_true in E200.
    unfold response_json. destruct (body r) as [data|] eqn:Eb; cbn; [| discriminate].
    destruct (py_getitem data "project_name") as [n|] eqn:En; cbn; [| discriminate].
    destruct (py_getitem data "project_url") as [u|] eqn:Eu; cbn; [| discriminate].
    intros [= <- <-]. exists r, data. cbn. repeat split; auto.
Qed.

Lemma from_token_degrades_witness :
  exists msg w',
    from_token (PStr "tok") (PStr "https://api")
      (initial_world ∅ [] [HttpResponds {| status_code := 503; body := None |}] None)
    = (Ok None, w') /\
    files w' = ∅ /\
    events w' =
      [ERequest "GET" (urljoin (PStr "https://api") "/v1/info" []) (PStr "tok") None; EWarn msg].
Proof.
  apply (proj1 (from_token_degrades (PStr "tok") (PStr "https://api")
    (initial_world ∅ [] [HttpResponds {| status_code := 503; body := None |}] None))).
  reflexivity.
Defined.

Example load_creds_file_absent :
  fst (load_creds_file ".logfire" (initial_world ∅ [] [] None)) = Ok None.
Proof. reflexivity. Qed.

Example load_creds_file_not_json :
  fst (load_creds_file ".logfire" (creds_dir_with NotJSON))
  = Raise (LogfireConfigError "Invalid credentials file: .logfire/logfire_credentials.json").
Proof. vm_compute. reflexivity. Qed.

Example load_creds_file_json_array :
  is_LogfireConfigError_result (fst (load_creds_file ".logfire" (creds_dir_with (JSONText (PList []))))) = true.
Proof. vm_compute. reflexivity. Qed.

Example load_creds_file_missing_key :
  is_LogfireConfigError_result
    (fst (load_creds_file ".logfire"
            (creds_dir_with (JSONText (PDict {[ "token" := PStr "t" ]}))))) = true.
Proof. vm_compute. reflexivity. Qed.

(** A credentials file that is absent gives [None]; one that exists never
    does. *)
Lemma load_creds_file_None (creds_dir : string) (w : world) :
  fst (load_creds_file creds_dir w) = Ok None <->
  files w !! _get_creds_file creds_dir = None.
Proof.
  unfold load_creds_file. run_M.
  destruct (files w !! _get_creds_file creds_dir) as [f|]; [| tauto].
  split; [| discriminate]. destruct f as [| |v]; cbn; try discriminate.
  destruct (py_pop v "dashboard_url" PNone) as [[du d]|e]; cbn.
  - destruct (LogfireCredentials_init _) as [c|e]; cbn; [discriminate |].
    destruct (is_TypeError e); discriminate.
  - destruct (is_TypeError e); discriminate.
Qed.

(** A file that cannot be opened, is not JSON, or holds a JSON object or
    array that does not give the four fields, raises [LogfireConfigError]. *)
Lemma load_creds_file_invalid (creds_dir : string) (w : world) (f : file_entry) :
  files w !! _get_creds_file creds_dir = Some f ->
  match f with
  | JSONText (PList _) | JSONText (PDict _) | Unreadable | NotJSON => True
  | _ => False
  end ->
  (exists c, fst (load_creds_file creds_dir w) = Ok (Some c)) \/
  is_LogfireConfigError_result (fst (load_creds_file creds_dir w)) = true.
Proof.
  intros Hf Hshape. unfold load_creds_file. run_M. rewrite Hf.
  destruct f as [| |v]; cbn; auto.
  destruct v; try contradiction; cbn; auto.
  destruct (d !! "dashboard_url"); cbn;
    destruct (LogfireCredentials_init _) as [c|e] eqn:E; cbn; eauto;
    unfold LogfireCredentials_init in E; repeat case_match; simplify_eq; cbn; auto.
Qed.

(** C3, at the input where the code departs from it: a credentials file
    whose text is the JSON scalar [null] (likewise a number, a string or a
    boolean) exists and is not a credentials object, yet [load_creds_file]
    lets an [AttributeError] escape instead of raising a
    [LogfireConfigError]: only [TypeError] is caught around the [pop]. *)
Theorem load_creds_file_json_scalar :
  fst (load_creds_file ".logfire" (creds_dir_with (JSONText PNone)))
    = Raise (AttributeError "object has no attribute 'pop'") /\
  fst (load_creds_file ".logfire" (creds_dir_with (JSONText (PInt 42))))
    = Raise (AttributeError "object has no attribute 'pop'") /\
  fst (load_creds_file ".logfire" (creds_dir_with (JSONText (PStr "token"))))
    = Raise (AttributeError "object has no attribute 'pop'").
Proof. vm_compute. auto. Qed.

Example load_creds_file_legacy_only :
  fst (load_creds_file ".logfire"
         (creds_dir_with (JSONText (PDict
            {[ "token" := PStr "t"; "project_name" := PStr "p";
               "dashboard_url" := PStr "old"; "logfire_api_url" := PStr "api" ]}))))
  = Ok (Some {| token := PStr "t"; project_name := PStr "p";
                project_url := PStr "old"; logfire_api_url := PStr "api" |}).
Proof. vm_compute. reflexivity. Qed.

Example load_creds_file_both_keys :
  fst (load_creds_file ".logfire"
         (creds_dir_with (JSONText (PDict
            {[ "token" := PStr "t"; "project_name" := PStr "p";
               "dashboard_url" := PStr "old"; "project_url" := PStr "new";
               "logfire_api_url" := PStr "api" ]}))))
  = Ok (Some {| token := PStr "t"; project_name := PStr "p";
                project_url := PStr "new"; logfire_api_url := PStr "api" |}).
Proof. vm_compute. reflexivity. Qed.

(** C4: a credentials file whose object has the legacy key [dashboard_url]
    (with a value, that is, not [null]) next to [token], [project_name] and
    [logfire_api_url] loads: when [project_url] is absent it is taken from
    [dashboard_url], and when both keys are present the value of
    [project_url] is kept. *)
Theorem load_creds_file_legacy_key (creds_dir : string) (w : world)
    (d : gmap string pyval) (t n a legacy : pyval) :
  files w !! _get_creds_file creds_dir = Some (JSONText (PDict d)) ->
  d !! "token" = Some t ->
  d !! "project_name" = Some n ->
  d !! "logfire_api_url" = Some a ->
  d !! "dashboard_url" = Some legacy ->
  legacy <> PNone ->
  dom d ⊆ CREDENTIALS_FIELDS ∪ {[ "dashboard_url" ]} ->
  load_creds_file creds_dir w =
    (Ok (Some {| token := t; project_name := n;
                 project_url := default legacy (d !! "project_url");
                 logfire_api_url := a |}), w).
Proof.
  intros Hf Ht Hn Ha Hl Hnn Hdom. unfold load_creds_file. run_M. rewrite Hf. cbn.
  rewrite Hl. cbn.
  assert (is_None legacy = false) as -> by (by destruct legacy). cbn.
  unfold dict_setdefault, LogfireCredentials_init.
  rewrite lookup_delete_ne by done.
  destruct (d !! "project_url") as [u|] eqn:Hu; cbn.
  - rewrite bool_decide_eq_true_2
      by (rewrite dom_delete_L; unfold CREDENTIALS_FIELDS in *; set_solver).
    rewrite !lookup_delete_ne by done. rewrite Ht, Hn, Hu, Ha. reflexivity.
  - rewrite bool_decide_eq_true_2
      by (rewrite dom_insert_L, dom_delete_L; unfold CREDENTIALS_FIELDS in *; set_solver).
    rewrite lookup_insert_eq. rewrite !lookup_insert_ne by done.
    rewrite !lookup_delete_ne by done. rewrite Ht, Hn, Ha. reflexivity.
Qed.

Lemma load_creds_file_legacy_key_witness :
  load_creds_file ".logfire" (creds_dir_with (JSONText (PDict legacy_credentials)))
  = (Ok (Some {| token := PStr "t"; project_name := PStr "p";
                 project_url := default (PStr "old") (legacy_credentials !! "project_url");
                 logfire_api_url := PStr "api" |}),
     creds_dir_with (JSONText (PDict legacy_credentials))).
Proof.
  apply (load_creds_file_legacy_key ".logfire"
           (creds_dir_with (JSONText (PDict legacy_credentials))) legacy_credentials
           (PStr "t") (PStr "p") (PStr "api") (PStr "old")).
  - vm_compute. reflexivity.
  - vm_compute. reflexivity.
  - vm_compute. reflexivity.
  - vm_compute. reflexivity.
  - vm_compute. reflexivity.
  - discriminate.
  - apply (bool_decide_unpack _). vm_compute. exact I.
Defined.

(** ** Creating a project: validation and submission of the name *)

Lemma reprompt_invalid_name_asks (d : ask_default) (name : pyval) (w : world) :
  py_truthy name = true ->
  re_match_project_name name = Ok false ->
  reprompt_invalid_name d name w =
    (inl <$> Prompt_ask PromptNameInvalid None d) w.
Proof.
  intros Ht Hm. unfold reprompt_invalid_name. run_M. rewrite Ht, Hm. reflexivity.
Qed.

Lemma Prompt_ask_world (p : prompt_msg) (cs : option (list pyval)) (d : ask_default)
    (w : world) :
  let w' := snd (Prompt_ask p cs d w) in
  files w' = files w /\ responses w' = responses w /\
  events w' = events w ++ [EPrompt p cs d] /\
  (forall v, fst (Prompt_ask p cs d w) = Ok v -> length (answers w') < length (answers w)).
Proof.
  unfold Prompt_ask. cbn.
  destruct (read_answer cs d (answers w)) as [r rest] eqn:E. cbn.
  repeat split. intros v ->.
  revert E. generalize (answers w). intros ans. revert rest.
  induction ans as [|a ans IH]; intros rest; cbn; [discriminate |].
  destruct a as [|line].
  - destruct d; [destruct (choice_ok cs EmptyString) |].
    + intros [= ? <-]. lia.
    + intros E. apply IH in E. lia.
    + intros [= ? <-]. lia.
  - destruct (choice_ok cs line).
    + intros [= ? <-]. lia.
    + intros E. apply IH in E. lia.
Qed.

Lemma while_true_step {St A : Type} (fuel : nat) (body : St -> M (St + A))
    (st : St) (w : world) :
  while_true (S fuel) body st w =
    match body st w with
    | (Ok (inl st'), w') => while_true fuel body st' w'
    | (Ok (inr a), w') => (Ok a, w')
    | (Raise e, w') => (Raise e, w')
    end.
Proof. cbn. run_M. destruct (body st w) as [[[st'|a]|e] w']; reflexivity. Qed.

Lemma reprompt_invalid_name_cases (d : ask_default) (name : pyval) (w : world) :
  reprompt_invalid_name d name w =
    if py_truthy name then
      match re_match_project_name name with
      | Ok true => (Ok (inr name), w)
      | Ok false => (inl <$> Prompt_ask PromptNameInvalid None d) w
      | Raise e => (Raise e, w)
      end
    else (Ok (inr name), w).
Proof.
  unfold reprompt_invalid_name. run_M.
  destruct (py_truthy name); [| reflexivity].
  destruct (re_match_project_name name) as [[]|e]; reflexivity.
Qed.

(** Names that leave the validation loop are falsy or match the pattern, and
    the loop sends nothing to the server. *)
Lemma valid_project_name_gate (d : ask_default) (name v : pyval) (w w' : world) :
  valid_project_name d name w = (Ok v, w') ->
  name_passes_gate v = true /\ responses w' = responses w /\ files w' = files w.
Proof.
  unfold valid_project_name. generalize (S (length (answers w))). intros fuel.
  revert name w. induction fuel as [|fuel IH]; intros name w; [discriminate |].
  rewrite while_true_step, reprompt_invalid_name_cases. unfold name_passes_gate.
  destruct (py_truthy name) eqn:Ht.
  - destruct (re_match_project_name name) as [[]|e] eqn:Hm.
    + intros [= <- <-]. rewrite Ht, Hm. auto.
    + pose proof (Prompt_ask_world PromptNameInvalid None d w) as (Hf & Hr & _ & _).
      unfold fmap, M_fmap.
      destruct (Prompt_ask PromptNameInvalid None d w) as [[a|e] w1]; cbn in *;
        [| discriminate].
      intros E. apply IH in E as (? & ? & ?). split; [assumption |]. split; congruence.
    + discriminate.
  - intros [= <- <-]. rewrite Ht. auto.
Qed.

Lemma submit_project_name_409 (api org : pyval) (tok : string) (name : pyval)
    (w : world) (r : response) (rest : list http_outcome) :
  responses w = HttpResponds r :: rest ->
  status_code r = 409%Z ->
  submit_project_name api org tok name w =
    (Ok (inl (PNone, NoDefault, PromptNameTaken name)),
     set_responses rest (add_event (create_project_request api org tok name) w)).
Proof.
  intros Hr Hs. unfold submit_project_name. run_M. rewrite Hr. cbn.
  rewrite Hs. reflexivity.
Qed.

Lemma submit_project_name_422 (api org : pyval) (tok : string) (name : pyval)
    (w : world) (r : response) (rest : list http_outcome)
    (data detail error loc msg : pyval) :
  responses w = HttpResponds r :: rest ->
  status_code r = 422%Z ->
  body r = Some data ->
  py_getitem data "detail" = Ok detail ->
  py_getitem_0 detail = Ok error ->
  py_getitem error "loc" = Ok loc ->
  py_eq_str_list loc ["body"; "project_name"] = true ->
  py_getitem error "msg" = Ok msg ->
  submit_project_name api org tok name w =
    (Ok (inl (PNone, NoDefault, PromptNameRejected msg)),
     set_responses rest (add_event (create_project_request api org tok name) w)).
Proof.
  intros Hr Hs Hb Hd He Hl Hloc Hm. unfold submit_project_name. run_M. rewrite Hr. cbn.
  rewrite Hs. cbn. unfold response_json. rewrite Hb. cbn.
  rewrite Hd. cbn. rewrite He. cbn. rewrite Hl. cbn. rewrite Hloc. cbn.
  rewrite Hm. reflexivity.
Qed.

Lemma submit_project_name_422_elsewhere (api org : pyval) (tok : string) (name : pyval)
    (w : world) (r : response) (rest : list http_outcome)
    (data detail error loc : pyval) :
  responses w = HttpResponds r :: rest ->
  status_code r = 422%Z ->
  body r = Some data ->
  py_getitem data "detail" = Ok detail ->
  py_getitem_0 detail = Ok error ->
  py_getitem error "loc" = Ok loc ->
  py_eq_str_list loc ["body"; "project_name"] = false ->
  fst (submit_project_name api org tok name w) =
    Raise (LogfireConfigError "Error creating new project.").
Proof.
  intros Hr Hs Hb Hd He Hl Hloc. unfold submit_project_name. run_M. rewrite Hr. cbn.
  rewrite Hs. cbn. unfold response_json. rewrite Hb. cbn.
  rewrite Hd. cbn. rewrite He. cbn. rewrite Hl. cbn. rewrite Hloc. cbn.
  unfold raise_for_status. rewrite Hs. reflexivity.
Qed.

Lemma submit_project_name_other_error (api org : pyval) (tok : string) (name : pyval)
    (w : world) (r : response) (rest : list http_outcome) :
  responses w = HttpResponds r :: rest ->
  status_code r <> 409%Z ->
  status_code r <> 422%Z ->
  (status_code r < 200 \/ 300 <= status_code r)%Z ->
  fst (submit_project_name api org tok name w) =
    Raise (LogfireConfigError "Error creating new project.").
Proof.
  intros Hr H409 H422 Herr. unfold submit_project_name. run_M. rewrite Hr. cbn.
  rewrite !bool_decide_eq_false_2 by assumption. cbn.
  unfold raise_for_status.
  assert ((200 <=? status_code r)%Z && (status_code r <? 300)%Z = false) as ->.
  { apply andb_false_iff. destruct Herr; [left | right]; lia. }
  reflexivity.
Qed.

Lemma submit_project_name_unreachable (api org : pyval) (tok : string) (name : pyval)
    (w : world) :
  match responses w with
  | [] | HttpFails _ :: _ => True
  | _ => False
  end ->
  fst (submit_project_name api org tok name w) =
    Raise (LogfireConfigError "Error creating new project.").
Proof.
  intros H. unfold submit_project_name. run_M.
  destruct (responses w) as [|[msg|r] rest]; [reflexivity | reflexivity | contradiction].
Qed.

(** ** The loops of the model never stop on their bound *)

Lemma nb_ret {A : Type} (a : A) : no_bound (mret a).
Proof. intros w. discriminate. Qed.

Lemma nb_raise {A : Type} (e : exn) : e <> LoopBound -> no_bound (raise e : M A).
Proof. intros H w. cbn. congruence. Qed.

Lemma nb_lift {A : Type} (r : result A) : pure_no_bound r -> no_bound (lift r).
Proof. intros H w. exact H. Qed.

Lemma nb_bind {A B : Type} (m : M A) (f : A -> M B) :
  no_bound m -> (forall a, no_bound (f a)) -> no_bound (m ≫= f).
Proof.
  intros Hm Hf w. unfold mbind, M_bind. specialize (Hm w).
  destruct (m w) as [[a|e] w1]; cbn in *; [apply Hf | congruence].
Qed.

Lemma nb_fmap {A B : Type} (g : A -> B) (m : M A) : no_bound m -> no_bound (g <$> m).
Proof.
  intros Hm w. unfold fmap, M_fmap. specialize (Hm w).
  destruct (m w) as [[a|e] w1]; cbn in *; [discriminate | congruence].
Qed.

Lemma nb_try {A : Type} (body : M A) (handled : exn -> bool) (handler : exn -> M A) :
  no_bound body -> (forall e, no_bound (handler e)) ->
  no_bound (try_except body handled handler).
Proof.
  intros Hb Hh w. unfold try_except. specialize (Hb w).
  destruct (body w) as [[a|e] w1]; cbn in *; [discriminate |].
  destruct (handled e); [apply Hh | exact Hb].
Qed.

Lemma nb_if {A : Type} (b : bool) (m1 m2 : M A) :
  no_bound m1 -> no_bound m2 -> no_bound (if b then m1 else m2).
Proof. by destruct b. Qed.

Lemma nb_emit (e : event) : no_bound (emit e).
Proof. intros w. discriminate. Qed.

Lemma read_answer_raises (cs : option (list pyval)) (d : ask_default)
    (ans : list answer) (e : exn) :
  (read_answer cs d ans).1 = Raise e -> e = EOFError.
Proof.
  induction ans as [|[|line] ans IH]; cbn.
  - congruence.
  - destruct d; [destruct (choice_ok cs EmptyString) |]; cbn; try discriminate. exact IH.
  - destruct (choice_ok cs line); cbn; try discriminate. exact IH.
Qed.

Lemma read_confirm_raises (d : bool) (ans : list answer) (e : exn) :
  (read_confirm d ans).1 = Raise e -> e = EOFError.
Proof.
  induction ans as [|[|line] ans IH]; cbn; try congruence.
  repeat case_bool_decide; cbn; try discriminate. exact IH.
Qed.

Lemma nb_Prompt_ask (p : prompt_msg) (cs : option (list pyval)) (d : ask_default) :
  no_bound (Prompt_ask p cs d).
Proof.
  intros w. unfold Prompt_ask. cbn.
  destruct (read_answer cs d (answers w)) as [r rest] eqn:E. cbn.
  intros ->. apply (f_equal fst) in E. apply read_answer_raises in E. discriminate.
Qed.

Lemma nb_Confirm_ask (p : prompt_msg) (d : bool) : no_bound (Confirm_ask p d).
Proof.
  intros w. unfold Confirm_ask. cbn.
  destruct (read_confirm d (answers w)) as [r rest] eqn:E. cbn.
  intros ->. apply (f_equal fst) in E. apply read_confirm_raises in E. discriminate.
Qed.

Lemma nb_session_request (m : string) (u : url) (a : pyval) (j : option pyval) :
  no_bound (session_request m u a j).
Proof.
  intros w. unfold session_request. destruct (responses w) as [|[]]; discriminate.
Qed.

Lemma nb_get_user_token (api : pyval) : no_bound (_get_user_token api).
Proof. intros w. unfold _get_user_token. destruct (user_token w); discriminate. Qed.

Lemma nb_default_project_name : no_bound default_project_name.
Proof. intros w. discriminate. Qed.

Ltac pure_nb := unfold pure_no_bound; repeat case_match; congruence.

Lemma pnb_response_json (r : response) : pure_no_bound (response_json r).
Proof. unfold response_json. pure_nb. Qed.

Lemma pnb_raise_for_status (r : response) : pure_no_bound (raise_for_status r).
Proof. unfold raise_for_status. pure_nb. Qed.

Lemma pnb_py_getitem (v : pyval) (k : string) : pure_no_bound (py_getitem v k).
Proof. unfold py_getitem. pure_nb. Qed.

Lemma pnb_py_getitem_0 (v : pyval) : pure_no_bound (py_getitem_0 v).
Proof. unfold py_getitem_0. pure_nb. Qed.

Lemma pnb_py_get (v : pyval) (k : string) (d : pyval) : pure_no_bound (py_get v k d).
Proof. unfold py_get. pure_nb. Qed.

Lemma pnb_py_iter (v : pyval) : pure_no_bound (py_iter v).
Proof. unfold py_iter. pure_nb. Qed.

Lemma pnb_list_getitem_0 (l : list pyval) : pure_no_bound (list_getitem_0 l).
Proof. unfold list_getitem_0. pure_nb. Qed.

Lemma pnb_re_match_project_name (v : pyval) : pure_no_bound (re_match_project_name v).
Proof. unfold re_match_project_name. pure_nb. Qed.

Lemma pnb_organization_names (items : list pyval) :
  pure_no_bound (mapM (fun item => py_getitem item "organization_name") items).
Proof.
  unfold pure_no_bound. induction items as [|item items IH]; cbn; [discriminate |].
  unfold mbind, result_bind, mret, result_ret.
  pose proof (pnb_py_getitem item "organization_name") as H. unfold pure_no_bound in H.
  destruct (py_getitem item "organization_name"); [| congruence].
  destruct (mapM _ items); [discriminate | congruence].
Qed.

Create HintDb no_bound.

#[local] Hint Resolve nb_ret nb_lift nb_fmap nb_emit nb_Prompt_ask nb_Confirm_ask
  nb_session_request nb_get_user_token nb_default_project_name
  pnb_response_json pnb_raise_for_status pnb_py_getitem pnb_py_getitem_0 pnb_py_get
  pnb_py_iter pnb_list_getitem_0 pnb_re_match_project_name pnb_organization_names
  : no_bound.

(** Break a computation into its steps and settle each of them. *)
Ltac nb_steps :=
  repeat first
    [ apply nb_bind; [| intros]
    | apply nb_try; [| intros]
    | apply nb_if
    | apply nb_raise; discriminate
    | apply nb_fmap
    | solve [auto with no_bound]
    | solve [intros ?; cbn; discriminate]
    | match goal with
      | |- no_bound (match ?x with _ => _ end) => destruct x
      | |- no_bound (let '(_, _) := ?x in _) => destruct x
      end ].

(** A loop whose continuing rounds consume something of the world, and whose
    bound exceeds what there is to consume, does not stop on its bound. *)
Lemma while_true_no_bound {St A : Type} (measure : world -> nat)
    (body : St -> M (St + A)) :
  (forall st, no_bound (body st)) ->
  (forall st w st' w', body st w = (Ok (inl st'), w') -> measure w' < measure w) ->
  forall fuel st w, measure w < fuel ->
    fst (while_true fuel body st w) <> Raise LoopBound.
Proof.
  intros Hnb Hdec fuel. induction fuel as [|fuel IH]; intros st w Hlt; [lia |].
  rewrite while_true_step. specialize (Hnb st w). specialize (Hdec st w).
  destruct (body st w) as [[[st'|a]|e] w1]; cbn in *.
  - apply IH. specialize (Hdec st' w1 eq_refl). lia.
  - discriminate.
  - congruence.
Qed.

Lemma nb_reprompt_invalid_name (d : ask_default) (name : pyval) :
  no_bound (reprompt_invalid_name d name).
Proof. unfold reprompt_invalid_name. nb_steps. Qed.

Lemma reprompt_invalid_name_consumes (d : ask_default) (name name' : pyval)
    (w w' : world) :
  reprompt_invalid_name d name w = (Ok (inl name'), w') ->
  length (answers w') < length (answers w).
Proof.
  rewrite reprompt_invalid_name_cases.
  destruct (py_truthy name); [| discriminate].
  destruct (re_match_project_name name) as [[]|e]; try discriminate.
  pose proof (Prompt_ask_world PromptNameInvalid None d w) as (_ & _ & _ & Hlen).
  unfold fmap, M_fmap.
  destruct (Prompt_ask PromptNameInvalid None d w) as [[a|e] w1]; cbn in *;
    [| discriminate].
  intros [= <- <-]. eauto.
Qed.

Lemma nb_valid_project_name (d : ask_default) (name : pyval) :
  no_bound (valid_project_name d name).
Proof.
  intros w. unfold valid_project_name.
  apply (while_true_no_bound (fun w => length (answers w))).
  - intros st. apply nb_reprompt_invalid_name.
  - intros st w0 st' w'. apply reprompt_invalid_name_consumes.
  - lia.
Qed.

Lemma nb_submit_project_name (api org : pyval) (tok : string) (name : pyval) :
  no_bound (submit_project_name api org tok name).
Proof. unfold submit_project_name. nb_steps. Qed.

Lemma session_request_consumes (m : string) (u : url) (a : pyval) (j : option pyval)
    (w w' : world) (r : response) :
  session_request m u a j w = (Ok r, w') ->
  length (responses w') < length (responses w).
Proof.
  unfold session_request. destruct (responses w) as [|[msg|r'] rest]; try discriminate.
  intros [= <- <-]. cbn. lia.
Qed.

Lemma submit_project_name_consumes (api org : pyval) (tok : string) (name : pyval)
    (w w' : world) (st' : pyval * ask_default * prompt_msg) :
  submit_project_name api org tok name w = (Ok (inl st'), w') ->
  length (responses w') < length (responses w).
Proof.
  unfold submit_project_name.
  unfold mbind at 1. unfold M_bind, try_except.
  unfold mbind at 1. unfold M_bind.
  destruct (session_request _ _ _ _ w) as [[r|e] w1] eqn:E.
  - apply session_request_consumes in E.
    match goal with
    | |- context [?m w1] =>
        assert (forall w0 x w2, m w0 = (x, w2) -> responses w2 = responses w0) as Hsame
    end.
    { intros w0 x w2. run_M. repeat case_match; intros; simplify_eq; reflexivity. }
    match goal with
    | |- context [?m w1] => destruct (m w1) as [[[st1|r1]|e1] w2] eqn:E2
    end.
    + apply Hsame in E2. intros [= <- <-]. congruence.
    + apply Hsame in E2. run_M. destruct (response_json r1); discriminate.
    + destruct (is_RequestException e1); cbn; discriminate.
  - destruct (is_RequestException e); cbn; discriminate.
Qed.

Lemma create_project_round_consumes (api org : pyval) (tok : string) (force : bool)
    (st st' : pyval * ask_default * prompt_msg) (w w' : world) :
  create_project_round api org tok force st w = (Ok (inl st'), w') ->
  length (responses w') < length (responses w).
Proof.
  unfold create_project_round. destruct st as [[name d] p].
  unfold mbind, M_bind.
  match goal with
  | |- context [(if ?b then ?m1 else ?m2) w] =>
      assert (forall (w0 : world) (x : result pyval) (w1 : world),
                (if b then m1 else m2) w0 = (x, w1) ->
                responses w1 = responses w0) as Hp
  end.
  { intros w0 x w1. destruct (force || negb (py_truthy name)).
    - pose proof (Prompt_ask_world p None d w0) as (_ & Hr & _). intros E.
      rewrite E in Hr. exact Hr.
    - intros [= <- <-]. reflexivity. }
  match goal with
  | |- context [(if ?b then ?m1 else ?m2) w] =>
      destruct ((if b then m1 else m2) w) as [[name1|e] w1] eqn:E1; [| discriminate]
  end.
  apply Hp in E1.
  destruct (valid_project_name d name1 w1) as [[name2|e] w2] eqn:E2; [| discriminate].
  apply valid_project_name_gate in E2 as (_ & Hr2 & _).
  intros E3. apply submit_project_name_consumes in E3. congruence.
Qed.

Lemma nb_create_project_round (api org : pyval) (tok : string) (force : bool)
    (st : pyval * ask_default * prompt_msg) :
  no_bound (create_project_round api org tok force st).
Proof.
  unfold create_project_round. destruct st as [[name d] p].
  apply nb_bind; [apply nb_if; auto with no_bound | intros].
  apply nb_bind; [apply nb_valid_project_name | intros].
  apply nb_submit_project_name.
Qed.

Lemma nb_create_project_loop (api org : pyval) (tok : string) (force : bool)
    (st : pyval * ask_default * prompt_msg) :
  no_bound (create_project_loop api org tok force st).
Proof.
  intros w. unfold create_project_loop.
  apply (while_true_no_bound (fun w => length (responses w))).
  - intros st0. apply nb_create_project_round.
  - intros st0 w0 st' w'. apply create_project_round_consumes.
  - lia.
Qed.

Lemma nb_checked_request (m : string) (u : url) (tok msg : string) :
  no_bound (checked_request m u tok msg).
Proof. unfold checked_request. nb_steps. Qed.

Lemma nb_get_user_for_token (tok : string) (api : pyval) :
  no_bound (_get_user_for_token tok api).
Proof. unfold _get_user_for_token. pose proof nb_checked_request. nb_steps. Qed.

(** [create_new_project] always ends in a [return] or a Python exception:
    the bounds of its loops are never reached. *)
Lemma create_new_project_terminates (api : pyval) (organization : option string)
    (default_organization : bool) (project_name : pyval) (force : bool) :
  no_bound (create_new_project api organization default_organization project_name force).
Proof.
  unfold create_new_project.
  pose proof nb_checked_request. pose proof nb_get_user_for_token.
  pose proof nb_create_project_loop.
  nb_steps.
Qed.

(** ** Every submitted name went through the gate *)

Lemma gated_add_event (e : event) (w : world) :
  gated w ->
  match submitted_name e with
  | Some v => name_passes_gate v = true
  | None => True
  end ->
  gated (add_event e w).
Proof.
  unfold gated, submissions. cbn. intros Hw He. rewrite omap_app.
  apply Forall_app. split; [exact Hw |]. cbn.
  destruct (submitted_name e); [by repeat constructor | constructor].
Qed.

Lemma kg_ret {A : Type} (a : A) (Q : A -> Prop) : Q a -> keeps_gate (mret a) Q.
Proof. intros H w Hw. cbn. split; [exact Hw |]. by intros ? [= <-]. Qed.

Lemma kg_weaken {A : Type} (m : M A) (Q Q' : A -> Prop) :
  keeps_gate m Q -> (forall a, Q a -> Q' a) -> keeps_gate m Q'.
Proof. intros Hm HQ w Hw. destruct (Hm w Hw) as [? ?]. split; auto. Qed.

Lemma kg_raise {A : Type} (e : exn) (Q : A -> Prop) : keeps_gate (raise e) Q.
Proof. intros w Hw. cbn. split; [exact Hw | discriminate]. Qed.

Lemma kg_lift {A : Type} (r : result A) : keeps_gate (lift r) (fun a => r = Ok a).
Proof. intros w Hw. cbn. split; [exact Hw | auto]. Qed.

Lemma kg_bind {A B : Type} (m : M A) (f : A -> M B) (Q1 : A -> Prop) (Q2 : B -> Prop) :
  keeps_gate m Q1 -> (forall a, Q1 a -> keeps_gate (f a) Q2) ->
  keeps_gate (m ≫= f) Q2.
Proof.
  intros Hm Hf w Hw. unfold mbind, M_bind. destruct (Hm w Hw) as [H1 H2].
  destruct (m w) as [[a|e] w1]; cbn in *.
  - apply Hf; auto.
  - split; [exact H1 | discriminate].
Qed.

Lemma kg_fmap {A B : Type} (g : A -> B) (m : M A) (Q : A -> Prop) (Q' : B -> Prop) :
  keeps_gate m Q -> (forall a, Q a -> Q' (g a)) -> keeps_gate (g <$> m) Q'.
Proof.
  intros Hm HQ w Hw. unfold fmap, M_fmap. destruct (Hm w Hw) as [H1 H2].
  destruct (m w) as [[a|e] w1]; cbn in *.
  - split; [exact H1 |]. intros ? [= <-]. auto.
  - split; [exact H1 | discriminate].
Qed.

Lemma kg_try {A : Type} (body : M A) (handled : exn -> bool) (handler : exn -> M A)
    (Q : A -> Prop) :
  keeps_gate body Q -> (forall e, keeps_gate (handler e) Q) ->
  keeps_gate (try_except body handled handler) Q.
Proof.
  intros Hb Hh w Hw. unfold try_except. destruct (Hb w Hw) as [H1 H2].
  destruct (body w) as [[a|e] w1]; cbn in *.
  - split; [exact H1 |]. intros ? [= <-]. auto.
  - destruct (handled e); [apply Hh; exact H1 |]. split; [exact H1 | discriminate].
Qed.

Lemma kg_if {A : Type} (b : bool) (m1 m2 : M A) (Q : A -> Prop) :
  keeps_gate m1 Q -> keeps_gate m2 Q -> keeps_gate (if b then m1 else m2) Q.
Proof. by destruct b. Qed.

Lemma kg_emit (e : event) :
  submitted_name e = None -> keeps_gate (emit e) (fun _ => True).
Proof.
  intros He w Hw. cbn. split; [| auto]. apply gated_add_event; [exact Hw |].
  by rewrite He.
Qed.

Lemma gated_set_answers (ans : list answer) (w : world) :
  gated w -> gated (set_answers ans w).
Proof. auto. Qed.

Lemma gated_set_responses (rs : list http_outcome) (w : world) :
  gated w -> gated (set_responses rs w).
Proof. auto. Qed.

Lemma kg_Prompt_ask (p : prompt_msg) (cs : option (list pyval)) (d : ask_default) :
  keeps_gate (Prompt_ask p cs d) (fun _ => True).
Proof.
  intros w Hw. unfold Prompt_ask.
  destruct (read_answer cs d (answers (add_event (EPrompt p cs d) w))) as [r rest].
  cbn. split; [| auto]. apply gated_set_answers. by apply gated_add_event.
Qed.

Lemma kg_Confirm_ask (p : prompt_msg) (d : bool) :
  keeps_gate (Confirm_ask p d) (fun _ => True).
Proof.
  intros w Hw. unfold Confirm_ask.
  destruct (read_confirm d (answers (add_event (EConfirm p d) w))) as [r rest].
  cbn. split; [| auto]. apply gated_set_answers. by apply gated_add_event.
Qed.

Lemma kg_session_request (m : string) (u : url) (a : pyval) (j : option pyval) :
  match submitted_name (ERequest m u a j) with
  | Some v => name_passes_gate v = true
  | None => True
  end ->
  keeps_gate (session_request m u a j) (fun _ => True).
Proof.
  intros He w Hw. unfold session_request.
  assert (gated (set_responses (tail (responses w)) (add_event (ERequest m u a j) w))).
  { apply gated_set_responses. by apply gated_add_event. }
  destruct (responses w) as [|[]]; cbn; auto.
Qed.

Lemma kg_get_user_token (api : pyval) : keeps_gate (_get_user_token api) (fun _ => True).
Proof. intros w Hw. unfold _get_user_token. destruct (user_token w); cbn; auto. Qed.

Lemma kg_default_project_name : keeps_gate default_project_name (fun _ => True).
Proof. intros w Hw. cbn. auto. Qed.

Lemma kg_while_true {St A : Type} (body : St -> M (St + A)) (P : St -> Prop)
    (Q : A -> Prop) :
  (forall st, P st ->
     keeps_gate (body st) (fun r => match r with inl st' => P st' | inr a => Q a end)) ->
  forall fuel st, P st -> keeps_gate (while_true fuel body st) Q.
Proof.
  intros Hbody fuel. induction fuel as [|fuel IH]; intros st Hst.
  - apply kg_raise.
  - cbn [while_true]. eapply kg_bind; [apply Hbody; exact Hst |].
    intros [st'|a] Hr; [apply IH; exact Hr | apply kg_ret; exact Hr].
Qed.

Lemma kg_valid_project_name (d : ask_default) (name : pyval) :
  keeps_gate (valid_project_name d name) (fun v => name_passes_gate v = true).
Proof.
  intros w. unfold valid_project_name.
  apply (kg_while_true _ (fun _ => True)); [| exact I].
  clear. intros name _ w Hw. rewrite reprompt_invalid_name_cases.
  unfold name_passes_gate.
  destruct (py_truthy name) eqn:Ht; cbn.
  - destruct (re_match_project_name name) as [[]|e] eqn:Hm; cbn.
    + split; [exact Hw |]. intros ? [= <-]. by rewrite Ht, Hm.
    + apply (kg_fmap inl _ (fun _ => True)); [apply kg_Prompt_ask | auto | exact Hw].
    + split; [exact Hw | discriminate].
  - split; [exact Hw |]. intros ? [= <-]. by rewrite Ht.
Qed.

Lemma kg_ret_any {A : Type} (a : A) : keeps_gate (mret a) (fun _ => True).
Proof. by apply kg_ret. Qed.

Lemma kg_lift_any {A : Type} (r : result A) : keeps_gate (lift r) (fun _ => True).
Proof. eapply kg_weaken; [apply kg_lift | auto]. Qed.

Lemma kg_bind_any {A B : Type} (m : M A) (f : A -> M B) (Q : B -> Prop) :
  keeps_gate m (fun _ => True) -> (forall a, keeps_gate (f a) Q) ->
  keeps_gate (m ≫= f) Q.
Proof. intros Hm Hf. eapply kg_bind; [exact Hm | auto]. Qed.

Lemma kg_fmap_any {A B : Type} (g : A -> B) (m : M A) :
  keeps_gate m (fun _ => True) -> keeps_gate (g <$> m) (fun _ => True).
Proof. intros Hm. eapply kg_fmap; [exact Hm | auto]. Qed.

Lemma kg_request_no_json (m : string) (u : url) (a : pyval) :
  keeps_gate (session_request m u a None) (fun _ => True).
Proof. by apply kg_session_request. Qed.

Lemma kg_print (msg : string) : keeps_gate (print msg) (fun _ => True).
Proof. by apply kg_emit. Qed.

Create HintDb keeps_gate.

#[local] Hint Resolve kg_ret_any kg_lift_any kg_fmap_any kg_Prompt_ask kg_Confirm_ask
  kg_request_no_json kg_get_user_token kg_default_project_name kg_print kg_raise
  : keeps_gate.

Ltac kg_steps :=
  repeat first
    [ apply kg_bind_any; [| intros]
    | apply kg_try; [| intros]
    | apply kg_if
    | solve [auto with keeps_gate]
    | solve [intros ? ?; cbn; auto]
    | match goal with
      | |- keeps_gate (match ?x with _ => _ end) _ => destruct x
      | |- keeps_gate (let '(_, _) := ?x in _) _ => destruct x
      end ].

Lemma submitted_name_create_project_request (api org : pyval) (tok : string)
    (name : pyval) :
  submitted_name (create_project_request api org tok name) = Some name.
Proof.
  unfold create_project_request, submitted_name. cbn.
  rewrite bool_decide_eq_true_2 by done. apply lookup_singleton_eq.
Qed.

Lemma kg_submit_project_name (api org : pyval) (tok : string) (name : pyval) :
  name_passes_gate name = true ->
  keeps_gate (submit_project_name api org tok name) (fun _ => True).
Proof.
  intros Hg. unfold submit_project_name.
  assert (keeps_gate
    (session_request "POST" (urljoin api "/v1/projects/{organization}" [org])
       (PStr tok) (Some (PDict {[ "project_name" := name ]}))) (fun _ => True)) as Hreq.
  { apply kg_session_request.
    change (ERequest _ _ _ _) with (create_project_request api org tok name).
    by rewrite submitted_name_create_project_request. }
  kg_steps.
Qed.

Lemma kg_create_project_round (api org : pyval) (tok : string) (force : bool)
    (st : pyval * ask_default * prompt_msg) :
  keeps_gate (create_project_round api org tok force st) (fun _ => True).
Proof.
  unfold create_project_round. destruct st as [[name d] p].
  apply kg_bind_any; [apply kg_if; auto with keeps_gate | intros name1].
  eapply kg_bind; [apply kg_valid_project_name |].
  intros name2 Hg. by apply kg_submit_project_name.
Qed.

Lemma kg_create_project_loop (api org : pyval) (tok : string) (force : bool)
    (st : pyval * ask_default * prompt_msg) :
  keeps_gate (create_project_loop api org tok force st) (fun _ => True).
Proof.
  intros w. unfold create_project_loop.
  apply (kg_while_true _ (fun _ => True)); [| exact I].
  intros st0 _. eapply kg_weaken; [apply kg_create_project_round |].
  by intros [].
Qed.

Lemma kg_checked_request (m : string) (u : url) (tok msg : string) :
  keeps_gate (checked_request m u tok msg) (fun _ => True).
Proof. unfold checked_request. kg_steps. Qed.

Lemma kg_get_user_for_token (tok : string) (api : pyval) :
  keeps_gate (_get_user_for_token tok api) (fun _ => True).
Proof. unfold _get_user_for_token. pose proof kg_checked_request. kg_steps. Qed.

(** Whatever the user types and the server replies, every project name that
    [create_new_project] submits is falsy or matches the pattern. *)
Lemma kg_create_new_project (api : pyval) (organization : option string)
    (default_organization : bool) (project_name : pyval) (force : bool) :
  keeps_gate (create_new_project api organization default_organization project_name force)
    (fun _ => True).
Proof.
  unfold create_new_project.
  pose proof kg_checked_request. pose proof kg_get_user_for_token.
  pose proof kg_create_project_loop.
  kg_steps.
Qed.

(** ** Claims on project creation *)

(** A name the user accepts from a sanitized default goes through the
    validation loop untouched: no prompt, nothing read. *)
Lemma valid_project_name_sanitized (d : ask_default) (name : string) (w : world) :
  valid_project_name d (PStr (sanitize_project_name name)) w
  = (Ok (PStr (sanitize_project_name name)), w).
Proof.
  unfold valid_project_name. rewrite while_true_step, reprompt_invalid_name_cases.
  destruct (sanitize_project_name_shape name) as (Hne & Hall & _).
  cbn [py_truthy re_match_project_name]. rewrite Hne.
  by rewrite lower_alnum_matches_pattern.
Qed.

(** C10: every output of [sanitize_project_name] matches the project-name
    pattern and is at most 41 characters long; so the default project name
    offered at the prompt, which is the sanitized name of the working
    directory, passes the validation loop without another prompt. *)
Theorem sanitize_project_name_valid :
  (forall name,
     matches_project_name_pattern (sanitize_project_name name) = true /\
     String.length (sanitize_project_name name) <= 41) /\
  (forall (d : ask_default) (w w' : world),
     exists default_name,
       default_project_name w = (Ok default_name, w) /\
       valid_project_name d (PStr default_name) w' = (Ok (PStr default_name), w')).
Proof.
  split.
  - intros name. destruct (sanitize_project_name_shape name) as (Hne & Hall & Hlen).
    split; [by apply lower_alnum_matches_pattern | exact Hlen].
  - intros d w w'. eexists. split; [reflexivity |].
    apply valid_project_name_sanitized.
Qed.

(** C6: the code submits a name that does not match the pattern.  The
    requested name is taken (409); the prompt that follows has no default
    (the comment on [project_name_default = ...] says that the value is
    required), the user presses Enter, and the empty name, which the loop
    condition [project_name and not re.match(...)] leaves unchecked, is
    posted and accepted. *)
Lemma create_new_project_submits_empty_name :
  submissions (snd (create_new_project (PStr "https://logfire-api.pydantic.dev")
                      (Some "acme") false (PStr "taken") false name_taken_then_enter))
    = [PStr "taken"; PStr EmptyString] /\
  matches_project_name_pattern EmptyString = false /\
  fst (create_new_project (PStr "https://logfire-api.pydantic.dev")
         (Some "acme") false (PStr "taken") false name_taken_then_enter)
    = Ok created_project.
Proof. vm_compute. auto. Qed.

(** What holds of the gate and of the retries, the empty name apart: in
    [create_new_project] every submitted project name is empty (falsy) or
    matches the pattern, and a non-empty name that does not match is asked
    again instead of being submitted.  A 409 reply makes the loop continue
    with a prompt that names the rejected name, and a 422 reply whose first
    error is located at [body, project_name] makes it continue with a prompt
    that carries the server's message; in both cases the next round asks
    with no default and nothing is raised.  A reply with any other status
    outside 200..299, and a 422 whose first error is located elsewhere,
    raise [LogfireConfigError]. *)
Theorem create_new_project_gate_and_retries :
  (forall api organization default_organization project_name force w,
     gated w ->
     gated (snd (create_new_project api organization default_organization
                   project_name force w))) /\
  (forall d name w,
     py_truthy name = true ->
     re_match_project_name name = Ok false ->
     reprompt_invalid_name d name w = (inl <$> Prompt_ask PromptNameInvalid None d) w) /\
  (forall api org tok name w r rest,
     responses w = HttpResponds r :: rest ->
     status_code r = 409%Z ->
     submit_project_name api org tok name w =
       (Ok (inl (PNone, NoDefault, PromptNameTaken name)),
        set_responses rest (add_event (create_project_request api org tok name) w))) /\
  (forall api org tok name w r rest data detail error loc msg,
     responses w = HttpResponds r :: rest ->
     status_code r = 422%Z ->
     body r = Some data ->
     py_getitem data "detail" = Ok detail ->
     py_getitem_0 detail = Ok error ->
     py_getitem error "loc" = Ok loc ->
     py_eq_str_list loc ["body"; "project_name"] = true ->
     py_getitem error "msg" = Ok msg ->
     submit_project_name api org tok name w =
       (Ok (inl (PNone, NoDefault, PromptNameRejected msg)),
        set_responses rest (add_event (create_project_request api org tok name) w))) /\
  (forall api org tok force prompt w,
     create_project_round api org tok force (PNone, NoDefault, prompt) w =
       (name ← Prompt_ask prompt None NoDefault;
        name ← valid_project_name NoDefault name;
        submit_project_name api org tok name) w) /\
  (forall api org tok name w r rest,
     responses w = HttpResponds r :: rest ->
     status_code r <> 409%Z ->
     status_code r <> 422%Z ->
     (status_code r < 200 \/ 300 <= status_code r)%Z ->
     fst (submit_project_name api org tok name w) =
       Raise (LogfireConfigError "Error creating new project.")) /\
  (forall api org tok name w r rest data detail error loc,
     responses w = HttpResponds r :: rest ->
     status_code r = 422%Z ->
     body r = Some data ->
     py_getitem data "detail" = Ok detail ->
     py_getitem_0 detail = Ok error ->
     py_getitem error "loc" = Ok loc ->
     py_eq_str_list loc ["body"; "project_name"] = false ->
     fst (submit_project_name api org tok name w) =
       Raise (LogfireConfigError "Error creating new project.")).
Proof.
  repeat split.
  - intros. by apply kg_create_new_project.
  - intros. by apply reprompt_invalid_name_asks.
  - intros. by apply (submit_project_name_409 _ _ _ _ _ r).
  - intros. by eapply submit_project_name_422.
  - intros. unfold create_project_round. rewrite orb_true_r. reflexivity.
  - intros. by eapply submit_project_name_other_error.
  - intros. by eapply submit_project_name_422_elsewhere.
Qed.

Lemma create_new_project_gate_and_retries_witness :
  gated (snd (create_new_project (PStr "https://logfire-api.pydantic.dev")
                (Some "acme") false (PStr "taken") false name_taken_then_enter)) /\
  fst (submit_project_name (PStr "https://logfire-api.pydantic.dev") (PStr "acme")
         "user-token" (PStr "my-project")
         (initial_world ∅ [] [reply 500 PNone] (Some "user-token")))
    = Raise (LogfireConfigError "Error creating new project.").
Proof.
  split.
  - apply (proj1 create_new_project_gate_and_retries). constructor.
  - apply (proj1 (proj2 (proj2 (proj2 (proj2 (proj2 create_new_project_gate_and_retries)))))
             _ _ _ _ _ {| status_code := 500; body := Some PNone |} []).
    + reflexivity.
    + cbn. lia.
    + cbn. lia.
    + cbn. lia.
Defined.

(** ** A Hoare logic for the methods of the configuration object *)

Lemma h_ret {A : Type} (P : core -> Prop) (a : A) (Q : A -> core -> Prop)
    (E : core -> Prop) :
  (forall c, P c -> Q a c) -> hoare P (mret a) Q E.
Proof. intros H p Hp. cbn. auto. Qed.

Lemma h_bind {A B : Type} (P : core -> Prop) (m : CM A) (f : A -> CM B)
    (Q1 : A -> core -> Prop) (Q2 : B -> core -> Prop) (E : core -> Prop) :
  hoare P m Q1 E -> (forall a, hoare (Q1 a) (f a) Q2 E) -> hoare P (m ≫= f) Q2 E.
Proof.
  intros Hm Hf p Hp. unfold mbind, CM_bind. specialize (Hm p Hp).
  destruct (m p) as [[a|e] p1]; [apply Hf; exact Hm | exact Hm].
Qed.

Lemma h_conseq {A : Type} (P P' : core -> Prop) (m : CM A)
    (Q Q' : A -> core -> Prop) (E E' : core -> Prop) :
  hoare P m Q E ->
  (forall c, P' c -> P c) -> (forall a c, Q a c -> Q' a c) -> (forall c, E c -> E' c) ->
  hoare P' m Q' E'.
Proof.
  intros Hm HP HQ HE p Hp. specialize (Hm p (HP _ Hp)).
  destruct (m p) as [[a|e] p1]; auto.
Qed.

Lemma h_weaken_pre {A : Type} (P P' : core -> Prop) (m : CM A)
    (Q : A -> core -> Prop) (E : core -> Prop) :
  (forall c, P' c -> P c) -> hoare P m Q E -> hoare P' m Q E.
Proof. intros HP Hm. eapply h_conseq; eauto. Qed.

Lemma h_get_self (P : core -> Prop) (E : core -> Prop) :
  hoare P get_self (fun a c => P c /\ a = self_config c) E.
Proof. intros p Hp. cbn. auto. Qed.

Lemma h_modify_core (P : core -> Prop) (f : core -> core) (Q : unit -> core -> Prop)
    (E : core -> Prop) :
  (forall c, P c -> Q tt (f c)) -> hoare P (modify_core f) Q E.
Proof. intros H p Hp. cbn. auto. Qed.

Lemma frames_ret {A : Type} (P : core -> Prop) (a : A) : frames P (mret a).
Proof. by apply h_ret. Qed.

Lemma frames_bind {A B : Type} (P : core -> Prop) (m : CM A) (f : A -> CM B) :
  frames P m -> (forall a, frames P (f a)) -> frames P (m ≫= f).
Proof. intros Hm Hf. eapply h_bind; [exact Hm | exact Hf]. Qed.

Lemma frames_in_world {A : Type} (P : core -> Prop) (m : M A) : frames P (in_world m).
Proof.
  intros p Hp. unfold in_world. destruct (m (outside p)) as [[a|e] w]; exact Hp.
Qed.

Lemma frames_modify_core (P : core -> Prop) (f : core -> core) :
  (forall c, P c -> P (f c)) -> frames P (modify_core f).
Proof. intros H. by apply h_modify_core. Qed.

Lemma frames_get_self (P : core -> Prop) : frames P get_self.
Proof. intros p Hp. exact Hp. Qed.

Lemma frames_if {A : Type} (P : core -> Prop) (b : bool) (m1 m2 : CM A) :
  frames P m1 -> frames P m2 -> frames P (if b then m1 else m2).
Proof. by destruct b. Qed.

(** Split a method into its statements, up to the assignments, which are
    left as goals. *)
Ltac frame_steps :=
  repeat match goal with
    | |- frames _ (_ ≫= _) => apply frames_bind; [| intros]
    | |- frames _ (in_world _) => apply frames_in_world
    | |- frames _ (mret _) => apply frames_ret
    | |- frames _ get_self => apply frames_get_self
    | |- frames _ (modify_core _) => apply frames_modify_core; intros
    | |- frames _ (modify_self _) => unfold modify_self
    | |- frames _ (if _ then _ else _) => apply frames_if
    | |- frames _ (match ?x with _ => _ end) => destruct x
    end.

(** ** Registration with OpenTelemetry *)

Section Registration.
Variables (flag : bool) (tracer meter : nat).

Let P := registration_is flag tracer meter.

Lemma reg_on_self (f : LogfireConfig -> LogfireConfig) (c : core) :
  _has_set_providers (f (self_config c)) = _has_set_providers (self_config c) ->
  is_GLOBAL_CONFIG (f (self_config c)) = is_GLOBAL_CONFIG (self_config c) ->
  P c -> P (on_self f c).
Proof. unfold P, registration_is. cbn. intros -> ->. auto. Qed.

Lemma reg_tracer_provider_add_span_processor (q : SpanProcessor) :
  frames P (tracer_provider_add_span_processor q).
Proof.
  unfold tracer_provider_add_span_processor. frame_steps. by apply reg_on_self.
Qed.

Lemma reg_add_span_processor (q : SpanProcessor) (pending : list SpanProcessor) :
  frames P (add_span_processor q pending).
Proof.
  unfold add_span_processor. pose proof reg_tracer_provider_add_span_processor.
  frame_steps; auto.
Qed.

Lemma reg_add_span_processors (qs pending : list SpanProcessor) :
  frames P (add_span_processors qs pending).
Proof.
  revert pending. induction qs as [|q qs IH]; intros pending; cbn.
  - apply frames_ret.
  - apply frames_bind; [apply reg_add_span_processor | auto].
Qed.

Lemma reg_use_stored_or_new_credentials : frames P use_stored_or_new_credentials.
Proof. unfold use_stored_or_new_credentials. frame_steps; by apply reg_on_self. Qed.

Lemma reg_export_to_logfire (pending : list SpanProcessor)
    (metric_readers : list MetricReader) :
  frames P (export_to_logfire pending metric_readers).
Proof.
  unfold export_to_logfire. pose proof reg_add_span_processor. frame_steps; auto.
Qed.
End Registration.

Lemma h_emit (P : core -> Prop) (e : event) (E : core -> Prop) :
  hoare P (in_world (emit e)) (fun _ => P) E.
Proof. intros p Hp. exact Hp. Qed.

Lemma h_frame_bind {A B : Type} (P : core -> Prop) (m : CM A) (f : A -> CM B)
    (Q : B -> core -> Prop) :
  frames P m -> (forall a, hoare P (f a) Q P) -> hoare P (m ≫= f) Q P.
Proof. intros Hm Hf. eapply h_bind; [exact Hm | exact Hf]. Qed.

Lemma h_frame_bind_any {A B : Type} (P : core -> Prop) (m : CM A) (f : A -> CM B)
    (Q : B -> core -> Prop) :
  frames P m -> (forall a, hoare P (f a) Q (fun _ => True)) ->
  hoare P (m ≫= f) Q (fun _ => True).
Proof.
  intros Hm Hf. eapply h_bind; [| exact Hf].
  eapply h_conseq; [exact Hm | auto | auto | auto].
Qed.

Lemma h_frame_bind_to {A B : Type} (P : core -> Prop) (m : CM A) (f : A -> CM B)
    (Q : B -> core -> Prop) (E : core -> Prop) :
  frames P m -> (forall c, P c -> E c) -> (forall a, hoare P (f a) Q E) ->
  hoare P (m ≫= f) Q E.
Proof.
  intros Hm HE Hf. eapply h_bind; [| exact Hf].
  eapply h_conseq; [exact Hm | auto | auto | exact HE].
Qed.

Lemma h_pre {A : Type} (P : core -> Prop) (phi : Prop) (m : CM A)
    (Q : A -> core -> Prop) (E : core -> Prop) :
  (forall c, P c -> phi) -> (phi -> hoare P m Q E) -> hoare P m Q E.
Proof. intros Hphi Hm p Hp. apply Hm; eauto. Qed.

Create HintDb frames.

#[local] Hint Resolve reg_tracer_provider_add_span_processor reg_add_span_processor
  reg_add_span_processors reg_use_stored_or_new_credentials reg_export_to_logfire
  : frames.

(** The statements of [_initialize] that come before the registration keep
    the registration state. *)
Ltac reg_frame :=
  first
    [ solve [auto with frames]
    | solve [frame_steps; first [ solve [auto with frames] | by apply reg_on_self ]] ].

(** One [configure] call on the global configuration: when it returns, the
    providers are registered, and they have been registered by this call
    exactly when they were not before; when it raises, nothing has been
    registered by it. *)
Lemma configure_registration (flag : bool) (tracer meter : nat)
    (resolved : _LogfireConfigData) :
  hoare (registration_is flag tracer meter) (configure resolved)
    (fun _ => registration_is true (if flag then tracer else S tracer)
                (if flag then meter else S meter))
    (registration_is flag tracer meter).
Proof.
  unfold configure, initialize.
  set (P := registration_is flag tracer meter).
  apply (h_bind _ _ _ (fun _ c => P c /\ _initialized (self_config c) = false)).
  { apply h_modify_core. intros c Hc. split; [by apply reg_on_self | reflexivity]. }
  intros _.
  apply (h_bind _ _ _ (fun _ c => P c /\ _initialized (self_config c) = false)).
  { apply h_modify_core. intros c [Hc Hi]. split; [by apply reg_on_self | exact Hi]. }
  intros _. unfold _initialize.
  eapply h_bind; [apply h_get_self |]. intros self. cbn beta.
  apply (h_pre _ (_initialized self = false)); [intros c [[_ Hi] ->]; exact Hi |].
  intros ->.
  apply (h_weaken_pre P); [intros c [[Hc _] _]; exact Hc |].
  subst P.
  repeat match goal with
    | |- hoare _ (modify_self (set_meter_provider _) ≫= _) _ _ => fail 1
    | |- hoare _ (let '(_, _) := ?x in _) _ _ => destruct x
    | |- hoare _ (_ ≫= _) _ _ => apply h_frame_bind; [reg_frame | intros]
    end.
  apply h_frame_bind; [unfold modify_self; apply frames_modify_core; intros;
                       by apply reg_on_self |].
  intros _. eapply h_bind; [apply h_get_self |]. intros self'. cbn beta.
  apply (h_pre _ (is_GLOBAL_CONFIG self' = true /\ _has_set_providers self' = flag)).
  { intros c [(Hf & Hg & _) ->]. auto. }
  intros [-> ->].
  apply (h_weaken_pre (registration_is flag tracer meter));
    [intros c [Hc _]; exact Hc |].
  cbn [andb]. destruct flag; cbn [negb].
  - apply h_frame_bind; [apply frames_ret |]. intros _.
    apply h_modify_core. intros c Hc. by apply reg_on_self.
  - apply (h_bind _ _ _ (fun _ => registration_is true (S tracer) (S meter))).
    + apply (h_bind _ _ _ (fun _ => registration_is true tracer meter)).
      { apply h_modify_core. unfold registration_is. cbn. tauto. }
      intros _.
      apply (h_bind _ _ _ (fun _ => registration_is true (S tracer) meter)).
      { unfold trace_set_tracer_provider.
        apply (h_bind _ _ _ (fun _ => registration_is true (S tracer) meter)).
        - apply h_modify_core. unfold registration_is. cbn.
          intros c (? & ? & ? & ?). repeat split; congruence.
        - intros _. apply h_emit. }
      intros _. unfold metrics_set_meter_provider.
      apply (h_bind _ _ _ (fun _ => registration_is true (S tracer) (S meter))).
      * apply h_modify_core. unfold registration_is. cbn.
        intros c (? & ? & ? & ?). repeat split; congruence.
      * intros _. apply h_emit.
    + intros _. apply h_modify_core. intros c Hc. by apply reg_on_self.
Qed.

Lemma configure_all_registration (calls : list _LogfireConfigData) (p : process)
    (flag : bool) :
  registration_is flag (Nat.b2n flag) (Nat.b2n flag) (inside p) ->
  registration_is (flag || existsb is_Ok (configure_all calls p).1)
    (Nat.b2n (flag || existsb is_Ok (configure_all calls p).1))
    (Nat.b2n (flag || existsb is_Ok (configure_all calls p).1))
    (inside (configure_all calls p).2).
Proof.
  revert p flag. induction calls as [|resolved calls IH]; intros p flag Hp; cbn.
  - by rewrite orb_false_r.
  - pose proof (configure_registration flag _ _ resolved p Hp) as H.
    destruct (configure resolved p) as [[[]|e] p1]; cbn in H.
    + specialize (IH p1 true). destruct (configure_all calls p1) as [rs p2].
      cbn in *. rewrite orb_true_r. apply IH. by destruct flag.
    + specialize (IH p1 flag H). destruct (configure_all calls p1) as [rs p2].
      exact IH.
Qed.

(** C9: over any sequence of [configure] calls on the global configuration,
    [trace.set_tracer_provider] and [metrics.set_meter_provider] are called
    once if some call of the sequence returned, and not at all otherwise:
    the first initialization that succeeds registers the providers, and no
    later reconfiguration registers them again. *)
Theorem providers_registered_at_most_once (resolved0 : _LogfireConfigData) (w : world)
    (calls : list _LogfireConfigData) :
  let run := configure_all calls (fresh_process resolved0 w) in
  tracer_provider_registrations (inside run.2)
    = (if existsb is_Ok run.1 then 1 else 0) /\
  meter_provider_registrations (inside run.2)
    = (if existsb is_Ok run.1 then 1 else 0) /\
  _has_set_providers (self_config (inside run.2)) = existsb is_Ok run.1.
Proof.
  cbn zeta.
  pose proof (configure_all_registration calls (fresh_process resolved0 w) false) as H.
  cbn [orb] in H. destruct H as (Hf & _ & Ht & Hm).
  { repeat split. }
  rewrite Ht, Hm, Hf. by destruct (existsb _ _).
Qed.

(** ** The processor chain *)

Lemma same_wrapping_wrap (d d' : _LogfireConfigData) (q : SpanProcessor) :
  same_wrapping d d' -> wrap_span_processor d' q = wrap_span_processor d q.
Proof. intros (Ht & Hr & Hs). unfold wrap_span_processor. by rewrite Ht, Hr, Hs. Qed.

Section ProviderShape.
Variable d : _LogfireConfigData.

Lemma ok_on_self (f : LogfireConfig -> LogfireConfig) (c : core) :
  same_wrapping (cfg (self_config c)) (cfg (f (self_config c))) ->
  _tracer_provider (f (self_config c)) = _tracer_provider (self_config c) ->
  provider_ok d c -> provider_ok d (on_self f c).
Proof.
  unfold provider_ok, same_wrapping. cbn. intros (H1 & H2 & H3) -> [(? & ? & ?) Ht].
  split; [| exact Ht]. repeat split; congruence.
Qed.

Lemma ok_tracer_provider_add_span_processor (q : SpanProcessor) :
  registered_shape d q -> frames (provider_ok d) (tracer_provider_add_span_processor q).
Proof.
  intros Hq. unfold tracer_provider_add_span_processor. frame_steps.
  match goal with
  | H : provider_ok _ _ |- _ => destruct H as [Hw (t & Ht & Hs & Hall)]
  end.
  split; [exact Hw |].
  cbn. rewrite Ht. cbn. eexists. split; [reflexivity |]. cbn. split; [exact Hs |].
  apply Forall_app. split; [exact Hall | by constructor].
Qed.

Lemma ok_add_span_processor (q : SpanProcessor) (pending : list SpanProcessor) :
  Forall (wrapped_by d) pending ->
  hoare (provider_ok d) (add_span_processor q pending)
    (fun pending' c => provider_ok d c /\ Forall (wrapped_by d) pending')
    (provider_ok d).
Proof.
  intros Hp. unfold add_span_processor.
  eapply h_bind; [apply h_get_self |]. intros self. cbn beta.
  apply (h_pre _ (same_wrapping d (cfg self))); [by intros c [[Hw _] ->] |].
  intros Hw. apply (h_weaken_pre (provider_ok d)); [by intros c [Hc _] |].
  assert (wrapped_by d (wrap_span_processor (cfg self) q)) as Hq.
  { exists q. by apply same_wrapping_wrap. }
  eapply h_bind.
  { apply ok_tracer_provider_add_span_processor. by left. }
  intros ?. apply h_ret. intros c Hc. split; [exact Hc |].
  destruct (isinstance_pending _); [| exact Hp].
  apply Forall_app. split; [exact Hp | by constructor].
Qed.

Lemma ok_add_span_processors (qs pending : list SpanProcessor) :
  Forall (wrapped_by d) pending ->
  hoare (provider_ok d) (add_span_processors qs pending)
    (fun pending' c => provider_ok d c /\ Forall (wrapped_by d) pending')
    (provider_ok d).
Proof.
  revert pending. induction qs as [|q qs IH]; intros pending Hp; cbn.
  - apply h_ret. auto.
  - eapply h_bind; [by apply ok_add_span_processor |]. intros pending'. cbn beta.
    apply (h_pre _ (Forall (wrapped_by d) pending')); [by intros c [_ H] |].
    intros Hp'. apply (h_weaken_pre (provider_ok d)); [by intros c [Hc _] |].
    by apply IH.
Qed.

Lemma ok_use_stored_or_new_credentials :
  frames (provider_ok d) use_stored_or_new_credentials.
Proof.
  unfold use_stored_or_new_credentials. frame_steps.
  all: apply ok_on_self; [| reflexivity | assumption]; by repeat split.
Qed.
End ProviderShape.

(** After a pending list was returned together with [provider_ok], go on
    with the list known to be wrapped. *)
Ltac with_pending H :=
  cbn beta;
  match goal with
  | |- hoare (fun c => provider_ok ?d c /\ Forall (wrapped_by ?d) ?l) _ _ _ =>
      apply (h_pre _ (Forall (wrapped_by d) l)); [by intros ? [_ ?] |];
      intros H; apply (h_weaken_pre (provider_ok d)); [by intros ? [? _] |]
  end.

(** Until [configure] replaces the tracer provider, the one behind the proxy
    is the one that was there.  From then on, whatever [configure] does
    afterwards, the tracer provider it has built has the sampler the
    settings ask for and holds only processors that went through the local
    [add_span_processor], or the pending-span processor over such
    processors. *)
Lemma configure_provider (resolved : _LogfireConfigData)
    (before : option SDKTracerProvider) :
  hoare (fun c => _tracer_provider (self_config c) = before) (configure resolved)
    (fun _ => provider_ok resolved)
    (fun c => _tracer_provider (self_config c) = before \/ provider_ok resolved c).
Proof.
  unfold configure, initialize.
  apply (h_bind _ _ _ (fun _ c => _initialized (self_config c) = false /\
                                  _tracer_provider (self_config c) = before)).
  { apply h_modify_core. cbn. auto. }
  intros ?.
  apply (h_bind _ _ _ (fun _ c => (_initialized (self_config c) = false /\
                                   cfg (self_config c) = resolved) /\
                                  _tracer_provider (self_config c) = before)).
  { apply h_modify_core. cbn. intros c [? ?]. auto. }
  intros ?. unfold _initialize.
  eapply h_bind; [apply h_get_self |]. intros self. cbn beta.
  apply (h_pre _ (_initialized self = false /\ cfg self = resolved));
    [by intros c [[H _] ->] |].
  intros [-> ->].
  apply (h_weaken_pre (fun c => cfg (self_config c) = resolved /\
                               _tracer_provider (self_config c) = before));
    [by intros c [[[_ H] H'] _] |].
  do 2 (apply h_frame_bind_to; [apply frames_in_world | by intros c [_ ?]; left |];
        intros ?).
  apply (h_bind _ _ _ (fun _ c => cfg (self_config c) = resolved)).
  { intros p [Hp _]. exact Hp. }
  intros ?.
  apply (h_bind _ _ _ (fun _ => provider_ok resolved)).
  { apply h_modify_core. intros c Hc. split.
    - cbn. rewrite Hc. by repeat split.
    - eexists. cbn. split; [reflexivity |]. cbn. split; [reflexivity | constructor]. }
  intros ?.
  apply (h_conseq (provider_ok resolved) _ _ (fun _ => provider_ok resolved) _
           (provider_ok resolved)); [| auto | auto | by right].
  eapply h_bind; [apply ok_add_span_processors; constructor |].
  intros pending. with_pending Hp.
  apply (h_bind _ _ _ (fun pending' c => provider_ok resolved c /\
                                         Forall (wrapped_by resolved) pending')).
  { destruct (cfg_console resolved) as [options|].
    - apply h_frame_bind; [apply frames_in_world |]. intros cls.
      by apply ok_add_span_processor.
    - apply h_ret. auto. }
  clear pending Hp. intros pending. with_pending Hp.
  apply (h_bind _ _ _ (fun pr c => provider_ok resolved c /\
                                   Forall (wrapped_by resolved) pr.1)).
  { match goal with |- hoare _ (if ?b then _ else _) _ _ => destruct b end.
    - apply h_frame_bind.
      { apply frames_if; [apply ok_use_stored_or_new_credentials | apply frames_in_world]. }
      intros ?. apply h_frame_bind; [apply frames_get_self |]. intros self'.
      apply h_frame_bind; [apply frames_in_world |]. intros delay.
      eapply h_bind; [by apply ok_add_span_processor |].
      intros pending'. apply h_ret. auto.
    - apply h_ret. auto. }
  clear pending Hp. intros [pending readers]. with_pending Hp. cbn [fst] in Hp.
  apply h_frame_bind.
  { destruct pending as [|q pending]; [apply frames_ret |].
    apply ok_tracer_provider_add_span_processor. right. eauto. }
  intros ?.
  do 5 (apply h_frame_bind; [apply frames_in_world |]; intros ?).
  apply h_frame_bind.
  { match goal with |- frames _ (if ?b then _ else _) => destruct b end.
    - eapply h_conseq; [by apply (ok_add_span_processor resolved) | auto | | auto].
      by intros ? ? [? _].
    - apply frames_ret. }
  intros ?.
  apply h_frame_bind; [apply frames_in_world |]. intros ?.
  apply h_frame_bind.
  { unfold modify_self. apply frames_modify_core. intros c Hc.
    apply ok_on_self; [by repeat split | reflexivity | exact Hc]. }
  intros ?. apply h_frame_bind; [apply frames_get_self |]. intros self'.
  apply h_frame_bind.
  { apply frames_if; [| apply frames_ret].
    unfold trace_set_tracer_provider, metrics_set_meter_provider, modify_self.
    frame_steps.
    - apply ok_on_self; [by repeat split | reflexivity | assumption].
    - assumption.
    - assumption. }
  intros ?. unfold modify_self. apply h_modify_core. intros c Hc.
  apply ok_on_self; [by repeat split | reflexivity | exact Hc].
Qed.

Lemma tracer_provider_after_ok (resolved : _LogfireConfigData) (p : process) :
  installs_tracer_provider resolved p ->
  exists t, tracer_provider_after resolved p = Some t /\
            sampler t = expected_sampler resolved /\
            Forall (registered_shape resolved) (span_processors t).
Proof.
  unfold installs_tracer_provider, tracer_provider_after.
  pose proof (configure_provider resolved _ p eq_refl) as H.
  destruct (configure resolved p) as [[[]|e] p1]; cbn [fst snd].
  - intros _. by destruct H as [_ H].
  - intros [? | Hnew]; [discriminate |].
    destruct H as [H | [_ H]]; [by destruct Hnew | exact H].
Qed.

(** A malformed [OTEL_RESOURCE_ATTRIBUTES] makes [configure] raise before it
    has shut down or replaced anything: the proxy still holds the no-op
    provider. *)
Example configure_malformed_resource_attributes :
  let p := fresh_process local_settings
             (setenv "OTEL_RESOURCE_ATTRIBUTES" "foo" silent_world) in
  (configure local_settings p).1 = Raise ValueError /\
  tracer_provider_after local_settings p = None /\
  events (outside (configure local_settings p).2) = [] /\
  _initialized (self_config (inside (configure local_settings p).2)) = false.
Proof. vm_compute. auto. Qed.

(** A shutdown of the meter provider that times out makes [configure] raise
    after the tracer provider was replaced and before anything is
    registered; the next call, whose shutdown does not time out, returns. *)
Example configure_meter_shutdown_times_out :
  let p := fresh_process local_settings
             (with_meter_shutdown_timeouts [true] silent_world) in
  let p' := (configure local_settings p).2 in
  is_Ok (configure local_settings p).1 = false /\
  is_Some (tracer_provider_after local_settings p) /\
  _meter_provider (self_config (inside p')) = None /\
  _initialized (self_config (inside p')) = false /\
  tracer_provider_registrations (inside p') = 0 /\
  (configure local_settings p').1 = Ok tt.
Proof. split_and!; try (vm_compute; reflexivity). vm_compute. eauto. Qed.

Lemma wrapped_by_shape (d : _LogfireConfigData) (q : SpanProcessor) :
  wrapped_by d q ->
  match cfg_tail_sampling d with
  | Some options => scrub_then_tail_sample (cfg_scrubber d) options (tail_random_rate d) q
  | None => scrub_only (cfg_scrubber d) q
  end.
Proof.
  intros [sp ->]. unfold wrap_span_processor.
  destruct (cfg_tail_sampling d); by exists sp.
Qed.

Lemma registered_shape_cases (d : _LogfireConfigData) (q : SpanProcessor) :
  registered_shape d q ->
  match cfg_tail_sampling d with
  | Some options =>
      or_pending_over
        (scrub_then_tail_sample (cfg_scrubber d) options (tail_random_rate d)) q
  | None => or_pending_over (scrub_only (cfg_scrubber d)) q
  end.
Proof.
  intros [Hw | (g & others & -> & Hall)].
  - apply wrapped_by_shape in Hw. destruct (cfg_tail_sampling d); by left.
  - assert (Forall (fun x => match cfg_tail_sampling d with
        | Some options =>
            scrub_then_tail_sample (cfg_scrubber d) options (tail_random_rate d) x
        | None => scrub_only (cfg_scrubber d) x
        end) others) as H.
    { eapply Forall_impl; [exact Hall |]. apply wrapped_by_shape. }
    destruct (cfg_tail_sampling d); right; eauto.
Qed.

Section Scrubbing.
Context {Span : Type} (scrub_span : BaseScrubber -> Span -> Span).
Variable scrubber : BaseScrubber.

(** Below a point where the span is scrubbed, every tail-sampling
    processor looks at a scrubbed span. *)
Lemma sampled_spans_scrubbed (q : SpanProcessor) (span : Span) :
  scrubbed_by scrub_span scrubber span ->
  Forall (scrubbed_by scrub_span scrubber) (sampled_spans scrub_span q span).
Proof.
  revert q span. fix IH 1.
  intros [name e|e|e delay|inner o r|inner sc|g others] span Hs; cbn;
    try constructor.
  - exact Hs.
  - by apply IH.
  - apply IH. by constructor.
  - induction others as [|o others IHo]; [constructor |].
    apply Forall_app. split; [by apply IH | exact IHo].
Qed.

Lemma wrapped_sampled_scrubbed (d : _LogfireConfigData) (q : SpanProcessor)
    (span : Span) :
  cfg_scrubber d = scrubber ->
  registered_shape d q ->
  Forall (scrubbed_by scrub_span scrubber) (sampled_spans scrub_span q span).
Proof.
  intros Hsc [[sp ->] | (g & others & -> & Hall)].
  - unfold wrap_span_processor. cbn [sampled_spans]. rewrite Hsc.
    apply sampled_spans_scrubbed. constructor.
  - cbn [sampled_spans].
    induction Hall as [|o others [sp ->] Hall IHo]; [constructor |].
    apply Forall_app. split; [| exact IHo].
    unfold wrap_span_processor. cbn [sampled_spans]. rewrite Hsc.
    apply sampled_spans_scrubbed. constructor.
Qed.
End Scrubbing.

(** C7: the local [add_span_processor] puts the scrubbing wrapper outermost
    and, when tail sampling is configured, the tail-sampling processor right
    inside it.  Once [configure] has put a tracer provider behind the proxy
    (it returned, or it raised after replacing the provider), every
    processor of that provider was registered that way, or is the
    pending-span processor over processors registered that way; hence every
    span a tail-sampling processor of the chain looks at has gone through
    the configured scrubber. *)
Theorem scrubbing_wraps_tail_sampling :
  (forall d span_processor,
     wrap_span_processor d span_processor =
       MainSpanProcessorWrapper
         (match cfg_tail_sampling d with
          | Some options =>
              TailSamplingProcessor span_processor options (tail_random_rate d)
          | None => span_processor
          end)
         (cfg_scrubber d)) /\
  (forall resolved p,
     installs_tracer_provider resolved p ->
     exists t, tracer_provider_after resolved p = Some t /\
       Forall
         (match cfg_tail_sampling resolved with
          | Some options =>
              or_pending_over
                (scrub_then_tail_sample (cfg_scrubber resolved) options
                   (tail_random_rate resolved))
          | None => or_pending_over (scrub_only (cfg_scrubber resolved))
          end)
         (span_processors t) /\
       forall (Span : Type) (scrub_span : BaseScrubber -> Span -> Span) (span : Span),
         Forall
           (fun q => Forall (scrubbed_by scrub_span (cfg_scrubber resolved))
                       (sampled_spans scrub_span q span))
           (span_processors t)).
Proof.
  split; [reflexivity |].
  intros resolved p Hp.
  destruct (tracer_provider_after_ok resolved p Hp) as (t & Ht & _ & Hall).
  exists t. split; [exact Ht |]. split.
  - eapply Forall_impl; [exact Hall |]. intros q Hq.
    apply registered_shape_cases in Hq. by destruct (cfg_tail_sampling resolved).
  - intros Span scrub_span span. eapply Forall_impl; [exact Hall |].
    intros q Hq. by apply (wrapped_sampled_scrubbed scrub_span _ resolved).
Qed.

Lemma scrubbing_wraps_tail_sampling_witness :
  exists t,
    tracer_provider_after sample_settings
      (fresh_process sample_settings creates_my_project) = Some t /\
    Forall
      (or_pending_over
         (scrub_then_tail_sample (Scrubber None None) (TailSamplingOptionsOf ∅) float_half))
      (span_processors t).
Proof.
  destruct (proj2 scrubbing_wraps_tail_sampling sample_settings
              (fresh_process sample_settings creates_my_project))
    as (t & Ht & Hall & _).
  { left. vm_compute. reflexivity. }
  exists t. split; [exact Ht | exact Hall].
Defined.

Lemma or_pending_over_impl (shape shape' : SpanProcessor -> Prop) (q : SpanProcessor) :
  (forall x, shape x -> shape' x) -> or_pending_over shape q -> or_pending_over shape' q.
Proof.
  intros Himpl [Hq | (g & others & -> & Hall)]; [left; auto |].
  right. exists g, others. split; [reflexivity |].
  eapply Forall_impl; [exact Hall | exact Himpl].
Qed.

(** C8: once [configure] has put a tracer provider behind the proxy, that
    provider has the [ParentBasedTraceIdRatio] sampler exactly when
    [trace_sample_rate < 1] and no tail sampling is configured.  When tail
    sampling is configured the provider has no sampler, and every registered
    processor holds the tail-sampling processor with the configured options
    and, as a separate argument, the random rate: [trace_sample_rate] when
    it is below 1, otherwise 0; so the decision on a root span is taken by
    the predicate on the scrubbed span first, and only a trace the predicate
    does not hit falls back to the draw against that rate.  When tail
    sampling is not configured, no tail-sampling processor is added. *)
Theorem head_or_tail_sampling (resolved : _LogfireConfigData) (p : process) :
  installs_tracer_provider resolved p ->
  exists t, tracer_provider_after resolved p = Some t /\
    match cfg_tail_sampling resolved with
    | Some options =>
        sampler t = None /\
        Forall
          (or_pending_over
             (scrub_then_tail_sample (cfg_scrubber resolved) options
                (if SFltb (cfg_trace_sample_rate resolved) float_1
                 then cfg_trace_sample_rate resolved else float_0)))
          (span_processors t) /\
        forall (Span : Type) (scrub_span : BaseScrubber -> Span -> Span)
               (hits : TailSamplingOptions -> Span -> bool) (draw : spec_float)
               (root : Span),
          Forall
            (or_pending_over
               (fun q =>
                  tail_sampling_decision scrub_span hits draw q root =
                    Some (if hits options (scrub_span (cfg_scrubber resolved) root)
                          then true
                          else SFltb draw
                                 (if SFltb (cfg_trace_sample_rate resolved) float_1
                                  then cfg_trace_sample_rate resolved else float_0))))
            (span_processors t)
    | None =>
        sampler t =
          (if SFltb (cfg_trace_sample_rate resolved) float_1
           then Some (ParentBasedTraceIdRatio (cfg_trace_sample_rate resolved))
           else None) /\
        Forall (or_pending_over (scrub_only (cfg_scrubber resolved))) (span_processors t)
    end.
Proof.
  intros Hp.
  destruct (tracer_provider_after_ok resolved p Hp) as (t & Ht & Hs & Hall).
  exists t. split; [exact Ht |].
  assert (Forall (fun q =>
      match cfg_tail_sampling resolved with
      | Some options =>
          or_pending_over
            (scrub_then_tail_sample (cfg_scrubber resolved) options
               (tail_random_rate resolved)) q
      | None => or_pending_over (scrub_only (cfg_scrubber resolved)) q
      end) (span_processors t)) as Hshape.
  { eapply Forall_impl; [exact Hall |]. apply registered_shape_cases. }
  unfold expected_sampler in Hs. unfold tail_random_rate in Hshape.
  destruct (cfg_tail_sampling resolved) as [options|].
  - rewrite bool_decide_eq_false_2 in Hs by discriminate.
    rewrite andb_false_r in Hs. split_and!; [exact Hs | exact Hshape |].
    intros Span scrub_span hits draw root.
    eapply Forall_impl; [exact Hshape |]. intros q.
    apply or_pending_over_impl. by intros x [sp ->].
  - rewrite bool_decide_eq_true_2 in Hs by reflexivity.
    rewrite andb_true_r in Hs. auto.
Qed.

Lemma head_or_tail_sampling_witness :
  exists t,
    tracer_provider_after sample_settings
      (fresh_process sample_settings creates_my_project) = Some t /\
    sampler t = None /\
    forall (hits : TailSamplingOptions -> string -> bool) (draw : spec_float),
      Forall
        (or_pending_over
           (fun q =>
              tail_sampling_decision (fun _ span => span) hits draw q "root" =
                Some (if hits (TailSamplingOptionsOf ∅) "root" then true
                      else SFltb draw float_half)))
        (span_processors t).
Proof.
  destruct (head_or_tail_sampling sample_settings
              (fresh_process sample_settings creates_my_project))
    as (t & Ht & Hs & _ & Hdecision).
  { left. vm_compute. reflexivity. }
  exists t. split_and!; [exact Ht | exact Hs |].
  intros hits draw. exact (Hdecision string (fun _ span => span) hits draw "root").
Defined.

(** ** Stored credentials across [configure] calls *)

Lemma undisturbed_refl (w : world) : undisturbed w w.
Proof.
  repeat split. exists []. split; [by rewrite app_nil_r | constructor].
Qed.

Lemma undisturbed_trans (w1 w2 w3 : world) :
  undisturbed w1 w2 -> undisturbed w2 w3 -> undisturbed w1 w3.
Proof.
  intros (Hf & He & Hc & Ha & Hr & Hu & n1 & Hn1 & Hq1)
         (Hf' & He' & Hc' & Ha' & Hr' & Hu' & n2 & Hn2 & Hq2).
  repeat split; try congruence.
  exists (n1 ++ n2). split.
  - by rewrite Hn2, Hn1, app_assoc.
  - by apply Forall_app.
Qed.

Lemma undisturbed_add_event (w : world) (e : event) :
  quiet_event e = true -> undisturbed w (add_event e w).
Proof.
  intros He. repeat split. exists [e]. split; [reflexivity | by constructor].
Qed.

Lemma calm_ret {A : Type} (a : A) : calm (mret a).
Proof. intros w. apply undisturbed_refl. Qed.

Lemma calm_lift {A : Type} (r : result A) : calm (lift r).
Proof. intros w. apply undisturbed_refl. Qed.

Lemma calm_raise {A : Type} (e : exn) : calm (raise e : M A).
Proof. intros w. apply undisturbed_refl. Qed.

Lemma calm_emit (e : event) : quiet_event e = true -> calm (emit e).
Proof. intros He w. by apply undisturbed_add_event. Qed.

Lemma calm_bind {A B : Type} (m : M A) (f : A -> M B) :
  calm m -> (forall a, calm (f a)) -> calm (m ≫= f).
Proof.
  intros Hm Hf w. unfold mbind, M_bind. specialize (Hm w).
  destruct (m w) as [[a|e] w1]; [| exact Hm].
  eapply undisturbed_trans; [exact Hm | apply Hf].
Qed.

Lemma calm_fmap {A B : Type} (g : A -> B) (m : M A) : calm m -> calm (g <$> m).
Proof.
  intros Hm w. unfold fmap, M_fmap. specialize (Hm w).
  by destruct (m w) as [[a|e] w1].
Qed.

Lemma calm_try {A : Type} (body : M A) (handled : exn -> bool) (handler : exn -> M A) :
  calm body -> (forall e, calm (handler e)) -> calm (try_except body handled handler).
Proof.
  intros Hb Hh w. unfold try_except. specialize (Hb w).
  destruct (body w) as [[a|e] w1]; [exact Hb |].
  destruct (handled e); [| exact Hb].
  eapply undisturbed_trans; [exact Hb | apply Hh].
Qed.

Lemma calm_os_getenv (name : string) : calm (os_getenv name).
Proof. intros w. apply undisturbed_refl. Qed.

Lemma calm_get_int_from_env (env_var : string) : calm (_get_int_from_env env_var).
Proof.
  unfold _get_int_from_env. apply calm_bind; [apply calm_os_getenv |].
  intros [v|]; [| apply calm_ret].
  destruct (str_truthy v); [apply calm_fmap, calm_lift | apply calm_ret].
Qed.

Lemma calm_os_getpid : calm os_getpid.
Proof. intros w. apply undisturbed_refl. Qed.

Lemma calm_otel_resource_attributes (service_name service_version : pyval) (n : Z) :
  calm (otel_resource_attributes service_name service_version n).
Proof.
  unfold otel_resource_attributes. apply calm_bind; [apply calm_os_getenv |].
  intros [text|]; [| apply calm_ret].
  destruct (str_truthy text); [apply calm_lift | apply calm_ret].
Qed.

Lemma calm_meter_provider_shutdown (timeout_millis : Z) :
  calm (meter_provider_shutdown timeout_millis).
Proof.
  intros w. unfold meter_provider_shutdown.
  destruct (meter_shutdown_timeouts w) as [|[] rest]; cbn;
    split_and!; try reflexivity;
    (exists [EShutdownMeterProvider]; split; [reflexivity | by constructor]).
Qed.

Lemma calm_print_token_summary (c : LogfireCredentials) : calm (print_token_summary c).
Proof.
  unfold print_token_summary.
  destruct (py_truthy (project_url c)); [by apply calm_emit | apply calm_ret].
Qed.

(** Reading the credentials file changes nothing at all. *)
Lemma load_creds_file_reads (creds_dir : string) (w : world) :
  (load_creds_file creds_dir w).2 = w.
Proof.
  unfold load_creds_file. run_M.
  destruct (files w !! _get_creds_file creds_dir) as [f|]; [| reflexivity].
  destruct f as [| |v]; cbn; try reflexivity.
  destruct (py_pop v "dashboard_url" PNone) as [[du d]|e]; cbn.
  - destruct (LogfireCredentials_init _) as [c|e]; cbn; [reflexivity |].
    by destruct (is_TypeError e).
  - by destruct (is_TypeError e).
Qed.

(** What [write_creds_file] wrote is what [load_creds_file] reads back. *)
Lemma load_creds_file_asdict (creds_dir : string) (c : LogfireCredentials) (w : world) :
  files w !! _get_creds_file creds_dir = Some (JSONText (PDict (asdict c))) ->
  load_creds_file creds_dir w = (Ok (Some c), w).
Proof.
  intros Hf. unfold load_creds_file. run_M. rewrite Hf. cbn.
  destruct c as [t n u a]. reflexivity.
Qed.

Lemma write_creds_file_writes (c : LogfireCredentials) (creds_dir : string) (w : world) :
  write_creds_file c creds_dir w =
    (Ok tt, set_files (<[_get_creds_file creds_dir := JSONText (PDict (asdict c))]> (files w))
              (add_event (EWriteFile (_get_creds_file creds_dir)) w)).
Proof. reflexivity. Qed.

Lemma ph_ret {A : Type} (P : process -> Prop) (a : A) (Q : A -> process -> Prop)
    (E : process -> Prop) :
  (forall p, P p -> Q a p) -> phoare P (mret a) Q E.
Proof. intros H p Hp. cbn. auto. Qed.

Lemma ph_bind {A B : Type} (P : process -> Prop) (m : CM A) (f : A -> CM B)
    (Q1 : A -> process -> Prop) (Q2 : B -> process -> Prop) (E : process -> Prop) :
  phoare P m Q1 E -> (forall a, phoare (Q1 a) (f a) Q2 E) -> phoare P (m ≫= f) Q2 E.
Proof.
  intros Hm Hf p Hp. unfold mbind, CM_bind. specialize (Hm p Hp).
  destruct (m p) as [[a|e] p1]; [apply Hf; exact Hm | exact Hm].
Qed.

Lemma ph_conseq {A : Type} (P P' : process -> Prop) (m : CM A)
    (Q Q' : A -> process -> Prop) (E E' : process -> Prop) :
  phoare P m Q E ->
  (forall p, P' p -> P p) -> (forall a p, Q a p -> Q' a p) -> (forall p, E p -> E' p) ->
  phoare P' m Q' E'.
Proof.
  intros Hm HP HQ HE p Hp. specialize (Hm p (HP _ Hp)).
  destruct (m p) as [[a|e] p1]; auto.
Qed.

Lemma ph_weaken_pre {A : Type} (P P' : process -> Prop) (m : CM A)
    (Q : A -> process -> Prop) (E : process -> Prop) :
  (forall p, P' p -> P p) -> phoare P m Q E -> phoare P' m Q E.
Proof. intros HP Hm. eapply ph_conseq; eauto. Qed.

Lemma ph_pre {A : Type} (P : process -> Prop) (phi : Prop) (m : CM A)
    (Q : A -> process -> Prop) (E : process -> Prop) :
  (forall p, P p -> phi) -> (phi -> phoare P m Q E) -> phoare P m Q E.
Proof. intros Hphi Hm p Hp. apply Hm; eauto. Qed.

Lemma ph_get_self (P : process -> Prop) (E : process -> Prop) :
  phoare P get_self (fun a p => P p /\ a = self_config (inside p)) E.
Proof. intros p Hp. cbn. auto. Qed.

Lemma ph_modify_core (P : process -> Prop) (f : core -> core)
    (Q : unit -> process -> Prop) (E : process -> Prop) :
  (forall p, P p -> Q tt (with_inside (f (inside p)) p)) -> phoare P (modify_core f) Q E.
Proof. intros H p Hp. apply H, Hp. Qed.

(** A statement that keeps [P], followed by statements that start from [P]. *)
Lemma ph_frame_bind {A B : Type} (P : process -> Prop) (m : CM A) (f : A -> CM B)
    (Q : B -> process -> Prop) (E : process -> Prop) :
  pframes P m -> (forall p, P p -> E p) -> (forall a, phoare P (f a) Q E) ->
  phoare P (m ≫= f) Q E.
Proof.
  intros Hm HE Hf. eapply ph_bind; [| exact Hf].
  eapply ph_conseq; [exact Hm | auto | auto | exact HE].
Qed.

Lemma ph_frame {A : Type} (P : process -> Prop) (m : CM A) (E : process -> Prop) :
  pframes P m -> (forall p, P p -> E p) -> phoare P m (fun _ => P) E.
Proof. intros Hm HE. eapply ph_conseq; [exact Hm | auto | auto | exact HE]. Qed.

Section Steady.
Variable P : process -> Prop.
Hypothesis P_steady : steady P.

Lemma pf_ret {A : Type} (a : A) : pframes P (mret a).
Proof. by apply ph_ret. Qed.

Lemma pf_bind {A B : Type} (m : CM A) (f : A -> CM B) :
  pframes P m -> (forall a, pframes P (f a)) -> pframes P (m ≫= f).
Proof. intros Hm Hf. eapply ph_bind; [exact Hm | exact Hf]. Qed.

Lemma pf_if {A : Type} (b : bool) (m1 m2 : CM A) :
  pframes P m1 -> pframes P m2 -> pframes P (if b then m1 else m2).
Proof. by destruct b. Qed.

Lemma pf_get_self : pframes P get_self.
Proof. intros p Hp. exact Hp. Qed.

Lemma pf_in_world {A : Type} (m : M A) : calm m -> pframes P (in_world m).
Proof.
  intros Hm p Hp. unfold in_world. specialize (Hm (outside p)).
  destruct (m (outside p)) as [[a|e] w]; by apply (proj1 P_steady p w).
Qed.

Lemma pf_modify_self (f : LogfireConfig -> LogfireConfig) :
  (forall self, cfg (f self) = cfg self) -> pframes P (modify_self f).
Proof.
  intros Hf. apply ph_modify_core. intros p Hp.
  apply (proj2 P_steady p); [exact Hp | apply Hf].
Qed.

Lemma pf_trace_set_tracer_provider : pframes P trace_set_tracer_provider.
Proof.
  apply pf_bind; [| intros ?; by apply pf_in_world, calm_emit].
  apply ph_modify_core. intros p Hp. by apply (proj2 P_steady p).
Qed.

Lemma pf_metrics_set_meter_provider : pframes P metrics_set_meter_provider.
Proof.
  apply pf_bind; [| intros ?; by apply pf_in_world, calm_emit].
  apply ph_modify_core. intros p Hp. by apply (proj2 P_steady p).
Qed.

Lemma pf_tracer_provider_add_span_processor (q : SpanProcessor) :
  pframes P (tracer_provider_add_span_processor q).
Proof.
  apply pf_bind; [by apply pf_modify_self |].
  intros ?. by apply pf_in_world, calm_emit.
Qed.

Lemma pf_add_span_processor (q : SpanProcessor) (pending : list SpanProcessor) :
  pframes P (add_span_processor q pending).
Proof.
  apply pf_bind; [apply pf_get_self |]. intros self.
  apply pf_bind; [apply pf_tracer_provider_add_span_processor |].
  intros ?. apply pf_ret.
Qed.

Lemma pf_add_span_processors (qs pending : list SpanProcessor) :
  pframes P (add_span_processors qs pending).
Proof.
  revert pending. induction qs as [|q qs IH]; intros pending; cbn.
  - apply pf_ret.
  - apply pf_bind; [apply pf_add_span_processor | auto].
Qed.

Lemma pf_export_to_logfire (pending : list SpanProcessor)
    (metric_readers : list MetricReader) :
  pframes P (export_to_logfire pending metric_readers).
Proof.
  apply pf_bind; [apply pf_get_self |]. intros self.
  apply pf_bind; [apply pf_in_world, calm_get_int_from_env |]. intros delay.
  apply pf_bind; [apply pf_add_span_processor |]. intros pending'.
  apply pf_ret.
Qed.
End Steady.

(** [_initialize] on settings that send to Logfire with no token given, in
    terms of its two steps about credentials: the statements before them
    keep [P0], the statements after them keep [P2]. *)
Lemma initialize_with_credentials (resolved : _LogfireConfigData)
    (P0 P1 P2 E : process -> Prop) :
  steady P0 -> steady P2 ->
  (forall p, P0 p -> E p) -> (forall p, P2 p -> E p) ->
  (forall p, P0 p -> cfg (self_config (inside p)) = resolved) ->
  cfg_send_to_logfire resolved = SendTrue ->
  cfg_token resolved = PNone ->
  phoare P0 use_stored_or_new_credentials (fun _ => P1) E ->
  (forall pending metric_readers,
     phoare P1 (export_to_logfire pending metric_readers) (fun _ => P2) E) ->
  phoare (fun p => P0 p /\ _initialized (self_config (inside p)) = false)
    _initialize (fun _ => P2) E.
Proof.
  intros HS0 HS2 HE0 HE2 Hcfg Hsend Htoken Hcreds Hexport. unfold _initialize.
  eapply ph_bind; [apply ph_get_self |]. intros self. cbn beta.
  apply (ph_pre _ (_initialized self = false /\ cfg self = resolved)).
  { intros p [[Hp Hi] ->]. auto. }
  intros [-> ->].
  apply (ph_weaken_pre P0); [by intros p [[Hp _] _] |].
  rewrite Hsend, Htoken. cbn [is_None negb andb orb bool_decide].
  rewrite (bool_decide_eq_true_2 (SendTrue = SendTrue) eq_refl), orb_true_r.
  apply ph_frame_bind; [by apply pf_in_world, calm_os_getpid | exact HE0 |].
  intros ?.
  apply ph_frame_bind;
    [by apply pf_in_world, calm_otel_resource_attributes | exact HE0 |].
  intros ?.
  apply ph_frame_bind; [by apply pf_in_world, calm_emit; auto | exact HE0 |].
  intros ?.
  apply ph_frame_bind; [by apply pf_modify_self | exact HE0 |]. intros ?.
  apply ph_frame_bind; [by apply pf_add_span_processors | exact HE0 |].
  intros pending.
  apply ph_frame_bind.
  { destruct (cfg_console resolved) as [options|]; [| by apply pf_ret].
    apply pf_bind; [by apply pf_in_world, calm_lift |].
    intros cls. by apply pf_add_span_processor. }
  { exact HE0. }
  clear pending. intros pending.
  apply (ph_bind _ _ _ (fun _ => P2)).
  { eapply ph_bind; [exact Hcreds |]. intros ?. apply Hexport. }
  intros [pending' metric_readers].
  apply ph_frame_bind; [| exact HE2 |].
  { destruct pending' as [|q pending']; [by apply pf_ret |].
    by apply pf_tracer_provider_add_span_processor. }
  intros ?.
  do 5 (apply ph_frame_bind; [by apply pf_in_world, calm_os_getenv | exact HE2 |];
        intros ?).
  apply ph_frame_bind; [| exact HE2 |].
  { apply pf_if; [| by apply pf_ret].
    eapply ph_conseq; [by apply (pf_add_span_processor P2) | auto | auto | auto]. }
  intros ?.
  apply ph_frame_bind;
    [by apply pf_in_world, calm_meter_provider_shutdown | exact HE2 |].
  intros ?.
  apply ph_frame_bind; [by apply pf_modify_self | exact HE2 |]. intros ?.
  apply ph_frame_bind; [by apply pf_get_self | exact HE2 |]. intros self'.
  apply ph_frame_bind; [| exact HE2 |].
  { apply pf_if; [| by apply pf_ret].
    apply pf_bind; [by apply pf_modify_self |]. intros ?.
    apply pf_bind; [by apply pf_trace_set_tracer_provider |]. intros ?.
    by apply pf_metrics_set_meter_provider. }
  intros ?. apply ph_frame; [by apply pf_modify_self | exact HE2].
Qed.

Lemma steady_before_credentials (w0 : world) (resolved : _LogfireConfigData) :
  steady (before_credentials w0 resolved).
Proof.
  split.
  - intros p w' [Hu Hc] Hw. split; [by eapply undisturbed_trans | exact Hc].
  - intros p c' [Hu Hc] Hc'. split; [exact Hu | cbn; congruence].
Qed.

Lemma steady_token_reused (w0 : world) (c : LogfireCredentials) :
  steady (token_reused w0 c).
Proof.
  split.
  - intros p w' [Hu Hc] Hw. split; [by eapply undisturbed_trans | exact Hc].
  - intros p c' [Hu Hc] Hc'. split; [exact Hu | cbn; congruence].
Qed.

Lemma steady_bootstrapped (w0 : world) (base project : pyval) (dir : string)
    (after : pyval -> list event -> Prop) :
  (forall tok es es', after tok es -> after tok (es ++ es')) ->
  steady (bootstrapped w0 base project dir after).
Proof.
  intros Hafter. split.
  - intros p w' (c & w1 & w2 & es & Hu & Hi & Hf & He & Ht & Ha)
           (Hf' & _ & _ & _ & _ & _ & new & Hnew & _).
    exists c, w1, w2, (es ++ new). cbn. split_and!; auto.
    + by rewrite Hf'.
    + by rewrite Hnew, He, <- app_assoc.
  - intros p c' (c & w1 & w2 & es & Hu & Hi & Hf & He & Ht & Ha) Hc'.
    exists c, w1, w2, es. cbn. split_and!; auto. congruence.
Qed.

Lemma logfire_export_set_up_app (tok : pyval) (es es' : list event) :
  logfire_export_set_up tok es -> logfire_export_set_up tok (es ++ es').
Proof.
  intros (q & Hq & Hin). exists q. split; [exact Hq |].
  apply in_or_app. by left.
Qed.

Lemma load_creds_file_no_file (creds_dir : string) (w : world) :
  files w !! _get_creds_file creds_dir = None ->
  load_creds_file creds_dir w = (Ok None, w).
Proof. intros Hf. unfold load_creds_file. run_M. by rewrite Hf. Qed.

Lemma get_int_from_env_reads (env_var : string) (w : world) :
  (_get_int_from_env env_var w).2 = w.
Proof.
  unfold _get_int_from_env, os_getenv. run_M.
  destruct (environ w !! env_var) as [v|]; [| reflexivity].
  destruct (str_truthy v); [| reflexivity].
  cbn. by destruct (py_int v).
Qed.

(** No credentials file: [_initialize] runs [initialize_project] and writes
    what it returns to the file before it goes on. *)
Lemma credentials_bootstrapped (w0 : world) (resolved : _LogfireConfigData) :
  files w0 !! _get_creds_file (cfg_data_dir resolved) = None ->
  phoare (before_credentials w0 resolved) use_stored_or_new_credentials
    (fun _ => bootstrapped w0 (cfg_base_url resolved) (cfg_project_name resolved)
                (cfg_data_dir resolved) (fun _ _ => True))
    (fun _ => True).
Proof.
  intros Hfile p [Hu Hcfg].
  assert (files (outside p) !! _get_creds_file (cfg_data_dir resolved) = None) as Hnone.
  { destruct Hu as [-> _]. exact Hfile. }
  unfold use_stored_or_new_credentials, mbind, CM_bind, get_self, in_world.
  rewrite Hcfg, (load_creds_file_no_file _ _ Hnone). cbn [inside outside].
  destruct (initialize_project (cfg_base_url resolved) (cfg_project_name resolved)
              (outside p)) as [[c|e] w2] eqn:Hinit; [| exact I].
  cbn [inside outside]. rewrite write_creds_file_writes. cbn.
  assert (forall es p',
    files (outside p') !! _get_creds_file (cfg_data_dir resolved)
      = Some (JSONText (PDict (asdict c))) ->
    events (outside p') = events w2 ++ EWriteFile (_get_creds_file (cfg_data_dir resolved)) :: es ->
    cfg_token (cfg (self_config (inside p'))) = token c ->
    bootstrapped w0 (cfg_base_url resolved) (cfg_project_name resolved)
      (cfg_data_dir resolved) (fun _ _ => True) p') as Hdone.
  { intros es p' Hf He Ht. exists c, (outside p), w2, es. by split_and!. }
  destruct (cfg_show_summary resolved); cbn.
  - unfold print_token_summary. destruct (py_truthy (project_url c)); cbn.
    + apply (Hdone [EPrintSummary (project_url c)]); cbn.
      * apply lookup_insert_eq.
      * by rewrite <- app_assoc.
      * reflexivity.
    + apply (Hdone []); cbn; [apply lookup_insert_eq | reflexivity | reflexivity].
  - apply (Hdone []); cbn; [apply lookup_insert_eq | reflexivity | reflexivity].
Qed.

(** The export to Logfire is set up with the token of the credentials that
    were written. *)
Lemma export_after_bootstrap (w0 : world) (base project : pyval) (dir : string)
    (pending : list SpanProcessor) (metric_readers : list MetricReader) :
  phoare (bootstrapped w0 base project dir (fun _ _ => True))
    (export_to_logfire pending metric_readers)
    (fun _ => bootstrapped w0 base project dir logfire_export_set_up)
    (fun _ => True).
Proof.
  intros p (c & w1 & w2 & es & Hu & Hinit & Hf & He & Ht & _).
  unfold export_to_logfire, mbind, CM_bind, get_self, in_world.
  pose proof (get_int_from_env_reads "OTEL_BSP_SCHEDULE_DELAY" (outside p)) as Hw.
  destruct (_get_int_from_env "OTEL_BSP_SCHEDULE_DELAY" (outside p)) as [[delay|e] w];
    [| exact I].
  cbn in Hw. subst w.
  unfold add_span_processor, tracer_provider_add_span_processor, modify_self,
    modify_core, mbind, CM_bind, get_self, in_world, emit.
  cbn.
  match goal with
  | |- context [EAddSpanProcessor ?q] =>
      exists c, w1, w2, (es ++ [EAddSpanProcessor q]); cbn; split_and!; auto;
      [ by rewrite He, <- app_assoc
      | exists q; split; [| apply in_or_app; right; by left] ]
  end.
  eexists (cfg (self_config (inside p))), _. split; [exact Ht | reflexivity].
Qed.

(** A credentials file that [write_creds_file] wrote: [_initialize] takes the
    token from it, and neither asks nor requests nor writes anything. *)
Lemma credentials_reused (w0 : world) (resolved : _LogfireConfigData)
    (c : LogfireCredentials) :
  files w0 !! _get_creds_file (cfg_data_dir resolved)
    = Some (JSONText (PDict (asdict c))) ->
  phoare (before_credentials w0 resolved) use_stored_or_new_credentials
    (fun _ => token_reused w0 c) (fun p => undisturbed w0 (outside p)).
Proof.
  intros Hfile p [Hu Hcfg].
  assert (files (outside p) !! _get_creds_file (cfg_data_dir resolved)
          = Some (JSONText (PDict (asdict c)))) as Hsome.
  { destruct Hu as [-> _]. exact Hfile. }
  unfold use_stored_or_new_credentials, mbind, CM_bind, get_self, in_world.
  rewrite Hcfg, (load_creds_file_asdict _ _ _ Hsome). cbn.
  destruct (cfg_show_summary resolved); cbn.
  - pose proof (calm_print_token_summary c (outside p)) as Hs.
    destruct (print_token_summary c (outside p)) as [[[]|e] w]; cbn in *.
    + split; [by eapply undisturbed_trans | reflexivity].
    + by eapply undisturbed_trans.
  - by split.
Qed.

Lemma configure_initializes (resolved : _LogfireConfigData) (p : process) :
  configure resolved p =
    _initialize (with_inside (on_self (set_cfg resolved)
                                (on_self (set_initialized false) (inside p))) p).
Proof. reflexivity. Qed.

Lemma configure_bootstraps (resolved : _LogfireConfigData) (p : process) :
  wants_stored_token (cfg_data_dir resolved) resolved ->
  files (outside p) !! _get_creds_file (cfg_data_dir resolved) = None ->
  (configure resolved p).1 = Ok tt ->
  bootstrapped (outside p) (cfg_base_url resolved) (cfg_project_name resolved)
    (cfg_data_dir resolved) logfire_export_set_up (configure resolved p).2.
Proof.
  intros (Hsend & Htoken & _) Hfile Hok. rewrite configure_initializes in *.
  set (p0 := with_inside _ p) in *.
  pose proof (initialize_with_credentials resolved
                (before_credentials (outside p) resolved)
                (bootstrapped (outside p) (cfg_base_url resolved)
                   (cfg_project_name resolved) (cfg_data_dir resolved) (fun _ _ => True))
                (bootstrapped (outside p) (cfg_base_url resolved)
                   (cfg_project_name resolved) (cfg_data_dir resolved)
                   logfire_export_set_up)
                (fun _ => True)) as H.
  specialize (H (steady_before_credentials _ _)
                (steady_bootstrapped _ _ _ _ _ logfire_export_set_up_app)
                (fun _ _ => I) (fun _ _ => I) (fun _ Hp => proj2 Hp) Hsend Htoken
                (credentials_bootstrapped _ _ Hfile)
                (export_after_bootstrap _ _ _ _) p0).
  destruct (_initialize p0) as [[[]|e] p1]; [| discriminate].
  apply H. split; [| reflexivity]. split; [apply undisturbed_refl | reflexivity].
Qed.

Lemma configure_reuses (dir : string) (c : LogfireCredentials)
    (resolved : _LogfireConfigData) (p : process) :
  wants_stored_token dir resolved ->
  files (outside p) !! _get_creds_file dir = Some (JSONText (PDict (asdict c))) ->
  undisturbed (outside p) (outside (configure resolved p).2) /\
  ((configure resolved p).1 = Ok tt ->
   cfg_token (cfg (self_config (inside (configure resolved p).2))) = token c).
Proof.
  intros (Hsend & Htoken & <-) Hfile. rewrite configure_initializes.
  set (p0 := with_inside _ p).
  pose proof (initialize_with_credentials resolved
                (before_credentials (outside p) resolved)
                (token_reused (outside p) c) (token_reused (outside p) c)
                (fun p' => undisturbed (outside p) (outside p'))) as H.
  specialize (H (steady_before_credentials _ _) (steady_token_reused _ _)
                (fun _ Hp => proj1 Hp) (fun _ Hp => proj1 Hp) (fun _ Hp => proj2 Hp)
                Hsend Htoken (credentials_reused _ _ _ Hfile)).
  assert (forall pending metric_readers,
    phoare (token_reused (outside p) c) (export_to_logfire pending metric_readers)
      (fun _ => token_reused (outside p) c)
      (fun p' => undisturbed (outside p) (outside p'))) as Hexport.
  { intros. apply ph_frame; [| by intros ? [? _]].
    apply pf_export_to_logfire, steady_token_reused. }
  specialize (H Hexport p0). clear Hexport.
  destruct (_initialize p0) as [[[]|e] p1]; cbn.
  - destruct H as [Hu Ht].
    + split; [| reflexivity]. split; [apply undisturbed_refl | reflexivity].
    + by split.
  - split; [| discriminate]. apply H.
    split; [| reflexivity]. split; [apply undisturbed_refl | reflexivity].
Qed.

(** Every call of a sequence finds the file as the first call found it. *)
Lemma configure_all_reuses (dir : string) (c : LogfireCredentials)
    (calls : list _LogfireConfigData) (p : process) :
  Forall (wants_stored_token dir) calls ->
  files (outside p) !! _get_creds_file dir = Some (JSONText (PDict (asdict c))) ->
  undisturbed (outside p) (outside (configure_all calls p).2).
Proof.
  revert p. induction calls as [|resolved calls IH]; intros p Hcalls Hfile; cbn.
  - apply undisturbed_refl.
  - apply Forall_cons in Hcalls as [Hfirst Hrest].
    destruct (configure_reuses dir c resolved p Hfirst Hfile) as [Hu _].
    destruct (configure resolved p) as [r p1]. cbn in Hu.
    specialize (IH p1 Hrest).
    destruct (configure_all calls p1) as [rs p2]. cbn in *.
    eapply undisturbed_trans; [exact Hu |]. apply IH.
    destruct Hu as [-> _]. exact Hfile.
Qed.

(** C1: [configure] with sending to Logfire enabled and no token given.
    When the credentials file of the data directory is absent and the call
    returns, [initialize_project] has bootstrapped a project, the credentials
    it returned were written to the file as the very next event, the file
    holds them, the token in use is theirs, and the processor that exports to
    Logfire with that token was registered after the write.  When the file
    holds credentials that were written this way, a call takes its token
    from them and does nothing but quiet events: no prompt, no confirmation,
    no request to the server, no token check started, no file written, the
    file left as it is.  So the same holds for every call of any sequence of
    such calls on the same data directory. *)
Theorem stored_credentials_bootstrap_and_reuse :
  (forall resolved p,
     wants_stored_token (cfg_data_dir resolved) resolved ->
     files (outside p) !! _get_creds_file (cfg_data_dir resolved) = None ->
     (configure resolved p).1 = Ok tt ->
     bootstrapped (outside p) (cfg_base_url resolved) (cfg_project_name resolved)
       (cfg_data_dir resolved) logfire_export_set_up (configure resolved p).2) /\
  (forall dir c resolved p,
     wants_stored_token dir resolved ->
     files (outside p) !! _get_creds_file dir = Some (JSONText (PDict (asdict c))) ->
     undisturbed (outside p) (outside (configure resolved p).2) /\
     ((configure resolved p).1 = Ok tt ->
      cfg_token (cfg (self_config (inside (configure resolved p).2))) = token c)) /\
  (forall dir c calls p,
     Forall (wants_stored_token dir) calls ->
     files (outside p) !! _get_creds_file dir = Some (JSONText (PDict (asdict c))) ->
     undisturbed (outside p) (outside (configure_all calls p).2)).
Proof.
  split_and!.
  - exact configure_bootstraps.
  - exact configure_reuses.
  - exact configure_all_reuses.
Qed.

Lemma stored_credentials_bootstrap_and_reuse_witness :
  bootstrapped creates_my_project (PStr "https://logfire-api.pydantic.dev") PNone
    ".logfire" logfire_export_set_up after_first_configure /\
  cfg_token (cfg (self_config (inside (configure sample_settings after_first_configure).2)))
    = PStr "abc" /\
  undisturbed (outside after_first_configure)
    (outside (configure_all [sample_settings; sample_settings] after_first_configure).2).
Proof.
  split_and!.
  - apply (proj1 stored_credentials_bootstrap_and_reuse sample_settings
             (fresh_process sample_settings creates_my_project)).
    + by split_and!.
    + reflexivity.
    + vm_compute. reflexivity.
  - apply (proj1 (proj2 stored_credentials_bootstrap_and_reuse) ".logfire"
             my_project_credentials sample_settings after_first_configure).
    + by split_and!.
    + vm_compute. reflexivity.
    + vm_compute. reflexivity.
  - apply (proj2 (proj2 stored_credentials_bootstrap_and_reuse) ".logfire"
             my_project_credentials).
    + by repeat constructor.
    + vm_compute. reflexivity.
Defined.

(* ===================================================================== *)
(** * Part III: further properties of the module                         *)
(* ===================================================================== *)

(** ** Project names, in the words of the prompt *)

Lemma str_app_assoc (s1 s2 s3 : string) : (s1 +:+ s2) +:+ s3 = s1 +:+ (s2 +:+ s3).
Proof.
  induction s1 as [|c s1 IH]; [reflexivity |].
  rewrite !str_app_cons. by f_equal.
Qed.

Lemma lower_alnum_not_hyphen (c : ascii) : is_lower_alnum c = true -> is_hyphen c = false.
Proof.
  unfold is_hyphen. intros H. apply bool_decide_eq_false. intros ->. discriminate.
Qed.

Lemma lang_lower_alnum_char (s : string) :
  re_lang LOWER_ALNUM s -> exists c, s = String c EmptyString /\ is_lower_alnum c = true.
Proof. intros H. inversion H; subst. eauto. Qed.

Lemma lang_lower_alnum_star (s : string) :
  re_lang (RStar LOWER_ALNUM) s -> str_forall is_lower_alnum s = true.
Proof.
  intros H. remember (RStar LOWER_ALNUM) as r eqn:Hr.
  induction H; try discriminate; [reflexivity |].
  injection Hr as ->.
  apply lang_lower_alnum_char in H as (c & -> & Hc).
  rewrite str_app_cons, str_app_nil_l. cbn [str_forall]. rewrite Hc. auto.
Qed.

Lemma lang_lower_alnum_plus (s : string) :
  re_lang (RPlus LOWER_ALNUM) s <->
  exists c s', s = String c s' /\ is_lower_alnum c = true /\
               str_forall is_lower_alnum s' = true.
Proof.
  split.
  - intros H. inversion H; subst.
    match goal with Hx : re_lang LOWER_ALNUM _ |- _ =>
      apply lang_lower_alnum_char in Hx as (c & -> & Hc) end.
    exists c, s2. rewrite str_app_cons, str_app_nil_l.
    split; [reflexivity |]. split; [exact Hc | by apply lang_lower_alnum_star].
  - intros (c & s' & -> & Hc & Hs).
    change (String c s') with (String c EmptyString +:+ s').
    apply lang_cat; [by apply lang_set | by apply lower_alnum_star].
Qed.

(** After a run of letters and digits the reader is in the state
    [after_alnum]. *)
Lemma name_ok_from_alnum_run (b : bool) (a t : string) :
  str_forall is_lower_alnum a = true ->
  name_ok_from true t = true ->
  (a <> EmptyString \/ b = true) ->
  name_ok_from b (a +:+ t) = true.
Proof.
  revert b. induction a as [|c a IH]; intros b Ha Ht Hb.
  - rewrite str_app_nil_l. by destruct Hb as [? | ->].
  - cbn [str_forall] in Ha. apply andb_true_iff in Ha as [Hc Ha].
    rewrite str_app_cons. cbn [name_ok_from]. rewrite Hc. apply IH; auto.
Qed.

Lemma name_ok_from_groups (g : string) :
  re_lang (RStar (RCat (RChar "-") (RPlus LOWER_ALNUM))) g ->
  name_ok_from true g = true.
Proof.
  intros H. remember (RStar (RCat (RChar "-") (RPlus LOWER_ALNUM))) as r eqn:Hr.
  induction H; try discriminate; [reflexivity |].
  injection Hr as ->. specialize (IHre_lang2 eq_refl).
  inversion H; subst.
  match goal with Hh : re_lang (RChar _) _ |- _ => inversion Hh; subst end.
  match goal with Hx : re_lang (RPlus _) _ |- _ =>
    apply lang_lower_alnum_plus in Hx as (c & a & -> & Hc & Ha) end.
  rewrite !str_app_cons, str_app_nil_l. cbn [name_ok_from].
  assert (is_lower_alnum "-" = false) as -> by reflexivity.
  assert (is_hyphen "-" = true) as -> by reflexivity.
  cbn [andb]. apply name_ok_from_alnum_run; auto.
  cbn [str_forall]. by rewrite Hc.
Qed.

Lemma pattern_name_ok (s : string) :
  re_lang PROJECT_NAME_PATTERN s -> name_ok_from false s = true.
Proof.
  intros H. inversion H; subst.
  match goal with Hx : re_lang (RPlus _) _ |- _ =>
    apply lang_lower_alnum_plus in Hx as (c & a & -> & Hc & Ha) end.
  apply name_ok_from_alnum_run.
  - cbn [str_forall]. by rewrite Hc.
  - by apply name_ok_from_groups.
  - by left.
Qed.

Lemma name_ok_pattern (b : bool) (s : string) :
  name_ok_from b s = true ->
  if b
  then re_lang (RCat (RStar LOWER_ALNUM)
                  (RStar (RCat (RChar "-") (RPlus LOWER_ALNUM)))) s
  else re_lang PROJECT_NAME_PATTERN s.
Proof.
  revert b. induction s as [|c s IH]; intros b H; cbn [name_ok_from] in H.
  - subst b. rewrite <- (str_app_nil_l EmptyString). apply lang_cat; constructor.
  - destruct (is_lower_alnum c) eqn:Hc.
    + specialize (IH true H). cbn in IH. inversion IH; subst.
      destruct b.
      * rewrite <- str_app_cons. apply lang_cat; [| assumption].
        change (String c s1) with (String c EmptyString +:+ s1).
        apply lang_star_cons; [by apply lang_set | assumption].
      * rewrite <- str_app_cons. apply lang_cat; [| assumption].
        apply lang_lower_alnum_plus. exists c, s1.
        split; [reflexivity |]. split; [exact Hc | by apply lang_lower_alnum_star].
    + destruct (is_hyphen c) eqn:Hh; [| discriminate].
      apply andb_true_iff in H as [-> H].
      apply bool_decide_eq_true in Hh as ->.
      specialize (IH false H). cbn in IH. inversion IH; subst.
      rewrite <- (str_app_nil_l (String _ _)). apply lang_cat; [constructor |].
      change (String "-" (s1 +:+ s2)) with (String "-" s1 +:+ s2).
      apply lang_star_cons; [| assumption].
      change (String "-" s1) with (String "-" EmptyString +:+ s1).
      apply lang_cat; [constructor | assumption].
Qed.

Lemma re_fullmatch_pattern_name_ok (s : string) :
  re_fullmatch PROJECT_NAME_PATTERN s = name_ok_from false s.
Proof.
  apply eq_true_iff_eq. rewrite re_fullmatch_lang. split.
  - apply pattern_name_ok.
  - apply (name_ok_pattern false).
Qed.

Lemma str_app_inv_head (c : ascii) (s t u : string) :
  String c s = t +:+ u ->
  (t = EmptyString /\ u = String c s) \/ (exists t', t = String c t' /\ s = t' +:+ u).
Proof.
  destruct t as [|c' t']; [rewrite str_app_nil_l; auto |].
  rewrite str_app_cons. intros [= <- ->]. right. eauto.
Qed.

Lemma str_starts_hyphen (c : ascii) (s t : string) :
  String c s = "-" +:+ t -> c = "-"%char /\ s = t.
Proof. rewrite str_app_cons, str_app_nil_l. by intros [= -> ->]. Qed.

Lemma name_ok_from_well_formed (b : bool) (s : string) :
  name_ok_from b s = true <->
  str_forall (fun c => is_lower_alnum c || is_hyphen c) s = true /\
  (b = false -> s <> EmptyString /\ forall t, s <> "-" +:+ t) /\
  (forall t, s <> t +:+ "-") /\
  (forall t u, s <> t +:+ "--" +:+ u).
Proof.
  revert b. induction s as [|c s IH]; intros b; cbn [name_ok_from str_forall].
  - split.
    + intros ->. split; [reflexivity |]. split; [discriminate |].
      split; intros t; [| intros u]; intros H; symmetry in H;
        apply str_app_eq_nil in H as [_ H]; discriminate.
    + intros (_ & Hb & _). destruct b; [reflexivity |]. by destruct (Hb eq_refl).
  - destruct (is_lower_alnum c) eqn:Hc; cbn [orb andb].
    + rewrite (IH true). split.
      * intros (Hall & _ & Hend & Hdbl). split; [exact Hall |]. split; [| split].
        -- intros _. split; [discriminate |]. intros t H.
           apply str_starts_hyphen in H as [-> _]. discriminate.
        -- intros t H. apply str_app_inv_head in H as [[_ H] | (t' & -> & H)];
             [injection H as <- _; discriminate | by eapply Hend].
        -- intros t u H. apply str_app_inv_head in H as [[_ H] | (t' & -> & H)];
             [| by eapply Hdbl].
           symmetry in H. apply str_starts_hyphen in H as [-> _]. discriminate.
      * intros (Hall & _ & Hend & Hdbl). split; [exact Hall |]. split; [discriminate |].
        split.
        -- intros t ->. by apply (Hend (String c t)).
        -- intros t u ->. by apply (Hdbl (String c t) u).
    + destruct (is_hyphen c) eqn:Hh; cbn [orb andb].
      * apply bool_decide_eq_true in Hh as ->. rewrite andb_true_iff, (IH false). split.
        -- intros (-> & Hall & Hstart & Hend & Hdbl).
           destruct (Hstart eq_refl) as [Hne Hhy].
           split; [exact Hall |]. split; [discriminate |]. split.
           ++ intros t H.
              apply str_app_inv_head in H as [[_ H] | (t' & -> & H)];
                [injection H as <-; by apply Hne | by eapply Hend].
           ++ intros t u H.
              apply str_app_inv_head in H as [[_ H] | (t' & -> & H)];
                [| by eapply Hdbl].
              symmetry in H. apply str_starts_hyphen in H as [_ H].
              by apply (Hhy u).
        -- intros (Hall & Hstart & Hend & Hdbl).
           destruct b.
           ++ split; [reflexivity |]. split; [exact Hall |]. split; [| split].
              ** intros _. split.
                 --- intros ->. by apply (Hend EmptyString).
                 --- intros t ->. by apply (Hdbl EmptyString t).
              ** intros t ->. by apply (Hend (String "-" t)).
              ** intros t u ->. by apply (Hdbl (String "-" t) u).
           ++ destruct (Hstart eq_refl) as [_ H]. by destruct (H s).
      * split; [discriminate |]. intros (? & _). discriminate.
Qed.

Lemma name_ok_well_formed (s : string) :
  name_ok_from false s = true <-> well_formed_name s.
Proof.
  rewrite name_ok_from_well_formed. unfold well_formed_name. split.
  - intros (Hall & Hstart & Hend & Hdbl). destruct (Hstart eq_refl). auto.
  - intros (Hne & Hall & Hstart & Hend & Hdbl). auto.
Qed.

Lemma chomp_newline_app (s s' : string) :
  chomp_newline s = Some s' <-> s = s' +:+ String "010" EmptyString.
Proof.
  revert s'. induction s as [|c s IH]; intros s'; cbn [chomp_newline].
  - split; [discriminate |]. intros H. symmetry in H.
    apply str_app_eq_nil in H as [_ H]. discriminate.
  - destruct s as [|c2 s].
    + split.
      * case_bool_decide as Hc; [| discriminate]. intros [= <-]. by subst c.
      * intros H. apply str_app_inv_head in H as [[-> H] | (t' & -> & H)].
        -- injection H as <-. by rewrite bool_decide_eq_true_2.
        -- symmetry in H. apply str_app_eq_nil in H as [_ H]. discriminate.
    + destruct (chomp_newline (String c2 s)) as [r|] eqn:Hr; cbn.
      * pose proof (proj1 (IH r) eq_refl) as Hr'. split.
        -- intros [= <-]. by rewrite Hr'.
        -- intros H. apply str_app_inv_head in H as [[-> H] | (t' & -> & H)].
           ++ injection H as _ H. discriminate.
           ++ apply IH in H. congruence.
      * split; [discriminate |]. intros H.
        apply str_app_inv_head in H as [[-> H] | (t' & -> & H)]; [discriminate |].
        apply IH in H. discriminate.
Qed.

(** X1: The pattern accepts the names the prompt describes, and those names
    followed by one newline: Python's [$] also matches just before a newline
    that ends the string. *)
Theorem project_name_pattern_in_words (s : string) :
  matches_project_name_pattern s = true <->
  well_formed_name s \/
  exists s', s = s' +:+ String "010" EmptyString /\ well_formed_name s'.
Proof.
  unfold matches_project_name_pattern, re_match_anchored.
  rewrite orb_true_iff, re_fullmatch_pattern_name_ok, name_ok_well_formed.
  apply or_iff_compat_l.
  destruct (chomp_newline s) as [s'|] eqn:Hs.
  - rewrite re_fullmatch_pattern_name_ok, name_ok_well_formed.
    apply chomp_newline_app in Hs. split.
    + intros H. eauto.
    + intros (s2 & H2 & Hw). rewrite Hs in H2.
      apply chomp_newline_app in H2.
      assert (chomp_newline (s' +:+ String "010" EmptyString) = Some s') as H3
        by by apply chomp_newline_app.
      congruence.
  - split; [discriminate |]. intros (s' & H & _).
    apply chomp_newline_app in H. congruence.
Qed.

Lemma project_name_pattern_in_words_witness :
  matches_project_name_pattern ("my-project" +:+ String "010" EmptyString) = true.
Proof.
  apply (proj2 (project_name_pattern_in_words _)).
  right. exists "my-project". split; [reflexivity |].
  by apply name_ok_well_formed.
Defined.

(** ** Fixed points of the sanitizer *)

Lemma lower_alnum_is_alnum (c : ascii) : is_lower_alnum c = true -> is_alnum c = true.
Proof.
  unfold is_lower_alnum, is_alnum. cbn [existsb]. rewrite !orb_false_r.
  intros [H | H]%orb_true_iff; rewrite H; by rewrite ?orb_true_r.
Qed.

Lemma lower_alnum_chr_lower (c : ascii) : is_lower_alnum c = true -> chr_lower c = c.
Proof.
  unfold is_lower_alnum, chr_lower, in_range. cbn [existsb fst snd].
  rewrite orb_false_r. intros H.
  destruct ((code "A" <=? code c)%N && (code c <=? code "Z")%N) eqn:E; [| reflexivity].
  exfalso. revert H E. unfold code.
  rewrite !andb_true_iff, orb_true_iff, !andb_true_iff, !N.leb_le. cbn. lia.
Qed.

Lemma re_sub_chars_lower_alnum (s : string) :
  str_forall is_lower_alnum s = true -> re_sub_chars NOT_ALNUM EmptyString s = s.
Proof.
  induction s as [|c s IH]; [reflexivity |]. cbn [str_forall re_sub_chars].
  intros [Hc Hs]%andb_true_iff.
  rewrite not_alnum_is_alnum, (lower_alnum_is_alnum _ Hc). cbn [negb].
  by rewrite IH.
Qed.

Lemma str_lower_lower_alnum (s : string) :
  str_forall is_lower_alnum s = true -> str_lower s = s.
Proof.
  induction s as [|c s IH]; [reflexivity |]. cbn [str_forall str_lower].
  intros [Hc Hs]%andb_true_iff. by rewrite (lower_alnum_chr_lower _ Hc), IH.
Qed.

Lemma str_slice_to_short (n : nat) (s : string) :
  String.length s <= n -> str_slice_to n s = s.
Proof.
  revert n. induction s as [|c s IH]; intros n; [by destruct n |].
  cbn [String.length]. destruct n as [|n]; [lia |]. intros H.
  cbn [str_slice_to]. rewrite IH; [reflexivity | lia].
Qed.

Lemma sanitize_project_name_fixed (s : string) :
  str_truthy s = true -> str_forall is_lower_alnum s = true -> String.length s <= 41 ->
  sanitize_project_name s = s.
Proof.
  intros Hne Hall Hlen. unfold sanitize_project_name.
  rewrite (re_sub_chars_lower_alnum _ Hall), (str_lower_lower_alnum _ Hall),
    (str_slice_to_short _ _ Hlen).
  unfold str_or. by rewrite Hne.
Qed.

(** X2: The sanitizer leaves its own results alone, and the names it leaves
    alone are the non-empty names of at most 41 lower-case letters and
    digits. *)
Theorem sanitize_project_name_idempotent :
  (forall name,
     sanitize_project_name (sanitize_project_name name) = sanitize_project_name name) /\
  (forall name,
     sanitize_project_name name = name <->
     name <> EmptyString /\ str_forall is_lower_alnum name = true /\
     String.length name <= 41).
Proof.
  split.
  - intros name. destruct (sanitize_project_name_shape name) as (Hne & Hall & Hlen).
    by apply sanitize_project_name_fixed.
  - intros name. split.
    + intros H. destruct (sanitize_project_name_shape name) as (Hne & Hall & Hlen).
      rewrite H in *. split; [by destruct name |]. auto.
    + intros (Hne & Hall & Hlen). apply sanitize_project_name_fixed; auto.
      by destruct name.
Qed.

Lemma sanitize_project_name_idempotent_witness :
  sanitize_project_name "my-project" <> "my-project" /\
  sanitize_project_name "myproject" = "myproject".
Proof.
  split.
  - intros H. apply (proj1 (proj2 sanitize_project_name_idempotent "my-project")) in H.
    destruct H as (_ & H & _). discriminate.
  - apply (proj2 (proj2 sanitize_project_name_idempotent "myproject")).
    split_and!; [discriminate | reflexivity | cbn; lia].
Defined.


(** ** The credentials file: writing, then reading *)

(** X3: What [write_creds_file] writes is what [load_creds_file] reads back,
    whatever the credentials hold and whatever the file held before: once
    the write has returned, loading from the same directory gives the same
    credentials and changes nothing. *)
Theorem write_creds_file_round_trip (c : LogfireCredentials) (creds_dir : string)
    (w : world) :
  (write_creds_file c creds_dir w).1 = Ok tt ->
  let w' := (write_creds_file c creds_dir w).2 in
  load_creds_file creds_dir w' = (Ok (Some c), w').
Proof.
  intros _. rewrite write_creds_file_writes. cbn [snd].
  apply load_creds_file_asdict. cbn. apply lookup_insert_eq.
Qed.

Lemma write_creds_file_round_trip_witness :
  fst (load_creds_file ".logfire"
         (write_creds_file my_project_credentials ".logfire" (creds_dir_with NotJSON)).2)
  = Ok (Some my_project_credentials).
Proof.
  rewrite (write_creds_file_round_trip my_project_credentials ".logfire"
             (creds_dir_with NotJSON) eq_refl).
  reflexivity.
Defined.

(** X4: A legacy key whose value is [null] is dropped: the file loads as the
    same file without the key does. *)
Theorem load_creds_file_null_legacy_key (creds_dir : string) (d : gmap string pyval)
    (w w' : world) :
  files w !! _get_creds_file creds_dir = Some (JSONText (PDict d)) ->
  d !! "dashboard_url" = Some PNone ->
  files w' !! _get_creds_file creds_dir
    = Some (JSONText (PDict (delete "dashboard_url" d))) ->
  fst (load_creds_file creds_dir w) = fst (load_creds_file creds_dir w').
Proof.
  intros Hw Hd Hw'. unfold load_creds_file. run_M. rewrite Hw, Hw'. cbn.
  rewrite Hd, lookup_delete_eq. cbn.
  destruct (LogfireCredentials_init (delete "dashboard_url" d)) as [c|e]; cbn;
    [reflexivity |].
  by destruct (is_TypeError e).
Qed.

Lemma load_creds_file_null_legacy_key_witness :
  fst (load_creds_file ".logfire"
         (creds_dir_with (JSONText (PDict (<["dashboard_url" := PNone]> (asdict my_project_credentials))))))
  = fst (load_creds_file ".logfire"
           (creds_dir_with (JSONText (PDict (delete "dashboard_url"
              (<["dashboard_url" := PNone]> (asdict my_project_credentials))))))).
Proof.
  apply (load_creds_file_null_legacy_key ".logfire"
           (<["dashboard_url" := PNone]> (asdict my_project_credentials))).
  - vm_compute. reflexivity.
  - vm_compute. reflexivity.
  - vm_compute. reflexivity.
Defined.

(** ** Token validation: the replies [from_token] does not survive *)

(** The request of [from_token]. *)
Lemma from_token_request (tok base_url : pyval) (w : world) (r : response)
    (rest : list http_outcome) :
  responses w = HttpResponds r :: rest ->
  status_code r = 200%Z ->
  from_token tok base_url w =
    (data ← lift (response_json r);
     name ← lift (py_getitem data "project_name");
     link ← lift (py_getitem data "project_url");
     mret (Some {| token := tok; project_name := name; project_url := link;
                   logfire_api_url := base_url |}))
      (set_responses rest
         (add_event (ERequest "GET" (urljoin base_url "/v1/info" []) tok None) w)).
Proof.
  intros Hr Hs. unfold from_token. run_M. rewrite Hr. cbn. rewrite Hs. reflexivity.
Qed.

(** X6: A 200 reply whose body is not a JSON object with the keys [project_name]
    and [project_url] makes [from_token] raise, with no warning: the body is
    read outside the [try]. *)
Theorem from_token_200_malformed (tok base_url : pyval) (w : world) (r : response)
    (rest : list http_outcome) :
  responses w = HttpResponds r :: rest ->
  status_code r = 200%Z ->
  (forall data name link,
     body r = Some data -> py_getitem data "project_name" = Ok name ->
     py_getitem data "project_url" = Ok link -> False) ->
  exists e,
    from_token tok base_url w =
      (Raise e,
       set_responses rest
         (add_event (ERequest "GET" (urljoin base_url "/v1/info" []) tok None) w)) /\
    (forall data, body r = Some data ->
       py_getitem data "project_name" = Raise e \/ py_getitem data "project_url" = Raise e).
Proof.
  intros Hr Hs Hbad. rewrite (from_token_request _ _ _ _ _ Hr Hs). run_M.
  unfold response_json. destruct (body r) as [data|] eqn:Hb.
  - destruct (py_getitem data "project_name") as [name|e] eqn:Hn.
    + destruct (py_getitem data "project_url") as [link|e] eqn:Hl.
      * destruct (Hbad data name link); auto.
      * exists e. split; [reflexivity |]. intros ? [= <-]. auto.
    + exists e. split; [reflexivity |]. intros ? [= <-]. auto.
  - eexists. split; [reflexivity |]. discriminate.
Qed.

Lemma from_token_200_malformed_witness :
  exists e,
    fst (from_token (PStr "tok") (PStr "https://api")
           (initial_world ∅ [] [reply 200 (PDict {[ "project_name" := PStr "p" ]})] None))
    = Raise e.
Proof.
  destruct (from_token_200_malformed (PStr "tok") (PStr "https://api")
              (initial_world ∅ [] [reply 200 (PDict {[ "project_name" := PStr "p" ]})] None)
              {| status_code := 200; body := Some (PDict {[ "project_name" := PStr "p" ]}) |} [])
    as (e & He & _).
  - reflexivity.
  - reflexivity.
  - intros data name link [= <-] _ Hl. vm_compute in Hl. discriminate.
  - exists e. by rewrite He.
Defined.

(** ** What the interactive flow does to the world *)

Lemma conversation_refl (ok : event -> Prop) (w : world) : conversation ok w w.
Proof.
  unfold conversation. split_and!; try reflexivity.
  exists []. split; [by rewrite app_nil_r | constructor].
Qed.

Lemma conversation_trans (ok : event -> Prop) (w1 w2 w3 : world) :
  conversation ok w1 w2 -> conversation ok w2 w3 -> conversation ok w1 w3.
Proof.
  intros (Hf & He & Hc & Hu & n1 & Hn1 & Hq1) (Hf' & He' & Hc' & Hu' & n2 & Hn2 & Hq2).
  unfold conversation. split_and!; try congruence.
  exists (n1 ++ n2). split; [by rewrite Hn2, Hn1, app_assoc | by apply Forall_app].
Qed.

Lemma conversation_add_event (ok : event -> Prop) (e : event) (w : world) :
  ok e -> conversation ok w (add_event e w).
Proof.
  intros He. unfold conversation. split_and!; try reflexivity.
  exists [e]. split; [reflexivity | by constructor].
Qed.

Lemma conversation_set_answers (ok : event -> Prop) (ans : list answer) (w w' : world) :
  conversation ok w w' -> conversation ok w (set_answers ans w').
Proof. intros H. exact H. Qed.

Lemma conversation_set_responses (ok : event -> Prop) (rs : list http_outcome)
    (w w' : world) :
  conversation ok w w' -> conversation ok w (set_responses rs w').
Proof. intros H. exact H. Qed.

Lemma conversation_impl (ok ok' : event -> Prop) (w w' : world) :
  (forall e, ok e -> ok' e) -> conversation ok w w' -> conversation ok' w w'.
Proof.
  intros Hok (Hf & He & Hc & Hu & new & Hn & Hq).
  unfold conversation. split_and!; auto.
  exists new. split; [exact Hn |]. eapply Forall_impl; eauto.
Qed.

Section Talks.
Variables (login : option string) (ok : event -> Prop).

Lemma talks_ret {A : Type} (a : A) (Q : A -> Prop) : Q a -> talks login ok (mret a) Q.
Proof. intros Ha w _. split; [apply conversation_refl |]. by intros ? [= <-]. Qed.

Lemma talks_raise {A : Type} (e : exn) (Q : A -> Prop) : talks login ok (raise e) Q.
Proof. intros w _. split; [apply conversation_refl | discriminate]. Qed.

Lemma talks_lift {A : Type} (r : result A) : talks login ok (lift r) (fun a => r = Ok a).
Proof. intros w _. split; [apply conversation_refl | auto]. Qed.

Lemma talks_weaken {A : Type} (m : M A) (Q Q' : A -> Prop) :
  talks login ok m Q -> (forall a, Q a -> Q' a) -> talks login ok m Q'.
Proof. intros Hm HQ w Hw. destruct (Hm w Hw) as [Hc Ha]. split; auto. Qed.

Lemma talks_bind {A B : Type} (m : M A) (f : A -> M B) (Q1 : A -> Prop) (Q2 : B -> Prop) :
  talks login ok m Q1 -> (forall a, Q1 a -> talks login ok (f a) Q2) ->
  talks login ok (m ≫= f) Q2.
Proof.
  intros Hm Hf w Hw. unfold mbind, M_bind. destruct (Hm w Hw) as [Hc Ha].
  destruct (m w) as [[a|e] w1]; cbn in *; [| split; [exact Hc | discriminate]].
  assert (user_token w1 = login) as Hw1 by (destruct Hc as (_ & _ & _ & -> & _); exact Hw).
  destruct (Hf a (Ha a eq_refl) w1 Hw1) as [Hc' Ha'].
  split; [by eapply conversation_trans | exact Ha'].
Qed.

Lemma talks_bind_any {A B : Type} (m : M A) (f : A -> M B) (Q : B -> Prop) :
  talks login ok m (fun _ => True) -> (forall a, talks login ok (f a) Q) ->
  talks login ok (m ≫= f) Q.
Proof. intros Hm Hf. eapply talks_bind; [exact Hm | auto]. Qed.

Lemma talks_fmap {A B : Type} (g : A -> B) (m : M A) (Q : A -> Prop) (Q' : B -> Prop) :
  talks login ok m Q -> (forall a, Q a -> Q' (g a)) -> talks login ok (g <$> m) Q'.
Proof.
  intros Hm HQ w Hw. unfold fmap, M_fmap. destruct (Hm w Hw) as [Hc Ha].
  destruct (m w) as [[a|e] w1]; cbn in *; split; auto; [| discriminate].
  intros ? [= <-]. auto.
Qed.

Lemma talks_try {A : Type} (body : M A) (handled : exn -> bool) (handler : exn -> M A)
    (Q : A -> Prop) :
  talks login ok body Q -> (forall e, talks login ok (handler e) Q) ->
  talks login ok (try_except body handled handler) Q.
Proof.
  intros Hb Hh w Hw. unfold try_except. destruct (Hb w Hw) as [Hc Ha].
  destruct (body w) as [[a|e] w1]; cbn in *; [by split |].
  destruct (handled e); [| split; [exact Hc | discriminate]].
  assert (user_token w1 = login) as Hw1 by (destruct Hc as (_ & _ & _ & -> & _); exact Hw).
  destruct (Hh e w1 Hw1) as [Hc' Ha'].
  split; [by eapply conversation_trans | exact Ha'].
Qed.

Lemma talks_if {A : Type} (b : bool) (m1 m2 : M A) (Q : A -> Prop) :
  talks login ok m1 Q -> talks login ok m2 Q -> talks login ok (if b then m1 else m2) Q.
Proof. by destruct b. Qed.

Lemma talks_emit (e : event) : ok e -> talks login ok (emit e) (fun _ => True).
Proof. intros He w _. split; [by apply conversation_add_event | auto]. Qed.

Lemma talks_print (msg : string) :
  ok (EPrint msg) -> talks login ok (print msg) (fun _ => True).
Proof. apply talks_emit. Qed.

Lemma talks_Prompt_ask (p : prompt_msg) (cs : option (list pyval)) (d : ask_default) :
  ok (EPrompt p cs d) -> talks login ok (Prompt_ask p cs d) (fun _ => True).
Proof.
  intros He w _. unfold Prompt_ask. cbn.
  destruct (read_answer cs d (answers w)) as [r rest]. cbn.
  split; [| auto]. by apply conversation_set_answers, conversation_add_event.
Qed.

Lemma talks_Confirm_ask (p : prompt_msg) (d : bool) :
  ok (EConfirm p d) -> talks login ok (Confirm_ask p d) (fun _ => True).
Proof.
  intros He w _. unfold Confirm_ask. cbn.
  destruct (read_confirm d (answers w)) as [r rest]. cbn.
  split; [| auto]. by apply conversation_set_answers, conversation_add_event.
Qed.

Lemma talks_session_request (m : string) (u : url) (a : pyval) (j : option pyval) :
  ok (ERequest m u a j) -> talks login ok (session_request m u a j) (fun _ => True).
Proof.
  intros He w _. unfold session_request.
  assert (conversation ok w
            (set_responses (tail (responses w)) (add_event (ERequest m u a j) w))) as Hc
    by by apply conversation_set_responses, conversation_add_event.
  destruct (responses w) as [|[]]; cbn; auto.
Qed.

Lemma talks_get_user_token (api : pyval) :
  talks login ok (_get_user_token api) (fun t => login = Some t).
Proof.
  intros w Hw. unfold _get_user_token. rewrite Hw.
  destruct login as [t|]; cbn; (split; [apply conversation_refl |]).
  - by intros ? [= <-].
  - discriminate.
Qed.

Lemma talks_default_project_name : talks login ok default_project_name (fun _ => True).
Proof. intros w _. split; [apply conversation_refl | auto]. Qed.

Lemma talks_while_true {St A : Type} (body : St -> M (St + A)) (Q : A -> Prop) :
  (forall st, talks login ok (body st) (fun r => match r with inl _ => True | inr a => Q a end)) ->
  forall fuel st, talks login ok (while_true fuel body st) Q.
Proof.
  intros Hbody fuel. induction fuel as [|fuel IH]; intros st.
  - apply talks_raise.
  - cbn [while_true]. eapply talks_bind; [apply Hbody |].
    intros [st'|a] Hr; [apply IH | by apply talks_ret].
Qed.

Lemma talks_checked_request (m : string) (u : url) (tok msg : string) :
  ok (ERequest m u (PStr tok) None) ->
  talks login ok (checked_request m u tok msg) (fun _ => True).
Proof.
  intros He. unfold checked_request. apply talks_try; [| intros; apply talks_raise].
  apply talks_bind_any; [by apply talks_session_request |]. intros r.
  apply talks_bind_any; [eapply talks_weaken; [apply talks_lift | auto] |].
  intros ?. by apply talks_ret.
Qed.

Lemma talks_lift_any {A : Type} (r : result A) : talks login ok (lift r) (fun _ => True).
Proof. eapply talks_weaken; [apply talks_lift | auto]. Qed.

Lemma talks_ret_any {A : Type} (a : A) : talks login ok (mret a) (fun _ => True).
Proof. by apply talks_ret. Qed.

Lemma talks_fmap_any {A B : Type} (g : A -> B) (m : M A) :
  talks login ok m (fun _ => True) -> talks login ok (g <$> m) (fun _ => True).
Proof. intros Hm. eapply talks_fmap; [exact Hm | auto]. Qed.
End Talks.

Create HintDb talks.

#[local] Hint Resolve talks_ret_any talks_lift_any talks_fmap_any talks_raise
  talks_default_project_name : talks.

(** Split a function into its statements; what is left are the events. *)
Ltac talk_steps :=
  repeat first
    [ solve [auto with talks]
    | match goal with |- talks _ _ (_ <$> _) _ => apply talks_fmap_any end
    | apply talks_bind_any; [| intros]
    | apply talks_try; [| intros]
    | apply talks_if
    | apply talks_print
    | apply talks_Prompt_ask
    | apply talks_Confirm_ask
    | apply talks_session_request
    | apply talks_checked_request
    | match goal with
      | |- talks _ _ (match ?x with _ => _ end) _ => destruct x
      | |- talks _ _ (let '(_, _) := ?x in _) _ => destruct x
      end ].

Section ApiTalk.
Variables (api : pyval) (t : string).

Let ok := terminal_or_request_to api t.

Lemma ok_request (m path : string) (args : list pyval) (j : option pyval) :
  ok (ERequest m (urljoin api path args) (PStr t) j).
Proof. by split. Qed.

Ltac ok_events := try first [ exact I | apply ok_request ].

(** Every function of the flow starts by reading the login. *)
Ltac with_login :=
  eapply talks_bind; [apply talks_get_user_token |];
  let tok := fresh "tok" in intros tok [= <-].

Lemma at_get_user_for_token : talks (Some t) ok (_get_user_for_token t api) (fun _ => True).
Proof. unfold _get_user_for_token. talk_steps; ok_events. Qed.

Lemma at_get_user_projects : talks (Some t) ok (get_user_projects api) (fun _ => True).
Proof. unfold get_user_projects. with_login. talk_steps; ok_events. Qed.

Lemma at_use_existing_project (projects : pyval) (organization project_name : option string) :
  talks (Some t) ok (use_existing_project api projects organization project_name)
    (fun _ => True).
Proof. unfold use_existing_project. with_login. talk_steps; ok_events. Qed.

Lemma at_valid_project_name (d : ask_default) (name : pyval) :
  talks (Some t) ok (valid_project_name d name) (fun _ => True).
Proof.
  intros w. unfold valid_project_name. apply talks_while_true.
  intros st. unfold reprompt_invalid_name.
  apply talks_bind_any; [talk_steps |]. intros invalid.
  destruct invalid.
  - eapply talks_fmap; [by apply talks_Prompt_ask | auto].
  - by apply talks_ret.
Qed.

Lemma at_submit_project_name (organization : pyval) (name : pyval) :
  talks (Some t) ok (submit_project_name api organization t name) (fun _ => True).
Proof. unfold submit_project_name. talk_steps; ok_events. Qed.

Lemma at_create_project_loop (organization : pyval) (force : bool)
    (st : pyval * ask_default * prompt_msg) :
  talks (Some t) ok (create_project_loop api organization t force st) (fun _ => True).
Proof.
  intros w. unfold create_project_loop. apply talks_while_true.
  clear st. intros [[name d] prompt]. unfold create_project_round.
  pose proof at_valid_project_name. pose proof at_submit_project_name.
  apply talks_bind_any; [talk_steps; ok_events |]. intros name'.
  apply talks_bind_any; [auto |]. intros name''.
  eapply talks_weaken; [auto |]. by intros [].
Qed.

Lemma at_create_new_project (organization : option string) (default_organization : bool)
    (project_name : pyval) (force : bool) :
  talks (Some t) ok
    (create_new_project api organization default_organization project_name force)
    (fun _ => True).
Proof.
  unfold create_new_project. with_login.
  pose proof at_get_user_for_token. pose proof at_create_project_loop.
  talk_steps; ok_events.
Qed.

Lemma init_with_url_api (credentials : pyval) (c : LogfireCredentials) :
  LogfireCredentials_init_with_url credentials api = Ok c -> logfire_api_url c = api.
Proof.
  unfold LogfireCredentials_init_with_url, LogfireCredentials_init.
  destruct credentials as [| | | | | |d]; try discriminate.
  case_bool_decide; [discriminate |]. case_bool_decide; [| discriminate].
  rewrite lookup_insert_eq.
  repeat case_match; try discriminate. by intros [= <-].
Qed.

Lemma at_initialize_project (project_name : pyval) :
  talks (Some t) ok (initialize_project api project_name)
    (fun c => logfire_api_url c = api).
Proof.
  unfold initialize_project.
  pose proof at_get_user_projects. pose proof at_use_existing_project.
  pose proof at_create_new_project.
  apply talks_bind_any; [talk_steps; ok_events |]. intros ?.
  apply talks_bind_any; [auto |]. intros projects.
  apply talks_bind_any; [talk_steps; ok_events |]. intros credentials.
  apply talks_bind_any; [talk_steps |]. clear credentials. intros credentials.
  apply talks_try; [| intros; apply talks_raise].
  eapply talks_bind; [apply talks_lift |]. intros c Hc.
  apply talks_bind_any; [by apply talks_Prompt_ask |]. intros ?.
  apply talks_ret. by apply init_with_url_api in Hc.
Qed.
End ApiTalk.

(** X7: The whole bootstrap is a conversation with the terminal and with the API
    at [api]: every request goes there and carries the user's login token,
    nothing else happens, no file is touched; and the credentials returned
    name that API. *)
Theorem initialize_project_talks_to_api (api project_name : pyval) (tok : string)
    (w : world) :
  user_token w = Some tok ->
  conversation (terminal_or_request_to api tok) w (initialize_project api project_name w).2 /\
  forall c, (initialize_project api project_name w).1 = Ok c -> logfire_api_url c = api.
Proof. apply at_initialize_project. Qed.

Lemma initialize_project_talks_to_api_witness :
  conversation (terminal_or_request_to (PStr "https://logfire-api.pydantic.dev") "user-token")
    creates_my_project
    (initialize_project (PStr "https://logfire-api.pydantic.dev") PNone creates_my_project).2.
Proof.
  apply (initialize_project_talks_to_api (PStr "https://logfire-api.pydantic.dev") PNone
           "user-token" creates_my_project).
  reflexivity.
Defined.

(** ** Using an existing project *)

Lemma filter_by_key_incl (key value : string) (items kept : list pyval) :
  filter_by_key key value items = Ok kept -> forall x, In x kept -> In x items.
Proof.
  revert kept. induction items as [|p items IH]; intros kept; cbn.
  - intros [= <-] x [].
  - destruct (py_getitem p key) as [v|e]; cbn; [| discriminate].
    destruct (filter_by_key key value items) as [kept'|e]; cbn; [| discriminate].
    intros [= <-] x Hx. destruct (py_eq_str v value).
    + destruct Hx as [-> | Hx]; [by left | right; by eapply IH].
    + right. by eapply IH.
Qed.

Lemma project_choices_from_listed (index : nat) (items : list pyval)
    (choices : list (string * (pyval * pyval))) :
  project_choices_from index items = Ok choices ->
  forall k o n, In (k, (o, n)) choices -> listed_project items o n.
Proof.
  revert index choices. induction items as [|item items IH]; intros index choices; cbn.
  - intros [= <-] k o n [].
  - destruct (py_getitem item "organization_name") as [o'|e] eqn:Ho; cbn; [| discriminate].
    destruct (py_getitem item "project_name") as [n'|e] eqn:Hn; cbn; [| discriminate].
    destruct (project_choices_from (S index) items) as [others|e] eqn:Hothers; cbn;
      [| discriminate].
    intros [= <-] k o n [[= _ <- <-] | Hin].
    + exists item. split; [by left | auto].
    + destruct (IH _ _ Hothers _ _ _ Hin) as (item' & Hi & ? & ?).
      exists item'. split; [by right | auto].
Qed.

Lemma project_choices_getitem_in (choices : list (string * (pyval * pyval)))
    (key : pyval) (o n : pyval) :
  project_choices_getitem choices key = Ok (o, n) -> exists k, In (k, (o, n)) choices.
Proof.
  unfold project_choices_getitem. destruct key as [| | | |k| |]; try discriminate.
  destruct (list_find _ choices) as [[i [k' on]]|] eqn:Hfind; [| discriminate].
  cbn. intros [= ->]. apply list_find_Some in Hfind as (Hl & _ & _).
  exists k'. eapply list_elem_of_In, list_elem_of_lookup_2. exact Hl.
Qed.

Lemma listed_project_incl (items kept : list pyval) (o n : pyval) :
  (forall x, In x kept -> In x items) -> listed_project kept o n -> listed_project items o n.
Proof. intros Hincl (item & Hi & Ho & Hn). exists item. auto. Qed.

Section ListedProjects.
Variables (api : pyval) (t : string) (items : list pyval).

Let ok := print_prompt_or_listed api t items.

(** The only request [use_existing_project] sends asks for a write token of
    one of the projects it was given. *)
Lemma listed_use_existing_project (organization project_name : option string) :
  talks (Some t) ok (use_existing_project api (PList items) organization project_name)
    (fun _ => True).
Proof.
  unfold use_existing_project.
  eapply talks_bind; [apply talks_get_user_token |]. intros tok [= <-].
  apply (talks_bind _ _ _ _ (fun fp => exists l, fp = PList l /\ forall x, In x l -> In x items)).
  { destruct organization as [o|]; [| apply talks_ret; eauto].
    eapply talks_bind; [apply talks_lift |]. intros l [= <-].
    eapply talks_fmap; [apply talks_lift |]. cbn beta.
    intros kept Hk. exists kept. split; [reflexivity |]. by eapply filter_by_key_incl. }
  intros fp (l & -> & Hl).
  apply (talks_bind _ _ _ _ (fun fp => exists l, fp = PList l /\ forall x, In x l -> In x items)).
  { destruct project_name as [n|]; [| apply talks_ret; eauto].
    eapply talks_bind; [apply talks_lift |]. intros l' [= <-].
    eapply talks_fmap; [apply talks_lift |]. cbn beta.
    intros kept Hk. exists kept. split; [reflexivity |].
    intros x Hx. eapply Hl, filter_by_key_incl; eauto. }
  clear l Hl. intros fp (l & -> & Hl).
  apply talks_bind_any; [talk_steps |]. intros exact_match.
  apply (talks_bind _ _ _ _ (fun selection =>
    match selection with
    | None => True
    | Some (fp, o, n) =>
        (exists l, fp = PList l /\ forall x, In x l -> In x items) /\
        (is_None o || is_None n = false -> listed_project items o n)
    end)).
  { destruct exact_match.
    - eapply talks_bind; [apply talks_lift |]. intros p Hp.
      eapply talks_bind; [apply talks_lift |]. intros o Ho.
      eapply talks_bind; [apply talks_lift |]. intros n Hn.
      apply talks_ret. split; [eauto |]. intros _.
      exists p. split; [| auto]. apply Hl. destruct l; [discriminate |].
      injection Hp as <-. by left.
    - destruct (negb (py_truthy (PList l))).
      + destruct (negb (py_truthy (PList items))).
        * apply talks_bind_any; [by apply talks_print |]. intros ?. by apply talks_ret.
        * apply talks_bind_any; [by apply talks_Prompt_ask |]. intros choice.
          destruct (py_eq_str choice "n").
          -- apply talks_bind_any; [by apply talks_print |]. intros ?. by apply talks_ret.
          -- apply talks_ret. split; [eauto | discriminate].
      + apply talks_bind_any; [talk_steps; exact I |]. intros ?.
        apply talks_ret. split; [eauto | discriminate]. }
  intros [[[fp o] n]|] Hsel; [| by apply talks_ret].
  destruct Hsel as [(l' & -> & Hl') Hon].
  apply (talks_bind _ _ _ _ (fun on => listed_project items on.1 on.2)).
  { destruct (is_None o || is_None n).
    - eapply talks_bind; [apply talks_lift |]. intros l'' [= <-].
      eapply talks_bind; [apply talks_lift |]. intros choices Hchoices.
      apply talks_bind_any; [by apply talks_Prompt_ask |]. intros key.
      eapply talks_weaken; [apply talks_lift |]. intros [o' n'] Hget.
      apply project_choices_getitem_in in Hget as [k Hk].
      eapply listed_project_incl; [exact Hl' |].
      exact (project_choices_from_listed _ _ _ Hchoices _ _ _ Hk).
    - apply talks_ret. auto. }
  intros [o' n'] Hlisted.
  apply talks_bind_any; [| intros; apply talks_lift_any].
  apply talks_checked_request. exists o', n'. by split.
Qed.
End ListedProjects.

(** X8: The only request [use_existing_project] sends asks, with the user's
    login token, for a write token of one of the projects it was given;
    besides that it prints and prompts, and touches no file. *)
Theorem use_existing_project_requests_listed (api : pyval) (tok : string)
    (items : list pyval) (organization project_name : option string) (w : world) :
  user_token w = Some tok ->
  conversation (print_prompt_or_listed api tok items) w
    (use_existing_project api (PList items) organization project_name w).2.
Proof. intros Hw. by apply listed_use_existing_project. Qed.

Lemma use_existing_project_requests_listed_witness :
  conversation
    (print_prompt_or_listed (PStr "https://logfire-api.pydantic.dev") "user-token" one_project)
    (initial_world ∅ [Enter] [reply 200 created_project] (Some "user-token"))
    (use_existing_project (PStr "https://logfire-api.pydantic.dev") (PList one_project)
       None None
       (initial_world ∅ [Enter] [reply 200 created_project] (Some "user-token"))).2.
Proof.
  apply (use_existing_project_requests_listed (PStr "https://logfire-api.pydantic.dev")
           "user-token" one_project None None).
  reflexivity.
Defined.

(** ** Login first, then one request *)

Lemma get_user_token_logged_in (api : pyval) (tok : string) (w : world) :
  user_token w = Some tok -> _get_user_token api w = (Ok tok, w).
Proof. intros H. unfold _get_user_token. by rewrite H. Qed.

Lemma get_user_token_logged_out (api : pyval) (w : world) :
  user_token w = None ->
  exists msg, _get_user_token api w = (Raise (LogfireConfigError msg), w).
Proof. intros H. unfold _get_user_token. rewrite H. eauto. Qed.

(** X11: Without a login nothing is sent and nothing is asked: the functions
    that talk to the API raise [LogfireConfigError] at once and leave the
    world as it is ([initialize_project] has printed its first message by
    then), and [get_current_user] returns [None]. *)
Theorem api_calls_need_login (api : pyval) (w : world) :
  user_token w = None ->
  (exists msg, get_user_projects api w = (Raise (LogfireConfigError msg), w)) /\
  (forall projects organization project_name,
     exists msg, use_existing_project api projects organization project_name w
                 = (Raise (LogfireConfigError msg), w)) /\
  (forall organization default_organization project_name force,
     exists msg,
       create_new_project api organization default_organization project_name force w
       = (Raise (LogfireConfigError msg), w)) /\
  (forall project_name,
     exists msg first_message,
       initialize_project api project_name w
       = (Raise (LogfireConfigError msg), add_event (EPrint first_message) w)) /\
  get_current_user api w = (Ok PNone, w).
Proof.
  intros Hw. destruct (get_user_token_logged_out api w Hw) as [msg Hmsg].
  split_and!.
  - exists msg. unfold get_user_projects, mbind, M_bind. by rewrite Hmsg.
  - intros. exists msg. unfold use_existing_project, mbind, M_bind. by rewrite Hmsg.
  - intros. exists msg. unfold create_new_project, mbind, M_bind. by rewrite Hmsg.
  - intros. unfold initialize_project, get_user_projects, _get_user_token, print, emit,
      mbind, M_bind.
    cbn. rewrite Hw. eexists _, _. reflexivity.
  - unfold get_current_user, mbind, M_bind, try_except, fmap, M_fmap. by rewrite Hmsg.
Qed.

Lemma api_calls_need_login_witness :
  get_current_user (PStr "https://logfire-api.pydantic.dev") (initial_world ∅ [] [] None)
  = (Ok PNone, initial_world ∅ [] [] None).
Proof.
  apply (api_calls_need_login (PStr "https://logfire-api.pydantic.dev")
           (initial_world ∅ [] [] None) eq_refl).
Defined.

Lemma checked_request_outcome (m : string) (u : url) (tok msg : string) (w : world) :
  checked_request m u tok msg w =
    (match accepted_reply w with
     | Some r => Ok r
     | None => Raise (LogfireConfigError msg)
     end,
     after_request (ERequest m u (PStr tok) None) w).
Proof.
  unfold checked_request, accepted_reply, after_request. run_M.
  destruct (responses w) as [|[err|r] rest]; cbn; try reflexivity.
  unfold raise_for_status.
  by destruct ((200 <=? status_code r)%Z && (status_code r <? 300)%Z).
Qed.

(** X12: With a login, [get_user_projects] and [get_current_user] send exactly
    one request carrying the login token; a failed request and a reply that
    [raise_for_status] rejects become a [LogfireConfigError], and otherwise
    the JSON body of the reply is returned. *)
Theorem account_requests_outcomes (api : pyval) (tok : string) (w : world) :
  user_token w = Some tok ->
  get_user_projects api w =
    (match accepted_reply w with
     | Some r => response_json r
     | None => Raise (LogfireConfigError "Error retrieving list of projects.")
     end,
     after_request (ERequest "GET" (urljoin api "/v1/projects/" []) (PStr tok) None) w) /\
  get_current_user api w =
    (match accepted_reply w with
     | Some r => response_json r
     | None => Raise (LogfireConfigError "Error retrieving user information.")
     end,
     after_request (ERequest "GET" (urljoin api "/v1/account/me" []) (PStr tok) None) w).
Proof.
  intros Hw. split.
  - unfold get_user_projects, mbind, M_bind.
    rewrite (get_user_token_logged_in _ _ _ Hw), checked_request_outcome.
    destruct (accepted_reply w); reflexivity.
  - unfold get_current_user, _get_user_for_token, mbind, M_bind, try_except, fmap, M_fmap.
    rewrite (get_user_token_logged_in _ _ _ Hw), checked_request_outcome.
    destruct (accepted_reply w); reflexivity.
Qed.

Lemma account_requests_outcomes_witness :
  fst (get_current_user (PStr "https://logfire-api.pydantic.dev")
         (initial_world ∅ [] [reply 500 PNone] (Some "user-token")))
  = Raise (LogfireConfigError "Error retrieving user information.").
Proof.
  rewrite (proj2 (account_requests_outcomes (PStr "https://logfire-api.pydantic.dev")
                    "user-token" (initial_world ∅ [] [reply 500 PNone] (Some "user-token"))
                    eq_refl)).
  reflexivity.
Defined.

(** ** Giving up on an existing project, declining the organization *)

Lemma Prompt_ask_typed (p : prompt_msg) (cs : option (list pyval)) (d : ask_default)
    (line : string) (ans : list answer) (w : world) :
  answers w = Typed line :: ans ->
  choice_ok cs line = true ->
  Prompt_ask p cs d w = (Ok (PStr line), set_answers ans (add_event (EPrompt p cs d) w)).
Proof. intros Ha Hc. unfold Prompt_ask. cbn. rewrite Ha. cbn. by rewrite Hc. Qed.

(** X10: [use_existing_project] returns [None] without sending anything when the
    user has no project at all, and when no project passes the filters and
    the user answers [n] to the offer to choose from all projects. *)
Theorem use_existing_project_gives_up (api : pyval) (tok : string)
    (organization project_name : option string) (w : world) :
  user_token w = Some tok ->
  (exists msg,
     use_existing_project api (PList []) organization project_name w
     = (Ok PNone, add_event (EPrint msg) w)) /\
  (forall items ans,
     items <> [] ->
     filter_projects organization project_name items = Ok [] ->
     answers w = Typed "n" :: ans ->
     exists question hint,
       use_existing_project api (PList items) organization project_name w
       = (Ok PNone,
          add_event (EPrint hint)
            (set_answers ans
               (add_event (EPrompt question (Some [PStr "y"; PStr "n"]) (Default (PStr "y")))
                  w)))).
Proof.
  intros Hw. split.
  - unfold use_existing_project, mbind, M_bind.
    rewrite (get_user_token_logged_in _ _ _ Hw).
    destruct organization, project_name; cbn; eauto.
  - intros items ans Hne Hfilter Hans.
    unfold use_existing_project, mbind, M_bind.
    rewrite (get_user_token_logged_in _ _ _ Hw).
    unfold filter_projects in Hfilter. run_M. cbn [py_iter].
    assert (forall question hint (st : option (pyval * pyval * pyval)),
      (let (r, w') := Prompt_ask question (Some [PStr "y"; PStr "n"]) (Default (PStr "y")) w in
       match r with
       | Ok a =>
           (if py_eq_str a "n"
            then fun w1 => (Ok None, add_event (EPrint hint) w1)
            else fun w1 => (Ok st, w1)) w'
       | Raise e => (Raise e, w')
       end) =
      (Ok None,
       add_event (EPrint hint)
         (set_answers ans
            (add_event (EPrompt question (Some [PStr "y"; PStr "n"]) (Default (PStr "y")))
               w)))) as Hno.
    { intros. by erewrite Prompt_ask_typed by (exact Hans || reflexivity). }
    destruct organization as [o|]; cbn in Hfilter.
    + destruct (filter_by_key "organization_name" o items) as [kept|e]; [| discriminate].
      cbn in Hfilter.
      destruct project_name as [n|].
      * cbn [py_iter]. rewrite Hfilter. cbn [py_len length py_truthy negb].
        rewrite bool_decide_eq_false_2 by done.
        destruct items as [|item items]; [done |]. cbn [negb].
        rewrite Hno. eauto.
      * injection Hfilter as ->. cbn [py_truthy negb].
        destruct items as [|item items]; [done |]. cbn [negb].
        rewrite Hno. eauto.
    + destruct project_name as [n|]; cbn in Hfilter; [| congruence].
      cbn [py_iter]. rewrite Hfilter. cbn [py_len length py_truthy negb].
      rewrite bool_decide_eq_false_2 by done.
      destruct items as [|item items]; [done |]. cbn [negb].
      rewrite Hno. eauto.
Qed.

Lemma use_existing_project_gives_up_witness :
  exists question hint,
    use_existing_project (PStr "https://logfire-api.pydantic.dev") (PList one_project)
      (Some "other") None (initial_world ∅ [Typed "n"] [] (Some "user-token"))
    = (Ok PNone,
       add_event (EPrint hint)
         (set_answers []
            (add_event (EPrompt question (Some [PStr "y"; PStr "n"]) (Default (PStr "y")))
               (initial_world ∅ [Typed "n"] [] (Some "user-token"))))).
Proof.
  apply (proj2 (use_existing_project_gives_up (PStr "https://logfire-api.pydantic.dev")
                  "user-token" (Some "other") None
                  (initial_world ∅ [Typed "n"] [] (Some "user-token")) eq_refl)
           one_project []).
  - discriminate.
  - vm_compute. reflexivity.
  - reflexivity.
Defined.

(** X13: A user with a single organization who declines it at the confirmation
    leaves [create_new_project] through [sys.exit(1)]: the list of
    organizations has been requested, and nothing has been created. *)
Theorem create_new_project_declined (api : pyval) (tok : string)
    (organization : option string) (project_name : pyval) (force : bool) (w : world)
    (item o : pyval) (rest : list http_outcome) (line : string) (ans : list answer) :
  user_token w = Some tok ->
  responses w = reply 200 (PList [item]) :: rest ->
  py_getitem item "organization_name" = Ok o ->
  py_in organization [o] = false ->
  answers w = Typed line :: ans ->
  str_lower line = "n" ->
  create_new_project api organization false project_name force w =
    (Raise (SystemExit 1),
     set_answers ans
       (add_event (EConfirm (PromptConfirmOrganization o) true)
          (after_request
             (ERequest "GET" (urljoin api "/v1/organizations/" []) (PStr tok) None) w))).
Proof.
  intros Hw Hr Ho Hin Hans Hline.
  unfold create_new_project, mbind, M_bind.
  rewrite (get_user_token_logged_in _ _ _ Hw), checked_request_outcome.
  unfold accepted_reply. rewrite Hr. cbn. rewrite Ho.
  cbn [mbind result_bind mret result_ret]. rewrite Hin.
  cbn [negb length list_getitem_0]. rewrite bool_decide_eq_false_2 by lia.
  unfold Confirm_ask. cbn. rewrite Hans. cbn [read_confirm]. rewrite Hline.
  reflexivity.
Qed.

Lemma create_new_project_declined_witness :
  fst (create_new_project (PStr "https://logfire-api.pydantic.dev") None false PNone true
         (initial_world ∅ [Typed "N"] [reply 200 only_acme] (Some "user-token")))
  = Raise (SystemExit 1).
Proof.
  rewrite (create_new_project_declined (PStr "https://logfire-api.pydantic.dev")
             "user-token" None PNone true
             (initial_world ∅ [Typed "N"] [reply 200 only_acme] (Some "user-token"))
             (PDict {[ "organization_name" := PStr "acme" ]}) (PStr "acme") [] "N" []);
    reflexivity.
Defined.


(** ** [configure] when nothing is stored and nothing is asked *)

Lemma sends_to_logfire_cases (d : _LogfireConfigData) :
  sends_to_logfire d = false <->
  cfg_send_to_logfire d = SendFalse \/
  (cfg_send_to_logfire d = SendIfTokenPresent /\ cfg_token d = PNone).
Proof.
  unfold sends_to_logfire.
  destruct (cfg_send_to_logfire d); cbn; destruct (cfg_token d); cbn;
    split; (discriminate || tauto || (intros [? | [? ?]]; discriminate) || auto).
Qed.

(** [_initialize] in terms of what it does about the export to Logfire: the
    statements before keep [P0], the statements after keep [P2]. *)
Lemma initialize_around_export (resolved : _LogfireConfigData)
    (P0 P1 P2 E : process -> Prop) :
  steady P0 -> steady P2 ->
  (forall p, P0 p -> E p) -> (forall p, P2 p -> E p) ->
  (forall p, P0 p -> cfg (self_config (inside p)) = resolved) ->
  (sends_to_logfire resolved = true ->
   phoare P0
     (if is_None (cfg_token resolved)
      then use_stored_or_new_credentials
      else in_world (emit (EThreadStart "check_logfire_token")))
     (fun _ => P1) E) ->
  (sends_to_logfire resolved = true ->
   forall pending metric_readers,
     phoare P1 (export_to_logfire pending metric_readers) (fun _ => P2) E) ->
  (sends_to_logfire resolved = false -> forall p, P0 p -> P2 p) ->
  phoare (fun p => P0 p /\ _initialized (self_config (inside p)) = false)
    _initialize (fun _ => P2) E.
Proof.
  intros HS0 HS2 HE0 HE2 Hcfg Hfirst Hexport Hskip. unfold _initialize.
  eapply ph_bind; [apply ph_get_self |]. intros self. cbn beta.
  apply (ph_pre _ (_initialized self = false /\ cfg self = resolved)).
  { intros p [[Hp Hi] ->]. auto. }
  intros [-> ->].
  apply (ph_weaken_pre P0); [by intros p [[Hp _] _] |].
  fold (sends_to_logfire resolved).
  apply ph_frame_bind; [by apply pf_in_world, calm_os_getpid | exact HE0 |].
  intros ?.
  apply ph_frame_bind;
    [by apply pf_in_world, calm_otel_resource_attributes | exact HE0 |].
  intros ?.
  apply ph_frame_bind; [by apply pf_in_world, calm_emit; auto | exact HE0 |].
  intros ?.
  apply ph_frame_bind; [by apply pf_modify_self | exact HE0 |]. intros ?.
  apply ph_frame_bind; [by apply pf_add_span_processors | exact HE0 |].
  intros pending.
  apply ph_frame_bind.
  { destruct (cfg_console resolved) as [options|]; [| by apply pf_ret].
    apply pf_bind; [by apply pf_in_world, calm_lift |].
    intros cls. by apply pf_add_span_processor. }
  { exact HE0. }
  clear pending. intros pending.
  apply (ph_bind _ _ _ (fun _ => P2)).
  { destruct (sends_to_logfire resolved) eqn:Hs.
    - eapply ph_bind; [by apply Hfirst |]. intros ?. by apply Hexport.
    - apply ph_ret. by apply Hskip. }
  intros [pending' metric_readers].
  apply ph_frame_bind; [| exact HE2 |].
  { destruct pending' as [|q pending']; [by apply pf_ret |].
    by apply pf_tracer_provider_add_span_processor. }
  intros ?.
  do 5 (apply ph_frame_bind; [by apply pf_in_world, calm_os_getenv | exact HE2 |];
        intros ?).
  apply ph_frame_bind; [| exact HE2 |].
  { apply pf_if; [| by apply pf_ret].
    eapply ph_conseq; [by apply (pf_add_span_processor P2) | auto | auto | auto]. }
  intros ?.
  apply ph_frame_bind;
    [by apply pf_in_world, calm_meter_provider_shutdown | exact HE2 |].
  intros ?.
  apply ph_frame_bind; [by apply pf_modify_self | exact HE2 |]. intros ?.
  apply ph_frame_bind; [by apply pf_get_self | exact HE2 |]. intros self'.
  apply ph_frame_bind; [| exact HE2 |].
  { apply pf_if; [| by apply pf_ret].
    apply pf_bind; [by apply pf_modify_self |]. intros ?.
    apply pf_bind; [by apply pf_trace_set_tracer_provider |]. intros ?.
    by apply pf_metrics_set_meter_provider. }
  intros ?. apply ph_frame; [by apply pf_modify_self | exact HE2].
Qed.

Lemma configure_starts (resolved : _LogfireConfigData) (p : process) :
  before_credentials (outside p) resolved
    (with_inside (on_self (set_cfg resolved) (on_self (set_initialized false) (inside p))) p)
  /\ _initialized (self_config (inside
       (with_inside (on_self (set_cfg resolved)
                       (on_self (set_initialized false) (inside p))) p))) = false.
Proof. split; [| reflexivity]. split; [apply undisturbed_refl | reflexivity]. Qed.

(** X15: With [send_to_logfire=False], and with ['if-token-present'] and no token,
    [configure] stores no token and does nothing but quiet events, whether it
    returns or raises: no credentials are created or written, nobody is
    asked, nothing is requested and no token check is started, even when a
    credentials file exists. *)
Theorem configure_without_export (resolved : _LogfireConfigData) (p : process) :
  cfg_send_to_logfire resolved = SendFalse \/
  (cfg_send_to_logfire resolved = SendIfTokenPresent /\ cfg_token resolved = PNone) ->
  undisturbed (outside p) (outside (configure resolved p).2) /\
  cfg (self_config (inside (configure resolved p).2)) = resolved.
Proof.
  intros Hsend%sends_to_logfire_cases. rewrite configure_initializes.
  set (p0 := with_inside _ p).
  pose proof (initialize_around_export resolved
                (before_credentials (outside p) resolved)
                (before_credentials (outside p) resolved)
                (before_credentials (outside p) resolved)
                (before_credentials (outside p) resolved)) as H.
  specialize (H (steady_before_credentials _ _) (steady_before_credentials _ _)
                (fun _ Hp => Hp) (fun _ Hp => Hp) (fun _ Hp => proj2 Hp)).
  rewrite Hsend in H.
  specialize (H (fun Hx => ltac:(discriminate)) (fun Hx => ltac:(discriminate))
                (fun _ _ Hp => Hp) p0 (configure_starts resolved p)).
  by destruct (_initialize p0) as [[[]|e] p1].
Qed.

Lemma configure_without_export_witness :
  undisturbed (outside after_first_configure)
    (outside (configure if_token_present_settings after_first_configure).2) /\
  cfg (self_config (inside (configure if_token_present_settings after_first_configure).2))
  = if_token_present_settings.
Proof.
  apply (configure_without_export if_token_present_settings after_first_configure).
  right. by split.
Defined.

(** ** [configure] with a token given *)

Lemma checked_in_background_more (w0 w w' : world) (after : list event -> Prop) :
  (forall es es', after es -> after (es ++ es')) ->
  checked_in_background w0 after w -> undisturbed w w' ->
  checked_in_background w0 after w'.
Proof.
  intros Hafter (w1 & es & Hu1 & Hu2 & He & Ha) Hu.
  pose proof Hu as (_ & _ & _ & _ & _ & _ & new & Hnew & _).
  exists w1, (es ++ new). split_and!; auto.
  - by eapply undisturbed_trans.
  - by rewrite Hnew, He, <- app_assoc.
Qed.

Lemma steady_token_check_started (w0 : world) (resolved : _LogfireConfigData)
    (after : list event -> Prop) :
  (forall es es', after es -> after (es ++ es')) ->
  steady (token_check_started w0 resolved after).
Proof.
  intros Hafter. split.
  - intros p w' [Hc Hb] Hu. split; [exact Hc |].
    by eapply checked_in_background_more.
  - intros p c' [Hc Hb] Hc'. split; [cbn; congruence | exact Hb].
Qed.

Lemma token_check_started_weaken (w0 : world) (resolved : _LogfireConfigData)
    (after : list event -> Prop) (p : process) :
  token_check_started w0 resolved after p -> at_most_check_started w0 resolved p.
Proof.
  intros [Hc (w1 & es & ? & ? & ? & ?)]. split; [exact Hc |].
  right. exists w1, es. auto.
Qed.

Lemma check_token_started (w0 : world) (resolved : _LogfireConfigData) :
  phoare (before_credentials w0 resolved)
    (in_world (emit (EThreadStart "check_logfire_token")))
    (fun _ => token_check_started w0 resolved (fun _ => True))
    (at_most_check_started w0 resolved).
Proof.
  intros p [Hu Hc]. cbn. split; [exact Hc |].
  exists (outside p), []. split_and!; auto. apply undisturbed_refl.
Qed.

Lemma export_after_check (w0 : world) (resolved : _LogfireConfigData)
    (pending : list SpanProcessor) (metric_readers : list MetricReader) :
  phoare (token_check_started w0 resolved (fun _ => True))
    (export_to_logfire pending metric_readers)
    (fun _ => token_check_started w0 resolved
                (logfire_export_set_up (cfg_token resolved)))
    (at_most_check_started w0 resolved).
Proof.
  intros p Hp. pose proof Hp as [Hc (w1 & es & Hu1 & Hu2 & He & _)].
  unfold export_to_logfire, mbind, CM_bind, get_self, in_world.
  pose proof (get_int_from_env_reads "OTEL_BSP_SCHEDULE_DELAY" (outside p)) as Hw.
  destruct (_get_int_from_env "OTEL_BSP_SCHEDULE_DELAY" (outside p)) as [[delay|e] w];
    cbn in Hw; subst w.
  - unfold add_span_processor, tracer_provider_add_span_processor, modify_self,
      modify_core, mbind, CM_bind, get_self, in_world, emit.
    cbn. split; [exact Hc |].
    match goal with
    | |- context [EAddSpanProcessor ?x] =>
        exists w1, (es ++ [EAddSpanProcessor x]); cbn; split_and!; auto;
        [ eapply undisturbed_trans; [exact Hu2 |]; by apply undisturbed_add_event
        | by rewrite He, <- app_assoc
        | exists x; split; [| apply in_or_app; right; by left] ]
    end.
    eexists (cfg (self_config (inside p))), _. split; [by rewrite Hc | reflexivity].
  - cbn. destruct p. by apply (token_check_started_weaken _ _ (fun _ => True)).
Qed.

(** X16: With a token given and sending enabled, [configure] keeps the settings
    as they were resolved, starts the thread that checks the token, and sets
    up the export to Logfire with that token after it; besides the start of
    the thread it does nothing but quiet events, whether it returns or
    raises: the credentials file is not written, nobody is asked and
    [configure] itself requests nothing. *)
Theorem configure_with_token (resolved : _LogfireConfigData) (p : process) :
  cfg_token resolved <> PNone ->
  cfg_send_to_logfire resolved = SendTrue \/
  cfg_send_to_logfire resolved = SendIfTokenPresent ->
  cfg (self_config (inside (configure resolved p).2)) = resolved /\
  ((configure resolved p).1 = Ok tt ->
   checked_in_background (outside p) (logfire_export_set_up (cfg_token resolved))
     (outside (configure resolved p).2)) /\
  (forall e, (configure resolved p).1 = Raise e ->
     undisturbed (outside p) (outside (configure resolved p).2) \/
     checked_in_background (outside p) (fun _ => True) (outside (configure resolved p).2)).
Proof.
  intros Htoken Hsend.
  assert (is_None (cfg_token resolved) = false) as Hnone
    by by destruct (cfg_token resolved).
  assert (sends_to_logfire resolved = true) as Hsends.
  { unfold sends_to_logfire. rewrite Hnone. by destruct Hsend as [-> | ->]. }
  rewrite configure_initializes. set (p0 := with_inside _ p).
  pose proof (initialize_around_export resolved
    (before_credentials (outside p) resolved)
    (token_check_started (outside p) resolved (fun _ => True))
    (token_check_started (outside p) resolved (logfire_export_set_up (cfg_token resolved)))
    (at_most_check_started (outside p) resolved)) as H.
  specialize (H (steady_before_credentials _ _)
                (steady_token_check_started _ _ _ (logfire_export_set_up_app _))).
  rewrite Hsends, Hnone in H.
  specialize (H (fun _ Hp => conj (proj2 Hp) (or_introl (proj1 Hp)))
                (token_check_started_weaken _ _ (logfire_export_set_up (cfg_token resolved)))
                (fun _ Hp => proj2 Hp)
                (fun _ => check_token_started _ _)
                (fun _ => export_after_check _ _)
                (fun Hx => ltac:(discriminate)) p0 (configure_starts resolved p)).
  destruct (_initialize p0) as [[[]|e] p1]; cbn [fst snd].
  - destruct H as [Hc Hb]. split; [exact Hc |]. split; [auto | discriminate].
  - destruct H as [Hc Hb]. split; [exact Hc |]. split; [discriminate | auto].
Qed.

Lemma configure_with_token_witness :
  checked_in_background silent_world (logfire_export_set_up (PStr "abc"))
    (outside (configure given_token_settings
                (fresh_process given_token_settings silent_world)).2).
Proof.
  apply (configure_with_token given_token_settings
           (fresh_process given_token_settings silent_world)).
  - discriminate.
  - by left.
  - vm_compute. reflexivity.
Defined.

(** ** After [configure] has returned *)

Section CoreInvariant.
Variable P : core -> Prop.
Hypothesis P_add : forall q c, P c -> P (on_self (with_span_processor q) c).
Hypothesis P_cfg : forall (g : LogfireConfig -> _LogfireConfigData) c,
  P c -> P (on_self (fun self => set_cfg (g self) self) c).

Lemma inv_tracer_provider_add_span_processor (q : SpanProcessor) :
  frames P (tracer_provider_add_span_processor q).
Proof.
  unfold tracer_provider_add_span_processor. frame_steps. by apply (P_add q).
Qed.

Lemma inv_add_span_processor (q : SpanProcessor) (pending : list SpanProcessor) :
  frames P (add_span_processor q pending).
Proof.
  unfold add_span_processor. pose proof inv_tracer_provider_add_span_processor.
  frame_steps; auto.
Qed.

Lemma inv_add_span_processors (qs pending : list SpanProcessor) :
  frames P (add_span_processors qs pending).
Proof.
  revert pending. induction qs as [|q qs IH]; intros pending; cbn.
  - apply frames_ret.
  - apply frames_bind; [apply inv_add_span_processor | auto].
Qed.

Lemma inv_use_stored_or_new_credentials : frames P use_stored_or_new_credentials.
Proof.
  unfold use_stored_or_new_credentials. frame_steps;
    match goal with |- P (on_self (fun self => set_cfg (@?g self) self) _) =>
      by apply (P_cfg g) end.
Qed.

Lemma inv_export_to_logfire (pending : list SpanProcessor)
    (metric_readers : list MetricReader) :
  frames P (export_to_logfire pending metric_readers).
Proof.
  unfold export_to_logfire. pose proof inv_add_span_processor. frame_steps; auto.
Qed.
End CoreInvariant.

Lemma initialize_sets_flag :
  hoare (fun c => _initialized (self_config c) = false) _initialize
    (fun _ c => _initialized (self_config c) = true)
    (fun c => _initialized (self_config c) = false).
Proof.
  set (P := fun c => _initialized (self_config c) = false).
  assert (forall q c, P c -> P (on_self (with_span_processor q) c)) as P_add by auto.
  assert (forall (g : LogfireConfig -> _LogfireConfigData) c,
            P c -> P (on_self (fun self => set_cfg (g self) self) c)) as P_cfg by auto.
  pose proof (inv_add_span_processor P P_add) as Hadd.
  pose proof (inv_add_span_processors P P_add) as Hadds.
  pose proof (inv_tracer_provider_add_span_processor P P_add) as Htadd.
  pose proof (inv_use_stored_or_new_credentials P P_cfg) as Hcreds.
  pose proof (inv_export_to_logfire P P_add) as Hexport.
  unfold _initialize.
  eapply h_bind; [apply h_get_self |]. intros self. cbn beta.
  apply (h_pre _ (_initialized self = false)); [by intros c [Hc ->] |].
  intros ->.
  apply (h_weaken_pre P); [by intros c [Hc _] |].
  repeat match goal with
    | |- hoare _ (modify_self (set_initialized true)) _ _ => fail 1
    | |- hoare _ (let '(_, _) := ?x in _) _ _ => destruct x
    | |- hoare _ (_ ≫= _) _ _ =>
        apply h_frame_bind;
          [first [ solve [auto]
                 | solve [unfold trace_set_tracer_provider, metrics_set_meter_provider;
                          frame_steps; auto] ]
          | intros]
    end.
  apply h_modify_core. reflexivity.
Qed.

Lemma configure_sets_flag (resolved : _LogfireConfigData) (p : process) :
  (configure resolved p).1 = Ok tt ->
  _initialized (self_config (inside (configure resolved p).2)) = true.
Proof.
  intros Hok. rewrite configure_initializes in *. set (p0 := with_inside _ p) in *.
  pose proof (initialize_sets_flag p0 eq_refl) as H.
  by destruct (_initialize p0) as [[[]|e] p1].
Qed.

(** X18: Once [configure] has returned, the configuration is marked as
    initialized, and a further [initialize()] returns at once: it changes
    nothing and does nothing. *)
Theorem configure_then_initialize (resolved : _LogfireConfigData) (p : process) :
  (configure resolved p).1 = Ok tt ->
  _initialized (self_config (inside (configure resolved p).2)) = true /\
  initialize (configure resolved p).2 = (Ok tt, (configure resolved p).2).
Proof.
  intros Hok. pose proof (configure_sets_flag resolved p Hok) as Hflag.
  split; [exact Hflag |].
  unfold initialize, _initialize, mbind, CM_bind, get_self. by rewrite Hflag.
Qed.

Lemma configure_then_initialize_witness :
  initialize after_first_configure = (Ok tt, after_first_configure).
Proof.
  apply (configure_then_initialize sample_settings
           (fresh_process sample_settings creates_my_project)).
  vm_compute. reflexivity.
Defined.

(** ** What the user added comes first *)


Lemma add_span_processors_appends (resolved : _LogfireConfigData)
    (qs pending : list SpanProcessor) (l : list SpanProcessor) :
  hoare (fun c => cfg (self_config c) = resolved /\
                  exists t, _tracer_provider (self_config c) = Some t /\
                            span_processors t = l)
    (add_span_processors qs pending)
    (fun _ c => cfg (self_config c) = resolved /\
                exists t, _tracer_provider (self_config c) = Some t /\
                          span_processors t = l ++ map (wrap_span_processor resolved) qs)
    (fun _ => True).
Proof.
  revert pending l. induction qs as [|q qs IH]; intros pending l; cbn [add_span_processors map].
  - apply h_ret. intros c [Hc (t & Ht & Hl)]. rewrite app_nil_r. eauto.
  - apply (h_bind _ _ _ (fun _ c => cfg (self_config c) = resolved /\
             exists t, _tracer_provider (self_config c) = Some t /\
                       span_processors t = l ++ [wrap_span_processor resolved q])).
    2: { intros pending'.
         refine (h_conseq _ _ _ _ _ _ _
                   (IH pending' (l ++ [wrap_span_processor resolved q])) _ _ _);
           [auto | | auto].
         intros ? c [Hc (t & Ht & Hl)]. split; [exact Hc |].
         exists t. split; [exact Ht |]. by rewrite Hl, <- app_assoc. }
    intros p [Hc (t & Ht & Hl)].
    unfold add_span_processor, tracer_provider_add_span_processor, modify_self,
      modify_core, mbind, CM_bind, get_self, in_world, emit.
    cbn. rewrite Ht. cbn. split; [exact Hc |].
    eexists. split; [reflexivity |]. cbn. by rewrite Hl, Hc.
Qed.

Lemma starts_with_processors_add (first : list SpanProcessor) (q : SpanProcessor)
    (c : core) :
  starts_with_processors first c ->
  starts_with_processors first (on_self (with_span_processor q) c).
Proof.
  intros (t & more & Ht & Hl). unfold starts_with_processors, with_span_processor.
  cbn. rewrite Ht. cbn. eexists _, (more ++ [q]). split; [reflexivity |].
  cbn. by rewrite Hl, app_assoc.
Qed.

Lemma initialize_additional_first (resolved : _LogfireConfigData) :
  hoare (fun c => cfg (self_config c) = resolved /\ _initialized (self_config c) = false)
    _initialize
    (fun _ c =>
       starts_with_processors
         (map (wrap_span_processor resolved)
            (default [] (cfg_additional_span_processors resolved))) c /\
       starts_with_readers (default [] (cfg_additional_metric_readers resolved)) c)
    (fun _ => True).
Proof.
  set (first := map (wrap_span_processor resolved)
                  (default [] (cfg_additional_span_processors resolved))).
  set (readers := default [] (cfg_additional_metric_readers resolved)).
  set (P := starts_with_processors first).
  assert (forall q c, P c -> P (on_self (with_span_processor q) c)) as P_add
    by (intros; by apply starts_with_processors_add).
  assert (forall (g : LogfireConfig -> _LogfireConfigData) c,
            P c -> P (on_self (fun self => set_cfg (g self) self) c)) as P_cfg by auto.
  pose proof (inv_add_span_processor P P_add) as Hadd.
  pose proof (inv_tracer_provider_add_span_processor P P_add) as Htadd.
  pose proof (inv_use_stored_or_new_credentials P P_cfg) as Hcreds.
  unfold _initialize.
  eapply h_bind; [apply h_get_self |]. intros self. cbn beta.
  apply (h_pre _ (_initialized self = false /\ cfg self = resolved));
    [by intros c [[Hc Hi] ->] |].
  intros [-> ->].
  apply (h_weaken_pre (fun c => cfg (self_config c) = resolved));
    [by intros c [[Hc _] _] |].
  do 2 (apply h_frame_bind_any; [apply frames_in_world |]; intros ?).
  apply (h_bind _ _ _ (fun _ c => cfg (self_config c) = resolved)).
  { intros p Hp. exact Hp. }
  intros ?.
  apply (h_bind _ _ _ (fun _ c => cfg (self_config c) = resolved /\
           exists t, _tracer_provider (self_config c) = Some t /\ span_processors t = [])).
  { apply h_modify_core. intros c Hc. cbn. eauto. }
  intros ?.
  apply (h_bind _ _ _ (fun _ => P)).
  { refine (h_conseq _ _ _ _ _ _ _ (add_span_processors_appends resolved _ _ []) _ _ _).
    - auto.
    - intros pending c [_ (t & Ht & Hl)]. exists t, []. by rewrite app_nil_r.
    - auto. }
  intros pending.
  apply h_frame_bind_any.
  { destruct (cfg_console resolved) as [options|]; [| apply frames_ret].
    apply frames_bind; [apply frames_in_world | auto]. }
  clear pending. intros pending.
  apply (h_bind _ _ _ (fun pr c => P c /\ exists more, pr.2 = readers ++ more)).
  { match goal with |- hoare _ (if ?b then _ else _) _ _ => destruct b end.
    - apply h_frame_bind_any; [apply frames_if; [auto | apply frames_in_world] |].
      intros ?. unfold export_to_logfire.
      apply h_frame_bind_any; [apply frames_get_self |]. intros self'.
      apply h_frame_bind_any; [apply frames_in_world |]. intros delay.
      apply h_frame_bind_any; [auto |]. intros pending'.
      apply h_ret. eauto.
    - apply h_ret. intros c Hc. split; [exact Hc |]. exists []. by rewrite app_nil_r. }
  intros [pending' metric_readers]. cbn [snd].
  apply (h_pre _ (exists more, metric_readers = readers ++ more)); [by intros c [_ H] |].
  intros [more ->].
  apply (h_weaken_pre P); [by intros c [Hc _] |].
  apply h_frame_bind_any.
  { destruct pending' as [|q pending']; [apply frames_ret | auto]. }
  intros ?.
  do 5 (apply h_frame_bind_any; [apply frames_in_world |]; intros ?).
  apply h_frame_bind_any.
  { apply frames_if; [| apply frames_ret].
    eapply h_conseq; [apply (Hadd _ pending') | auto | auto | auto]. }
  intros ?.
  apply h_frame_bind_any; [apply frames_in_world |]. intros ?.
  set (P' := fun c => P c /\ starts_with_readers readers c).
  apply (h_bind _ _ _ (fun _ => P')).
  { apply h_modify_core. intros c (t & more' & Ht & Hl). split.
    - exists t, more'. auto.
    - match goal with |- context [if ?b then _ else _] => destruct b end.
      + eexists. cbn. by rewrite <- app_assoc.
      + eexists. reflexivity. }
  intros ?.
  assert (forall f c, (forall x, _tracer_provider (f x) = _tracer_provider x) ->
                      (forall x, _meter_provider (f x) = _meter_provider x) ->
                      P' c -> P' (on_self f c)) as P'_self.
  { intros f c Hf1 Hf2 [(t & m1 & Ht & Hl) (m2 & Hm)]. split.
    - exists t, m1. cbn. by rewrite Hf1.
    - exists m2. cbn. by rewrite Hf2. }
  apply h_frame_bind_any; [apply frames_get_self |]. intros self'.
  apply h_frame_bind_any.
  { apply frames_if; [| apply frames_ret].
    unfold trace_set_tracer_provider, metrics_set_meter_provider. frame_steps; auto. }
  intros ?. apply h_modify_core. intros c Hc. by apply P'_self.
Qed.

Lemma configure_additional_first (resolved : _LogfireConfigData) (p : process) :
  (configure resolved p).1 = Ok tt ->
  starts_with_processors
    (map (wrap_span_processor resolved)
       (default [] (cfg_additional_span_processors resolved)))
    (inside (configure resolved p).2) /\
  starts_with_readers (default [] (cfg_additional_metric_readers resolved))
    (inside (configure resolved p).2).
Proof.
  intros Hok. rewrite configure_initializes in *. set (p0 := with_inside _ p) in *.
  pose proof (initialize_additional_first resolved p0 (conj eq_refl eq_refl)) as H.
  by destruct (_initialize p0) as [[[]|e] p1].
Qed.

(** X19: When [configure] returns, the tracer provider holds the span processors
    the user added first, in the order given and each wrapped by the local
    [add_span_processor]; and the meter provider holds the metric readers
    the user added first, in the order given. *)
Theorem configure_keeps_additional_first (resolved : _LogfireConfigData) (p : process) :
  (configure resolved p).1 = Ok tt ->
  starts_with_processors
    (map (wrap_span_processor resolved)
       (default [] (cfg_additional_span_processors resolved)))
    (inside (configure resolved p).2) /\
  starts_with_readers (default [] (cfg_additional_metric_readers resolved))
    (inside (configure resolved p).2).
Proof. apply configure_additional_first. Qed.

Lemma configure_keeps_additional_first_witness :
  starts_with_processors
    [MainSpanProcessorWrapper (UserProcessor "mine" None) NOOP_SCRUBBER]
    (inside (configure local_settings (fresh_process local_settings silent_world)).2) /\
  starts_with_readers [UserMetricReader "mine"]
    (inside (configure local_settings (fresh_process local_settings silent_world)).2).
Proof.
  apply (configure_keeps_additional_first local_settings
           (fresh_process local_settings silent_world)).
  vm_compute. reflexivity.
Defined.

(** X20: Once [configure] has returned, [get_tracer_provider] and
    [get_meter_provider] hand out the providers [configure] built, the tracer
    provider with the sampler the settings ask for, and warn about nothing;
    on a configuration that was never initialized they warn, unless
    [ignore_no_config] is set, and hand out the no-op providers. *)
Theorem providers_after_configure (resolved : _LogfireConfigData) :
  (forall p ignore_no_config,
     (configure resolved p).1 = Ok tt ->
     (exists t,
        get_tracer_provider ignore_no_config (configure resolved p).2
          = (Ok (Some t), (configure resolved p).2) /\
        sampler t = expected_sampler resolved) /\
     (exists m,
        get_meter_provider ignore_no_config (configure resolved p).2
          = (Ok (Some m), (configure resolved p).2))) /\
  (forall w,
     (exists msg,
        get_tracer_provider false (fresh_process resolved w)
        = (Ok None, with_outside (add_event (EWarn msg) w) (fresh_process resolved w))) /\
     (exists msg,
        get_meter_provider false (fresh_process resolved w)
        = (Ok None, with_outside (add_event (EWarn msg) w) (fresh_process resolved w))) /\
     get_tracer_provider true (fresh_process resolved w)
       = (Ok None, fresh_process resolved w) /\
     get_meter_provider true (fresh_process resolved w)
       = (Ok None, fresh_process resolved w)).
Proof.
  split.
  - intros p ignore_no_config Hok.
    pose proof (configure_sets_flag resolved p Hok) as Hflag.
    destruct (tracer_provider_after_ok resolved p (or_introl Hok)) as (t & Ht & Hs & _).
    unfold tracer_provider_after in Ht.
    destruct (configure_additional_first resolved p Hok) as [_ [more Hm]].
    unfold get_tracer_provider, get_meter_provider, warn_if_not_initialized,
      mbind, CM_bind, get_self.
    rewrite Hflag. cbn -[configure]. rewrite Ht, Hm.
    destruct (configure resolved p).2. eauto.
  - intros w. split_and!; try reflexivity; eexists; reflexivity.
Qed.

Lemma providers_after_configure_witness :
  exists t,
    get_tracer_provider false after_first_configure = (Ok (Some t), after_first_configure) /\
    sampler t = expected_sampler sample_settings.
Proof.
  apply (proj1 (providers_after_configure sample_settings)
           (fresh_process sample_settings creates_my_project) false).
  vm_compute. reflexivity.
Defined.

(** ** The delay of the batch processor *)

(** X22: The batch span processor that exports to Logfire never gets a schedule
    delay of zero: when the set-up goes through, the processor is registered
    with a delay other than zero, and with 500 milliseconds when
    [OTEL_BSP_SCHEDULE_DELAY] is unset or empty. *)
Theorem logfire_batch_delay (pending : list SpanProcessor)
    (metric_readers : list MetricReader) (p : process) :
  is_Ok (export_to_logfire pending metric_readers p).1 = true ->
  exists delay,
    events (outside (export_to_logfire pending metric_readers p).2)
    = events (outside p) ++
      [EAddSpanProcessor
         (wrap_span_processor (cfg (self_config (inside p)))
            (BatchSpanProcessor (logfire_span_exporter (cfg (self_config (inside p))))
               (Some delay)))] /\
    delay <> 0%Z /\
    (default EmptyString (environ (outside p) !! "OTEL_BSP_SCHEDULE_DELAY") = EmptyString ->
     delay = 500%Z).
Proof.
  unfold export_to_logfire, mbind, CM_bind, get_self, in_world.
  unfold _get_int_from_env, os_getenv. run_M.
  destruct (environ (outside p) !! "OTEL_BSP_SCHEDULE_DELAY") as [v|] eqn:Hv; cbn.
  - destruct v as [|c v]; cbn.
    + intros _. exists 500%Z. cbn. split_and!; auto; lia.
    + destruct (py_int (String c v)) as [n|e]; cbn; [| discriminate].
      intros _. destruct (n =? 0)%Z eqn:Hn.
      * exists 500%Z. cbn. split_and!; auto; lia.
      * exists n. cbn. apply Z.eqb_neq in Hn. split_and!; auto; discriminate.
  - intros _. exists 500%Z. cbn. split_and!; auto; lia.
Qed.

Lemma logfire_batch_delay_witness :
  exists delay,
    events (outside (export_to_logfire [] []
                       (fresh_process given_token_settings silent_world)).2)
    = events silent_world ++
      [EAddSpanProcessor
         (wrap_span_processor given_token_settings
            (BatchSpanProcessor (logfire_span_exporter given_token_settings)
               (Some delay)))] /\
    delay <> 0%Z /\
    (default EmptyString (environ silent_world !! "OTEL_BSP_SCHEDULE_DELAY") = EmptyString ->
     delay = 500%Z).
Proof.
  apply (logfire_batch_delay [] [] (fresh_process given_token_settings silent_world)).
  vm_compute. reflexivity.
Defined.


(** ** Resource attributes from the environment *)

Lemma str_split_first_None (sep : ascii) (s : string) :
  str_split_first sep s = None <->
  str_forall (fun c => negb (bool_decide (c = sep))) s = true.
Proof.
  induction s as [|c s IH]; cbn [str_split_first str_forall]; [done |].
  case_bool_decide; cbn [negb andb]; [done |].
  rewrite <- IH. destruct (str_split_first sep s); cbn; done.
Qed.

Lemma str_split_first_app (sep : ascii) (key value : string) :
  str_forall (fun c => negb (bool_decide (c = sep))) key = true ->
  str_split_first sep (key +:+ String sep value) = Some (key, value).
Proof.
  induction key as [|c key IH]; cbn [str_forall].
  - intros _. rewrite str_app_nil_l. cbn. by rewrite bool_decide_eq_true_2.
  - intros [Hc Hk]%andb_true_iff. rewrite str_app_cons. cbn [str_split_first].
    apply negb_true_iff in Hc. rewrite Hc, (IH Hk). reflexivity.
Qed.

Lemma split_from_ends_with_sep (sep : ascii) (field s : string) :
  In EmptyString (split_from sep field (s +:+ String sep EmptyString)).
Proof.
  revert field. induction s as [|c s IH]; intros field.
  - rewrite str_app_nil_l. cbn. rewrite bool_decide_eq_true_2 by done. right. by left.
  - rewrite str_app_cons. cbn [split_from]. case_bool_decide; [right |]; apply IH.
Qed.

Lemma add_resource_attributes_missing (fields : list string) (_field : string)
    (attrs : gmap string pyval) :
  In _field fields -> str_split_first "=" _field = None ->
  add_resource_attributes fields attrs = Raise ValueError.
Proof.
  revert attrs. induction fields as [|f fields IH]; intros attrs; [intros [] |].
  intros [-> | Hin] Hnone; cbn [add_resource_attributes].
  - by rewrite Hnone.
  - destruct (str_split_first "=" f) as [[key value]|]; [by apply IH | reflexivity].
Qed.

Lemma add_resource_attributes_app (before after : list string)
    (attrs : gmap string pyval) :
  add_resource_attributes (before ++ after) attrs =
    (add_resource_attributes before attrs ≫= add_resource_attributes after).
Proof.
  revert attrs. induction before as [|f before IH]; intros attrs; [reflexivity |].
  cbn [app add_resource_attributes].
  destruct (str_split_first "=" f) as [[key value]|]; [apply IH | reflexivity].
Qed.

Lemma add_resource_attributes_Ok (fields : list string) (attrs : gmap string pyval) :
  Forall (fun f => str_forall (fun c => negb (bool_decide (c = "="%char))) f = false) fields ->
  exists attrs', add_resource_attributes fields attrs = Ok attrs'.
Proof.
  revert attrs. induction fields as [|f fields IH]; intros attrs Hall; [by eexists |].
  apply Forall_cons in Hall as [Hf Hall]. cbn [add_resource_attributes].
  destruct (str_split_first "=" f) as [[key value]|] eqn:Hs; [by apply IH |].
  apply str_split_first_None in Hs. congruence.
Qed.

Lemma str_truthy_app (s1 s2 : string) :
  str_truthy s2 = true -> str_truthy (s1 +:+ s2) = true.
Proof.
  destruct s1; [by rewrite str_app_nil_l | by rewrite str_app_cons].
Qed.

(** X23: A field of [OTEL_RESOURCE_ATTRIBUTES] without [=] makes the collection
    of the resource attributes raise [ValueError]; a value that ends with a
    comma has such a field, the empty one after the comma. *)
Theorem resource_attributes_malformed (service_name service_version : pyval) (pid : Z)
    (w : world) (text : string) :
  environ w !! "OTEL_RESOURCE_ATTRIBUTES" = Some text ->
  (forall _field,
     text <> EmptyString ->
     In _field (str_split "," text) ->
     str_forall (fun c => negb (bool_decide (c = "="%char))) _field = true ->
     otel_resource_attributes service_name service_version pid w = (Raise ValueError, w)) /\
  (forall s,
     text = s +:+ "," ->
     otel_resource_attributes service_name service_version pid w = (Raise ValueError, w)).
Proof.
  intros Henv.
  assert (forall _field,
    str_truthy text = true ->
    In _field (str_split "," text) ->
    str_split_first "=" _field = None ->
    otel_resource_attributes service_name service_version pid w = (Raise ValueError, w))
    as Hraise.
  { intros _field Ht Hin Hnone. unfold otel_resource_attributes, os_getenv. run_M.
    rewrite Henv, Ht. by erewrite add_resource_attributes_missing. }
  split.
  - intros _field Hne Hin Hno. apply (Hraise _field); auto.
    + by destruct text.
    + by apply str_split_first_None.
  - intros s ->. apply (Hraise EmptyString).
    + by apply str_truthy_app.
    + apply split_from_ends_with_sep.
    + reflexivity.
Qed.

Lemma resource_attributes_malformed_witness :
  otel_resource_attributes (PStr "svc") PNone 42
    (setenv "OTEL_RESOURCE_ATTRIBUTES" "team=core," silent_world)
  = (Raise ValueError, setenv "OTEL_RESOURCE_ATTRIBUTES" "team=core," silent_world).
Proof.
  apply (proj2 (resource_attributes_malformed (PStr "svc") PNone 42
                  (setenv "OTEL_RESOURCE_ATTRIBUTES" "team=core," silent_world)
                  "team=core," eq_refl) "team=core").
  reflexivity.
Defined.

(** X24: Without [OTEL_RESOURCE_ATTRIBUTES], or with an empty one, the attributes
    are the service name, the process id and the service version if there is
    one.  With fields that all have an [=], the last field decides the value
    of its key, stripped like the key: so the variable can replace the
    configured service name. *)
Theorem resource_attributes_last_field (service_name service_version : pyval) (pid : Z)
    (w : world) :
  (default EmptyString (environ w !! "OTEL_RESOURCE_ATTRIBUTES") = EmptyString ->
   exists attrs,
     otel_resource_attributes service_name service_version pid w = (Ok attrs, w) /\
     attrs !! "service.name" = Some service_name /\
     attrs !! "process.pid" = Some (PInt pid) /\
     attrs !! "service.version"
       = (if py_truthy service_version then Some service_version else None) /\
     dom attrs ⊆ {[ "service.name"; "process.pid"; "service.version" ]}) /\
  (forall text before key value,
     environ w !! "OTEL_RESOURCE_ATTRIBUTES" = Some text ->
     str_split "," text = before ++ [key +:+ "=" +:+ value] ->
     str_forall (fun c => negb (bool_decide (c = "="%char))) key = true ->
     Forall (fun f => str_forall (fun c => negb (bool_decide (c = "="%char))) f = false)
       before ->
     exists attrs,
       otel_resource_attributes service_name service_version pid w = (Ok attrs, w) /\
       attrs !! str_strip key = Some (PStr (str_strip value))).
Proof.
  split.
  - intros Hempty. unfold otel_resource_attributes, os_getenv. run_M.
    assert (forall attrs : gmap string pyval,
      match environ w !! "OTEL_RESOURCE_ATTRIBUTES" with
      | Some text =>
          if str_truthy text
          then fun w' => (add_resource_attributes (str_split "," text) attrs, w')
          else fun w' => (Ok attrs, w')
      | None => fun w' => (Ok attrs, w')
      end w = (Ok attrs, w)) as ->.
    { intros attrs. destruct (environ w !! "OTEL_RESOURCE_ATTRIBUTES") as [text|];
        [| reflexivity].
      cbn in Hempty. by subst text. }
    eexists. split; [reflexivity |].
    destruct (py_truthy service_version); split_and!;
      try (vm_compute; reflexivity); set_solver.
  - intros text before key value Henv Hsplit Hkey Hbefore.
    unfold otel_resource_attributes, os_getenv. run_M. rewrite Henv.
    assert (str_truthy text = true) as ->.
    { destruct text; [| reflexivity]. exfalso. cbn in Hsplit.
      destruct before as [|f [|f' before]]; try discriminate.
      injection Hsplit as Hsplit. symmetry in Hsplit.
      apply str_app_eq_nil in Hsplit as [_ Hsplit]. discriminate. }
    rewrite Hsplit, add_resource_attributes_app.
    match goal with |- context [add_resource_attributes before ?a] =>
      destruct (add_resource_attributes_Ok before a Hbefore) as [attrs' ->] end.
    cbn [mbind result_bind add_resource_attributes].
    change (key +:+ "=" +:+ value) with (key +:+ String "=" value).
    rewrite (str_split_first_app _ _ _ Hkey).
    eexists. split; [reflexivity |]. apply lookup_insert_eq.
Qed.

Lemma resource_attributes_last_field_witness :
  exists attrs,
    otel_resource_attributes (PStr "svc") PNone 42
      (setenv "OTEL_RESOURCE_ATTRIBUTES" "team=core, service.name = other " silent_world)
    = (Ok attrs,
       setenv "OTEL_RESOURCE_ATTRIBUTES" "team=core, service.name = other " silent_world) /\
    attrs !! "service.name" = Some (PStr "other").
Proof.
  apply (proj2 (resource_attributes_last_field (PStr "svc") PNone 42
                  (setenv "OTEL_RESOURCE_ATTRIBUTES" "team=core, service.name = other "
                     silent_world))
           "team=core, service.name = other " ["team=core"] " service.name " " other ").
  - reflexivity.
  - reflexivity.
  - reflexivity.
  - repeat constructor.
Defined.


(** ** Creating a project without a question *)

Lemma valid_project_name_matching (d : ask_default) (name : string) (w : world) :
  matches_project_name_pattern name = true ->
  valid_project_name d (PStr name) w = (Ok (PStr name), w).
Proof.
  intros Hm. unfold valid_project_name.
  rewrite while_true_step, reprompt_invalid_name_cases.
  cbn [py_truthy re_match_project_name]. rewrite Hm.
  by destruct name.
Qed.

(** X14: With an organization of the user's, a name that matches the pattern and
    no forced prompt, [create_new_project] asks nothing: it requests the
    organizations, posts the name, and returns the body of a reply that
    [raise_for_status] accepts. *)
Theorem create_new_project_without_prompt (api : pyval) (tok organization name : string)
    (default_organization : bool) (w : world) (items organizations : list pyval)
    (r : response) (data : pyval) (rest : list http_outcome) :
  user_token w = Some tok ->
  responses w = reply 200 (PList items) :: HttpResponds r :: rest ->
  mapM (fun item => py_getitem item "organization_name") items = Ok organizations ->
  py_in (Some organization) organizations = true ->
  matches_project_name_pattern name = true ->
  (200 <= status_code r < 300)%Z ->
  body r = Some data ->
  create_new_project api (Some organization) default_organization (PStr name) false w =
    (Ok data,
     after_request (create_project_request api (PStr organization) tok (PStr name))
       (after_request
          (ERequest "GET" (urljoin api "/v1/organizations/" []) (PStr tok) None) w)).
Proof.
  intros Hw Hr Hnames Hin Hname Hstatus Hbody.
  assert (str_truthy name = true) as Htruthy by by destruct name.
  unfold create_new_project, mbind, M_bind.
  rewrite (get_user_token_logged_in _ _ _ Hw), checked_request_outcome.
  unfold accepted_reply. rewrite Hr.
  cbn [reply raise_for_status status_code Z.leb Z.ltb Z.compare Pos.compare
       Pos.compare_cont andb lift response_json body py_iter].
  rewrite Hnames, Hin.
  cbn [negb mret M_ret from_option py_truthy]. rewrite Htruthy.
  unfold mret, M_ret. cbn beta iota.
  unfold create_project_loop. rewrite while_true_step.
  unfold create_project_round, mbind, M_bind.
  cbn [orb py_truthy negb]. rewrite Htruthy. cbn [negb]. unfold mret, M_ret.
  rewrite (valid_project_name_matching _ _ _ Hname).
  unfold submit_project_name. run_M.
  unfold after_request at 1. cbn [responses set_responses add_event]. rewrite Hr.
  cbn [tail].
  rewrite !bool_decide_eq_false_2 by lia.
  unfold raise_for_status.
  assert ((200 <=? status_code r)%Z && (status_code r <? 300)%Z = true) as ->.
  { apply andb_true_iff. split; lia. }
  unfold response_json. rewrite Hbody.
  unfold after_request, create_project_request. cbn. by rewrite Hr.
Qed.

Lemma create_new_project_without_prompt_witness :
  fst (create_new_project (PStr "https://logfire-api.pydantic.dev") (Some "acme") false
         (PStr "my-project") false
         (initial_world ∅ [] [reply 200 only_acme; reply 201 created_project]
            (Some "user-token")))
  = Ok created_project.
Proof.
  rewrite (create_new_project_without_prompt (PStr "https://logfire-api.pydantic.dev")
             "user-token" "acme" "my-project" false
             (initial_world ∅ [] [reply 200 only_acme; reply 201 created_project]
                (Some "user-token"))
             [PDict {[ "organization_name" := PStr "acme" ]}] [PStr "acme"]
             {| status_code := 201; body := Some created_project |} created_project []);
    try reflexivity.
  cbn. lia.
Defined.

(** ** A configuration that is not the global one *)

Lemma initialize_local (flag : bool) (tracer meter : nat) :
  frames (fun c => is_GLOBAL_CONFIG (self_config c) = false /\
                   _has_set_providers (self_config c) = flag /\
                   tracer_provider_registrations c = tracer /\
                   meter_provider_registrations c = meter)
    _initialize.
Proof.
  set (P := fun c => is_GLOBAL_CONFIG (self_config c) = false /\
                     _has_set_providers (self_config c) = flag /\
                     tracer_provider_registrations c = tracer /\
                     meter_provider_registrations c = meter).
  assert (forall q c, P c -> P (on_self (with_span_processor q) c)) as P_add by auto.
  assert (forall (g : LogfireConfig -> _LogfireConfigData) c,
            P c -> P (on_self (fun self => set_cfg (g self) self) c)) as P_cfg by auto.
  pose proof (inv_add_span_processor P P_add) as Hadd.
  pose proof (inv_add_span_processors P P_add) as Hadds.
  pose proof (inv_tracer_provider_add_span_processor P P_add) as Htadd.
  pose proof (inv_use_stored_or_new_credentials P P_cfg) as Hcreds.
  pose proof (inv_export_to_logfire P P_add) as Hexport.
  unfold _initialize.
  apply frames_bind; [apply frames_get_self |]. intros self.
  apply frames_if; [apply frames_ret |].
  repeat match goal with
    | |- frames _ (get_self ≫= _) => fail 1
    | |- frames _ (let '(_, _) := ?x in _) => destruct x
    | |- frames _ (_ ≫= _) =>
        apply frames_bind; [first [ solve [auto] | solve [frame_steps; auto] ] | intros]
    end.
  unfold frames. eapply h_bind; [apply h_get_self |]. intros self'. cbn beta.
  apply (h_pre _ (is_GLOBAL_CONFIG self' = false)); [by intros c [[Hg _] ->] |].
  intros ->. apply (h_weaken_pre P); [by intros c [Hc _] |].
  cbn [andb]. apply frames_bind; [apply frames_ret |]. intros ?.
  unfold modify_self. by apply frames_modify_core.
Qed.

(** X21: A configuration other than [GLOBAL_CONFIG] never registers providers
    with OpenTelemetry: whatever the settings and whether [configure]
    returns or raises, no call of [trace.set_tracer_provider] or
    [metrics.set_meter_provider] is made and the flag is left as it is. *)
Theorem local_config_never_registers (resolved : _LogfireConfigData) (p : process) :
  is_GLOBAL_CONFIG (self_config (inside p)) = false ->
  tracer_provider_registrations (inside (configure resolved p).2)
    = tracer_provider_registrations (inside p) /\
  meter_provider_registrations (inside (configure resolved p).2)
    = meter_provider_registrations (inside p) /\
  _has_set_providers (self_config (inside (configure resolved p).2))
    = _has_set_providers (self_config (inside p)).
Proof.
  intros Hlocal. rewrite configure_initializes. set (p0 := with_inside _ p).
  pose proof (initialize_local (_has_set_providers (self_config (inside p)))
                (tracer_provider_registrations (inside p))
                (meter_provider_registrations (inside p)) p0) as H.
  destruct (_initialize p0) as [[[]|e] p1]; cbn [fst snd];
    destruct H as (_ & ? & ? & ?); auto.
Qed.

Lemma local_config_never_registers_witness :
  tracer_provider_registrations
    (inside (configure local_settings
               {| inside := {| self_config := LogfireConfig_init local_settings false;
                               tracer_provider_registrations := 0;
                               meter_provider_registrations := 0 |};
                  outside := silent_world |}).2) = 0.
Proof.
  apply (local_config_never_registers local_settings
           {| inside := {| self_config := LogfireConfig_init local_settings false;
                           tracer_provider_registrations := 0;
                           meter_provider_registrations := 0 |};
              outside := silent_world |}).
  reflexivity.
Defined.

(** ** A credentials file that cannot be loaded *)

Lemma load_creds_file_same_files (creds_dir : string) (w w' : world) :
  files w' = files w ->
  (load_creds_file creds_dir w').1 = (load_creds_file creds_dir w).1.
Proof.
  intros Hf. unfold load_creds_file. run_M. rewrite Hf.
  destruct (files w !! _get_creds_file creds_dir) as [f|]; [| reflexivity].
  destruct f as [| |v]; cbn; try reflexivity.
  destruct (py_pop v "dashboard_url" PNone) as [[du d]|e]; cbn.
  - destruct (LogfireCredentials_init _) as [c|e]; cbn; [reflexivity |].
    by destruct (is_TypeError e).
  - by destruct (is_TypeError e).
Qed.

Lemma steady_False : steady (fun _ => False).
Proof. split; intros; assumption. Qed.

(** X17: When sending is enabled, no token is given and the credentials file is
    there but [load_creds_file] raises on it, [configure] raises too and does
    nothing but quiet events: no project is bootstrapped in place of the
    broken file, and the file is left as it is. *)
Theorem configure_broken_credentials_file (dir : string) (resolved : _LogfireConfigData)
    (p : process) (e : exn) :
  wants_stored_token dir resolved ->
  (load_creds_file dir (outside p)).1 = Raise e ->
  (exists e', (configure resolved p).1 = Raise e') /\
  undisturbed (outside p) (outside (configure resolved p).2).
Proof.
  intros (Hsend & Htoken & <-) Hload. rewrite configure_initializes.
  set (p0 := with_inside _ p).
  pose proof (initialize_around_export resolved
                (before_credentials (outside p) resolved)
                (fun _ => False) (fun _ => False)
                (fun p' => undisturbed (outside p) (outside p'))) as H.
  specialize (H (steady_before_credentials _ _) steady_False
                (fun _ Hp => proj1 Hp) (fun _ (Hp : False) => match Hp with end)
                (fun _ Hp => proj2 Hp)).
  assert (sends_to_logfire resolved = true) as Hsends
    by (unfold sends_to_logfire; by rewrite Hsend, orb_true_r).
  rewrite Hsends, Htoken in H. cbn [is_None] in H.
  assert (phoare (before_credentials (outside p) resolved) use_stored_or_new_credentials
            (fun _ _ => False) (fun p' => undisturbed (outside p) (outside p'))) as Hfirst.
  { intros q [Hu Hc].
    unfold use_stored_or_new_credentials, mbind, CM_bind, get_self, in_world.
    rewrite Hc.
    pose proof (load_creds_file_same_files (cfg_data_dir resolved) (outside p) (outside q)
                  (proj1 Hu)) as Hsame.
    pose proof (load_creds_file_reads (cfg_data_dir resolved) (outside q)) as Hreads.
    destruct (load_creds_file (cfg_data_dir resolved) (outside q)) as [[c|e'] w'];
      cbn in Hsame, Hreads; [congruence |].
    subst w'. exact Hu. }
  specialize (H (fun _ => Hfirst)
                (fun _ _ _ _ (Hp : False) => match Hp with end)
                (fun Hx => ltac:(discriminate)) p0 (configure_starts resolved p)).
  destruct (_initialize p0) as [[[]|e'] p1]; [destruct H |].
  split; [by eexists | exact H].
Qed.

Lemma configure_broken_credentials_file_witness :
  (exists e', (configure sample_settings
                 (fresh_process sample_settings
                    (initial_world {[ _get_creds_file ".logfire" := NotJSON ]}
                       [Enter] [] (Some "user-token")))).1 = Raise e') /\
  undisturbed
    (initial_world {[ _get_creds_file ".logfire" := NotJSON ]} [Enter] [] (Some "user-token"))
    (outside (configure sample_settings
                (fresh_process sample_settings
                   (initial_world {[ _get_creds_file ".logfire" := NotJSON ]}
                      [Enter] [] (Some "user-token")))).2).
Proof.
  apply (configure_broken_credentials_file ".logfire" sample_settings
           (fresh_process sample_settings
              (initial_world {[ _get_creds_file ".logfire" := NotJSON ]}
                 [Enter] [] (Some "user-token")))
           (LogfireConfigError "Invalid credentials file: .logfire/logfire_credentials.json")).
  - by split_and!.
  - vm_compute. reflexivity.
Defined.


(** ** Selecting a project by its number *)

Lemma project_choices_from_lookup (index : nat) (items : list pyval)
    (choices : list (string * (pyval * pyval))) :
  project_choices_from index items = Ok choices ->
  (forall i k on, choices !! i = Some (k, on) -> k = pretty (index + i + 1)) /\
  (forall i item o n,
     items !! i = Some item ->
     py_getitem item "organization_name" = Ok o ->
     py_getitem item "project_name" = Ok n ->
     choices !! i = Some (pretty (index + i + 1), (o, n))).
Proof.
  revert index choices. induction items as [|item0 items IH]; intros index choices; cbn.
  - intros [= <-]. split; intros; discriminate.
  - destruct (py_getitem item0 "organization_name") as [o0|e] eqn:Ho; cbn; [| discriminate].
    destruct (py_getitem item0 "project_name") as [n0|e] eqn:Hn; cbn; [| discriminate].
    destruct (project_choices_from (S index) items) as [others|e] eqn:Hothers; cbn;
      [| discriminate].
    intros [= <-]. destruct (IH _ _ Hothers) as [IH1 IH2]. split.
    + intros [|i] k on; cbn.
      * intros [= <- _]. f_equal. lia.
      * intros H. etrans; [exact (IH1 _ _ _ H) |]. f_equal. lia.
    + intros [|i] item o n; cbn.
      * intros [= <-] Ho' Hn'. do 2 f_equal; [f_equal; lia | congruence].
      * intros Hi Ho' Hn'. etrans; [exact (IH2 _ _ _ _ Hi Ho' Hn') |]. do 3 f_equal. lia.
Qed.

Lemma project_choices_getitem_numbered (choices : list (string * (pyval * pyval)))
    (i : nat) (on : pyval * pyval) :
  (forall j k on', choices !! j = Some (k, on') -> k = pretty (j + 1)) ->
  choices !! i = Some (pretty (i + 1), on) ->
  project_choices_getitem choices (PStr (pretty (i + 1))) = Ok on.
Proof.
  intros Hkeys Hi. unfold project_choices_getitem.
  assert (list_find (fun kv : string * (pyval * pyval) => kv.1 = pretty (i + 1)) choices
          = Some (i, (pretty (i + 1), on))) as ->; [| reflexivity].
  apply list_find_Some. split; [exact Hi |]. split; [reflexivity |].
  intros j [k on'] Hj Hlt Hk. cbn in Hk. subst k.
  apply Hkeys in Hj. apply (inj pretty) in Hj. lia.
Qed.

Lemma choice_ok_numbered (choices : list (string * (pyval * pyval))) (i : nat)
    (on : pyval * pyval) :
  choices !! i = Some (pretty (i + 1), on) ->
  choice_ok (Some (PStr <$> choices.*1)) (pretty (i + 1)) = true.
Proof.
  intros Hi. cbn. apply existsb_exists. exists (PStr (pretty (i + 1))). split.
  - apply list_elem_of_In, list_elem_of_fmap. exists (pretty (i + 1)).
    split; [reflexivity |]. apply list_elem_of_fmap. exists (pretty (i + 1), on).
    split; [reflexivity |]. by eapply list_elem_of_lookup_2.
  - cbn. by apply bool_decide_eq_true.
Qed.

(** X9: Asked to select among all projects, the user who types the number of a
    project gets the write token of that project requested: the project
    shown under that number, and no other. *)
Theorem use_existing_project_selects (api : pyval) (tok : string) (items : list pyval)
    (choices : list (string * (pyval * pyval))) (i : nat) (item o n : pyval)
    (ans : list answer) (w : world) :
  user_token w = Some tok ->
  project_choices_from 0 items = Ok choices ->
  items !! i = Some item ->
  py_getitem item "organization_name" = Ok o ->
  py_getitem item "project_name" = Ok n ->
  answers w = Typed (pretty (i + 1)) :: ans ->
  let asked :=
    set_answers ans
      (add_event (EPrompt (PromptSelectProject choices) (Some (PStr <$> choices.*1))
                    (Default (PStr "1"))) w) in
  use_existing_project api (PList items) None None w =
    (match accepted_reply asked with
     | Some r => response_json r
     | None => Raise (LogfireConfigError "Error creating project write token.")
     end,
     after_request (write_token_request api tok o n) asked).
Proof.
  intros Hw Hchoices Hi Ho Hn Hans asked.
  destruct (project_choices_from_lookup _ _ _ Hchoices) as [Hkeys Hlookup].
  pose proof (Hlookup _ _ _ _ Hi Ho Hn) as Hchoice. cbn [plus] in Hchoice.
  assert (py_truthy (PList items) = true) as Htruthy by by destruct items.
  unfold use_existing_project, mbind, M_bind.
  rewrite (get_user_token_logged_in _ _ _ Hw).
  unfold mret, M_ret. cbn beta iota. rewrite Htruthy.
  cbn -[Prompt_ask checked_request project_choices_from project_choices_getitem].
  rewrite Hchoices.
  rewrite (Prompt_ask_typed _ _ _ _ _ _ Hans (choice_ok_numbered _ _ _ Hchoice)).
  rewrite (project_choices_getitem_numbered _ _ _ Hkeys Hchoice).
  cbn -[checked_request]. rewrite checked_request_outcome. fold asked.
  destruct (accepted_reply asked); reflexivity.
Qed.

Lemma use_existing_project_selects_witness :
  fst (use_existing_project (PStr "https://logfire-api.pydantic.dev") (PList one_project)
         None None
         (initial_world ∅ [Typed "1"] [reply 200 created_project] (Some "user-token")))
  = Ok created_project.
Proof.
  rewrite (use_existing_project_selects (PStr "https://logfire-api.pydantic.dev")
             "user-token" one_project [("1", (PStr "acme", PStr "my-project"))] 0
             (PDict {[ "organization_name" := PStr "acme";
                       "project_name" := PStr "my-project" ]})
             (PStr "acme") (PStr "my-project") []);
    reflexivity.
Defined.


(** ** Which files load *)

Lemma LogfireCredentials_init_asdict (d : gmap string pyval) (c : LogfireCredentials) :
  LogfireCredentials_init d = Ok c <-> d = asdict c.
Proof.
  split.
  - unfold LogfireCredentials_init. case_bool_decide as Hdom; [| discriminate].
    destruct (d !! "token") as [t|] eqn:Ht; [| discriminate].
    destruct (d !! "project_name") as [n|] eqn:Hn; [| discriminate].
    destruct (d !! "project_url") as [u|] eqn:Hu; [| discriminate].
    destruct (d !! "logfire_api_url") as [a|] eqn:Ha; [| discriminate].
    intros [= <-]. apply map_eq. intros k. unfold asdict. cbn [token project_name project_url logfire_api_url].
    destruct (decide (k = "token")) as [-> | H1]; [by rewrite lookup_insert_eq |].
    rewrite lookup_insert_ne by done.
    destruct (decide (k = "project_name")) as [-> | H2]; [by rewrite lookup_insert_eq |].
    rewrite lookup_insert_ne by done.
    destruct (decide (k = "project_url")) as [-> | H3]; [by rewrite lookup_insert_eq |].
    rewrite lookup_insert_ne by done.
    destruct (decide (k = "logfire_api_url")) as [-> | H4]; [by rewrite lookup_insert_eq |].
    rewrite lookup_insert_ne by done. rewrite lookup_empty.
    apply not_elem_of_dom. intros Hk. apply Hdom in Hk.
    unfold CREDENTIALS_FIELDS in Hk. set_solver.
  - intros ->. destruct c as [t n u a]. reflexivity.
Qed.

(** X5: A file that holds a JSON object without the legacy key loads exactly
    when the object has the four fields of the credentials and nothing else,
    and then to the credentials with these values. *)
Theorem load_creds_file_exact (creds_dir : string) (d : gmap string pyval)
    (c : LogfireCredentials) (w : world) :
  files w !! _get_creds_file creds_dir = Some (JSONText (PDict d)) ->
  d !! "dashboard_url" = None ->
  (fst (load_creds_file creds_dir w) = Ok (Some c) <-> d = asdict c).
Proof.
  intros Hw Hd. rewrite <- LogfireCredentials_init_asdict.
  unfold load_creds_file. run_M. rewrite Hw. cbn. rewrite Hd. cbn.
  destruct (LogfireCredentials_init d) as [c'|e]; cbn.
  - split; intros [= <-]; reflexivity.
  - destruct (is_TypeError e); split; discriminate.
Qed.

Lemma load_creds_file_exact_witness :
  fst (load_creds_file ".logfire"
         (creds_dir_with (JSONText (PDict (<["extra" := PNone]> (asdict my_project_credentials))))))
  <> Ok (Some my_project_credentials).
Proof.
  intros H.
  apply (load_creds_file_exact ".logfire"
           (<["extra" := PNone]> (asdict my_project_credentials)) my_project_credentials
           (creds_dir_with (JSONText (PDict (<["extra" := PNone]>
              (asdict my_project_credentials)))))) in H.
  - assert ((<["extra" := PNone]> (asdict my_project_credentials) : gmap string pyval)
              !! "extra" = asdict my_project_credentials !! "extra") as Hx by by rewrite <- H.
    vm_compute in Hx. discriminate.
  - vm_compute. reflexivity.
  - vm_compute. reflexivity.
Defined.
